(** * The view planner of dense_reconstruction: a shallow embedding

    This development embeds [ViewPlanner] of
    [src/dense_reconstruction/code_base/view_planner.cpp] and checks the
    statements of the planning-loop specification against it.

    Conventions of the embedding.
    - A C++ [double] is an exact rational [Q]; rounding, infinities and
      NaN are outside the model.  Numeric results are compared with [==].
    - The planner object is the record [ViewPlanner]; a member function
      takes the object and returns the updated one.  Two more fields log
      what the object does to the outside: the files it writes and the
      service requests it sends.
    - What the outside world supplies (service replies, the messages a
      [ros::spinOnce] delivers) is an explicit script.  A loop that is still
      waiting when its script ends yields [Unfinished].
    - Using a local variable that was never assigned yields [Undefined]. *)

From Stdlib Require Import String Bool Arith Lia QArith Relations List.
Import ListNotations.

Local Open Scope Q_scope.

(** * Part I: the embedding *)

(** ** Doubles, vectors, results *)

(** [a > b] on doubles. *)
Definition Qgtb (a b : Q) : bool := negb (Qle_bool a b).

(** [c == -1], the test the planning loop uses for an excluded candidate. *)
Definition is_invalid_cost (c : Q) : bool := Qeq_bool c (-1).

(** [v[i] = x] on a [std::vector]; the loops below only write in range. *)
Fixpoint vector_set {A : Type} (v : list A) (i : nat) (x : A) : list A :=
  match v, i with
  | [], _ => []
  | _ :: t, O => x :: t
  | h :: t, S j => h :: vector_set t j x
  end.

(** [v.resize(n)] on a vector of doubles: cut, or fill up with zeros. *)
Definition vector_resize (v : list Q) (n : nat) : list Q :=
  firstn n v ++ repeat 0 (n - length v).

(** The outcome of a piece of code that may wait forever or read an
    unassigned variable. *)
Inductive result (A : Type) : Type :=
| Ok (a : A)
| Undefined
| Unfinished.

Arguments Ok {A} a.
Arguments Undefined {A}.
Arguments Unfinished {A}.

Definition bind {A B : Type} (r : result A) (k : A -> result B) : result B :=
  match r with
  | Ok a => k a
  | Undefined => Undefined
  | Unfinished => Unfinished
  end.

Notation "x <- r ;; k" := (bind r (fun x => k))
  (at level 61, r at next level, right associativity).
Notation "' pat <- r ;; k" := (bind r (fun pat => k))
  (at level 61, pat pattern, r at next level, right associativity).

(** The severity of a console message. *)
Inductive LogLevel := ROS_INFO | ROS_WARN | ROS_ERROR.

(** ** Views and the view space *)

Record Pose := {
  position_x : Q; position_y : Q; position_z : Q;
  orientation_x : Q; orientation_y : Q; orientation_z : Q; orientation_w : Q
}.

(** Modelled from the spec: the class [View] is declared outside
    view_planner.cpp; the specification describes it as a pose plus an opaque
    identifier. *)
Record View := { view_id : nat; pose : Pose }.

Definition origin_pose : Pose :=
  {| position_x := 0; position_y := 0; position_z := 0;
     orientation_x := 0; orientation_y := 0; orientation_z := 0;
     orientation_w := 1 |}.

Definition default_view : View := {| view_id := 0; pose := origin_pose |}.

Module ViewSpace.

(** Modelled from the spec: the class [ViewSpace] is declared outside
    view_planner.cpp.  The specification describes it as an ordered
    collection of views, each tagged good or bad, changed only by marking a
    view bad or by replacing the whole space. *)
Record Entry := { view : View; bad : bool }.

Definition t := list Entry.

(** Modelled from the spec: [getView] gives the view stored at a position
    (the default view outside the space; the planning loop only asks for
    positions inside). *)
Definition getView (vs : t) (index : nat) : View :=
  match nth_error vs index with
  | Some e => view e
  | None => default_view
  end.

(** Modelled from the spec: the tag of the view at a position. *)
Definition isBad (vs : t) (index : nat) : bool :=
  match nth_error vs index with
  | Some e => bad e
  | None => false
  end.

(** Modelled from the spec: [setBad] tags the view at a position bad and
    changes nothing else. *)
Fixpoint setBad (vs : t) (index : nat) : t :=
  match vs, index with
  | [], _ => []
  | e :: rest, O => {| view := view e; bad := true |} :: rest
  | e :: rest, S j => e :: setBad rest j
  end.

(** Modelled from the spec: [getGoodViewSpace] gives the positions of the
    views that are not tagged bad, in order. *)
Definition getGoodViewSpace (vs : t) : list nat :=
  filter (fun index => negb (isBad vs index)) (seq 0 (length vs)).

(** Modelled from the spec: [fromMsg] replaces the whole space by a freshly
    received one, every view good. *)
Definition fromMsg (received : list View) : t :=
  map (fun v => {| view := v; bad := false |}) received.

End ViewSpace.

(** ** The robot planning interface *)

(** Modelled from the spec: the enumeration
    [RobotPlanningInterface::MovementCost::Exception] is declared outside
    view_planner.cpp; the specification lists these tags. *)
Inductive Exception := NONE | UNREACHABLE | TIMEOUT | OTHER.

Definition Exception_eqb (a b : Exception) : bool :=
  match a, b with
  | NONE, NONE | UNREACHABLE, UNREACHABLE
  | TIMEOUT, TIMEOUT | OTHER, OTHER => true
  | _, _ => false
  end.

(** Modelled from the spec: [RobotPlanningInterface::MovementCost] is
    declared outside view_planner.cpp; the loop reads its members [cost] and
    [exception]. *)
Record MovementCost := { cost : Q; exception : Exception }.

(** Modelled from the spec: [RobotPlanningInterface::ReceiveInfo] is declared
    outside view_planner.cpp; a closed enumeration whose only success value
    is [RECEIVED]. *)
Inductive ReceiveInfo := RECEIVED | NOT_RECEIVED (status : nat).

Definition is_RECEIVED (r : ReceiveInfo) : bool :=
  match r with RECEIVED => true | NOT_RECEIVED _ => false end.

(** The service clients of the planner and the requests it sends. *)
Inductive ServiceClient :=
| view_space_retriever_
| current_view_retriever_
| data_retriever_
| cost_retriever_
| view_information_retriever_
| robot_mover_.

Inductive Request :=
| MovementCostCalculation (start_view target_view : View)
| ViewInformationReturn (target : Pose)
| MoveToOrder (target_view : View)
| RetrieveData.

(** A call: the client it goes through and the request. *)
Definition ServiceCall : Type := ServiceClient * Request.

(** The four calls of the planning loop, each through the client the code
    names: [movementCost] calls [cost_retriever_], [getViewInformation]
    calls [current_view_retriever_], [moveTo] and [retrieveData] call
    [data_retriever_]. *)
Definition Call_movement_cost (start_view target_view : View) : ServiceCall :=
  (cost_retriever_, MovementCostCalculation start_view target_view).

Definition Call_view_information (target : Pose) : ServiceCall :=
  (current_view_retriever_, ViewInformationReturn target).

Definition Call_move_to (target_view : View) : ServiceCall :=
  (data_retriever_, MoveToOrder target_view).

Definition Call_retrieve_data : ServiceCall := (data_retriever_, RetrieveData).

(** ** The planner object *)

(** A written data file: the line of names, then one line per row. *)
Record DataFile := { name_line : list string; value_lines : list (list Q) }.

Record ViewPlanner := {
  start_ : bool;
  pause_ : bool;
  stop_and_print_ : bool;
  reinit_ : bool;
  abort_loop_ : bool;
  cost_weight_ : Q;
  information_weights_ : list Q;
  planning_data_names_ : list string;
  planning_data_ : list (list Q);
  view_space_ : ViewSpace.t;
  current_view_ : View;
  (* what the object has done to the outside so far *)
  written_files : list DataFile;
  service_calls : list ServiceCall
}.

Section Setters.
Variable p : ViewPlanner.

Definition set_run_flags (start pause stop_and_print : bool) : ViewPlanner :=
  {| start_ := start; pause_ := pause; stop_and_print_ := stop_and_print;
     reinit_ := reinit_ p; abort_loop_ := abort_loop_ p;
     cost_weight_ := cost_weight_ p;
     information_weights_ := information_weights_ p;
     planning_data_names_ := planning_data_names_ p;
     planning_data_ := planning_data_ p;
     view_space_ := view_space_ p; current_view_ := current_view_ p;
     written_files := written_files p; service_calls := service_calls p |}.

Definition set_reinit (b : bool) : ViewPlanner :=
  {| start_ := start_ p; pause_ := pause_ p;
     stop_and_print_ := stop_and_print_ p;
     reinit_ := b; abort_loop_ := abort_loop_ p;
     cost_weight_ := cost_weight_ p;
     information_weights_ := information_weights_ p;
     planning_data_names_ := planning_data_names_ p;
     planning_data_ := planning_data_ p;
     view_space_ := view_space_ p; current_view_ := current_view_ p;
     written_files := written_files p; service_calls := service_calls p |}.

Definition set_abort_loop (b : bool) : ViewPlanner :=
  {| start_ := start_ p; pause_ := pause_ p;
     stop_and_print_ := stop_and_print_ p;
     reinit_ := reinit_ p; abort_loop_ := b;
     cost_weight_ := cost_weight_ p;
     information_weights_ := information_weights_ p;
     planning_data_names_ := planning_data_names_ p;
     planning_data_ := planning_data_ p;
     view_space_ := view_space_ p; current_view_ := current_view_ p;
     written_files := written_files p; service_calls := service_calls p |}.

Definition set_planning_data_names (names : list string) : ViewPlanner :=
  {| start_ := start_ p; pause_ := pause_ p;
     stop_and_print_ := stop_and_print_ p;
     reinit_ := reinit_ p; abort_loop_ := abort_loop_ p;
     cost_weight_ := cost_weight_ p;
     information_weights_ := information_weights_ p;
     planning_data_names_ := names;
     planning_data_ := planning_data_ p;
     view_space_ := view_space_ p; current_view_ := current_view_ p;
     written_files := written_files p; service_calls := service_calls p |}.

Definition set_planning_data (rows : list (list Q)) : ViewPlanner :=
  {| start_ := start_ p; pause_ := pause_ p;
     stop_and_print_ := stop_and_print_ p;
     reinit_ := reinit_ p; abort_loop_ := abort_loop_ p;
     cost_weight_ := cost_weight_ p;
     information_weights_ := information_weights_ p;
     planning_data_names_ := planning_data_names_ p;
     planning_data_ := rows;
     view_space_ := view_space_ p; current_view_ := current_view_ p;
     written_files := written_files p; service_calls := service_calls p |}.

Definition set_view_space (vs : ViewSpace.t) : ViewPlanner :=
  {| start_ := start_ p; pause_ := pause_ p;
     stop_and_print_ := stop_and_print_ p;
     reinit_ := reinit_ p; abort_loop_ := abort_loop_ p;
     cost_weight_ := cost_weight_ p;
     information_weights_ := information_weights_ p;
     planning_data_names_ := planning_data_names_ p;
     planning_data_ := planning_data_ p;
     view_space_ := vs; current_view_ := current_view_ p;
     written_files := written_files p; service_calls := service_calls p |}.

Definition set_written_files (files : list DataFile) : ViewPlanner :=
  {| start_ := start_ p; pause_ := pause_ p;
     stop_and_print_ := stop_and_print_ p;
     reinit_ := reinit_ p; abort_loop_ := abort_loop_ p;
     cost_weight_ := cost_weight_ p;
     information_weights_ := information_weights_ p;
     planning_data_names_ := planning_data_names_ p;
     planning_data_ := planning_data_ p;
     view_space_ := view_space_ p; current_view_ := current_view_ p;
     written_files := files; service_calls := service_calls p |}.

(** Sending a request appends it to the log. *)
Definition call_service (c : ServiceCall) : ViewPlanner :=
  {| start_ := start_ p; pause_ := pause_ p;
     stop_and_print_ := stop_and_print_ p;
     reinit_ := reinit_ p; abort_loop_ := abort_loop_ p;
     cost_weight_ := cost_weight_ p;
     information_weights_ := information_weights_ p;
     planning_data_names_ := planning_data_names_ p;
     planning_data_ := planning_data_ p;
     view_space_ := view_space_ p; current_view_ := current_view_ p;
     written_files := written_files p;
     service_calls := service_calls p ++ [c] |}.
End Setters.

(** ** Construction *)

Local Open Scope string_scope.

Definition metrics_to_use : list string :=
  [ "NrOfUnknownVoxels"; "AverageUncertainty"; "AverageEndPointUncertainty";
    "UnknownObjectSideFrontier"; "UnknownObjectVolumeFrontier";
    "ClassicFrontier"; "EndNodeOccupancySum"; "TotalOccupancyCertainty";
    "TotalNrOfOccupieds" ].

Definition base_planning_data_names : list string :=
  [ "pos_x"; "pos_y"; "pos_z"; "rot_x"; "rot_y"; "rot_z"; "rot_w";
    "return_value"; "winning_margin"; "return_value_mean";
    "return_value_stddev"; "cost";
    "NrOfUnknownVoxels"; "AverageUncertainty"; "AverageEndPointUncertainty";
    "UnknownObjectSideFrontier"; "UnknownObjectVolumeFrontier";
    "ClassicFrontier"; "EndNodeOccupancySum"; "TotalOccupancyCertainty";
    "TotalNrOfOccupieds" ].

Local Close Scope string_scope.

(** The constructor.  The two arguments are the parameter server's answers:
    the cost weight and, per metric name, the metric's weight. *)
Definition new_ViewPlanner (cost_weight_param : option Q)
    (weight_param : string -> option Q) : ViewPlanner :=
  {| start_ := false; pause_ := false; stop_and_print_ := false;
     reinit_ := false; abort_loop_ := false;
     cost_weight_ := match cost_weight_param with
                     | Some w => w
                     | None => 1
                     end;
     information_weights_ :=
       map (fun metric_name => match weight_param metric_name with
                               | Some w => w
                               | None => 0
                               end) metrics_to_use;
     planning_data_names_ := base_planning_data_names;
     planning_data_ := [];
     view_space_ := [];
     current_view_ := default_view;
     written_files := [];
     service_calls := [] |}.

(** ** [saveDataToFile] and [commandCallback] *)

(** The file gets the names and every recorded row as it stands.  (The code
    prints element 0 of the names and of each row before the rest; neither is
    ever empty.) *)
Definition saveDataToFile (p : ViewPlanner) : ViewPlanner :=
  set_written_files p
    (written_files p ++ [ {| name_line := planning_data_names_ p;
                             value_lines := planning_data_ p |} ]).

Definition commandCallback (p : ViewPlanner) (data : string) : ViewPlanner :=
  if (data =? "START")%string then set_run_flags p true false false
  else if (data =? "PAUSE")%string then set_run_flags p false true false
  else if (data =? "STOP_AND_PRINT")%string
       then set_run_flags p false false true
  else if (data =? "REINIT")%string then set_reinit p true
  else if (data =? "ABORT_LOOP")%string then set_abort_loop p true
  else if (data =? "PRINT_DATA")%string then saveDataToFile p
  else p.

(** ** Spinning and pausing *)

(** [ros::spinOnce]: the callback runs for each message that is due. *)
Definition spinOnce (p : ViewPlanner) (due : list string) : ViewPlanner :=
  fold_left commandCallback due p.

(** The messages due at the next spin, and the script after it.  A script
    that has run out delivers nothing any more. *)
Definition next_spin (spins : list (list string))
    : list string * list (list string) :=
  match spins with
  | [] => ([], [])
  | due :: spins' => (due, spins')
  end.

(** The body of [pauseIfRequested]: sleep, spin, until [pause_] is off.
    When no message is left to come the pause never ends. *)
Fixpoint pause_loop (spins : list (list string)) (p : ViewPlanner)
    : result (ViewPlanner * list (list string)) :=
  match spins with
  | [] => Unfinished
  | due :: spins' =>
      let p := spinOnce p due in
      if pause_ p then pause_loop spins' p else Ok (p, spins')
  end.

Definition pauseIfRequested (spins : list (list string)) (p : ViewPlanner)
    : result (ViewPlanner * list (list string)) :=
  if pause_ p then pause_loop spins p else Ok (p, spins).

(** ** The data recorder *)

(** The search loop of [getIndexForAdditionalField]. *)
Fixpoint find_name (names : list string) (name : string) (i : nat)
    : option nat :=
  match names with
  | [] => None
  | n :: names' =>
      if (n =? name)%string then Some i else find_name names' name (S i)
  end.

Definition getIndexForAdditionalField (p : ViewPlanner) (name : string)
    : nat * ViewPlanner :=
  match find_name (planning_data_names_ p) name 0 with
  | Some i => (i, p)
  | None =>
      let p := set_planning_data_names p (planning_data_names_ p ++ [name]) in
      ((length (planning_data_names_ p) - 1)%nat, p)
  end.

Record ReturnValueInformation := {
  return_value : Q;
  winning_margin : Q;
  return_value_mean : Q;
  return_value_stddev : Q
}.

(** One pass of the loop over the additional fields. *)
Definition additional_field_step (names : list string) (values : list Q)
    (state : ViewPlanner * list Q) (i : nat) : ViewPlanner * list Q :=
  let '(p, nbv_data) := state in
  let '(index, p) := getIndexForAdditionalField p (nth i names ""%string) in
  let nbv_data :=
    if (length nbv_data <=? index)%nat
    then vector_resize nbv_data (index + 1)
    else nbv_data in
  (p, vector_set nbv_data index (nth i values 0)).

(** The two pointer arguments are [None] for [nullptr]. *)
Definition saveNBVData (p : ViewPlanner) (nbv_index : nat)
    (return_value_information : ReturnValueInformation) (cost : Q)
    (information_gain : list Q)
    (additional_field_names : option (list string))
    (additional_field_values : option (list Q)) : ViewPlanner :=
  let nbv := ViewSpace.getView (view_space_ p) nbv_index in
  let nbv_data :=
    [ position_x (pose nbv); position_y (pose nbv); position_z (pose nbv);
      orientation_x (pose nbv); orientation_y (pose nbv);
      orientation_z (pose nbv); orientation_w (pose nbv);
      return_value return_value_information;
      winning_margin return_value_information;
      return_value_mean return_value_information;
      return_value_stddev return_value_information;
      cost ] ++ information_gain in
  let '(p, nbv_data) :=
    match additional_field_names, additional_field_values with
    | Some names, Some values =>
        if (length names =? length values)%nat
        then fold_left (additional_field_step names values)
               (seq 0 (length names)) (p, nbv_data)
        else (p, nbv_data)
    | _, _ => (p, nbv_data)
    end in
  set_planning_data p (planning_data_ p ++ [nbv_data]).

(** ** [calculateReturn] *)

(** One pass of the accumulation loop:
    [view_return += information_weights_[i]*_informations[i]]. *)
Definition accumulate (information_weights informations : list Q)
    (view_return : Q) (i : nat) : Q :=
  view_return + nth i information_weights 0 * nth i informations 0.

(** The value returned, and the severities of what was logged on the way. *)
Definition calculateReturn (p : ViewPlanner) (cost : Q)
    (informations : list Q) : Q * list LogLevel :=
  let view_return := -1 * cost_weight_ p * cost in
  if (length (information_weights_ p) <? length informations)%nat
  then (view_return, [ROS_ERROR])
  else (fold_left (accumulate (information_weights_ p) informations)
          (seq 0 (length informations)) view_return, []).

Definition terminationCriteriaFulfilled (return_value cost : Q)
    (information_gain : list Q) : bool := false.

(** ** The service wrappers

    Each takes the variable it may write to and the reply of the call:
    [None] when the call itself failed, in which case the variable keeps
    what it held. *)

Definition movementCost (output : MovementCost) (reply : option MovementCost)
    : bool * MovementCost :=
  match reply with
  | Some received => (true, received)
  | None => (false, output)
  end.

Definition getViewInformation (output : list Q) (reply : option (list Q))
    : bool * list Q :=
  match reply with
  | Some values => (true, values)
  | None => (false, output)
  end.

(** For the two variables below, [None] is a variable not yet assigned. *)
Definition retrieveData (output : option ReceiveInfo)
    (reply : option ReceiveInfo) : bool * option ReceiveInfo :=
  match reply with
  | Some info => (true, Some info)
  | None => (false, output)
  end.

Definition moveTo (output : option bool) (reply : option bool)
    : bool * option bool :=
  match reply with
  | Some success => (true, Some success)
  | None => (false, output)
  end.

(** ** The retry helpers *)

(** How a helper ended: which of its two closing messages it logged. *)
Inductive WaitReport := reported_success | reported_abort.

(** What a helper leaves behind: the planner, the unused part of the two
    scripts, and its closing message. *)
Record Waited (R : Type) := {
  planner_after : ViewPlanner;
  replies_left : list R;
  spins_left : list (list string);
  report : WaitReport
}.

Arguments planner_after {R} _.
Arguments replies_left {R} _.
Arguments spins_left {R} _.
Arguments report {R} _.

(** [!receive_service_succeeded || receive_info!=RECEIVED].  The right
    operand is only evaluated after a call that succeeded, which assigned
    [receive_info]; the [None] branch is never taken. *)
Definition retrieval_failed (receive_service_succeeded : bool)
    (receive_info : option ReceiveInfo) : bool :=
  negb receive_service_succeeded
  || match receive_info with
     | Some info => negb (is_RECEIVED info)
     | None => true
     end.

(** [!service_succeeded || !successfully_moved], likewise. *)
Definition movement_failed (service_succeeded : bool)
    (successfully_moved : option bool) : bool :=
  negb service_succeeded
  || match successfully_moved with
     | Some moved => negb moved
     | None => true
     end.

(** The do-while loop of [retrieveDataAndWait], one reply per pass. *)
Fixpoint retrieveData_loop (replies : list (option ReceiveInfo))
    (receive_info : option ReceiveInfo) (spins : list (list string))
    (p : ViewPlanner)
    : result (ViewPlanner * list (option ReceiveInfo) * list (list string)) :=
  match replies with
  | [] => Unfinished
  | reply :: replies' =>
      let p := call_service p Call_retrieve_data in
      let '(receive_service_succeeded, receive_info) :=
        retrieveData receive_info reply in
      if retrieval_failed receive_service_succeeded receive_info
      then
        let '(due, spins') := next_spin spins in
        let p := spinOnce p due in
        if abort_loop_ p
        then Ok (p, replies', spins')
        else retrieveData_loop replies' receive_info spins' p
      else Ok (p, replies', spins)
  end.

Definition retrieveDataAndWait (replies : list (option ReceiveInfo))
    (spins : list (list string)) (p : ViewPlanner)
    : result (Waited (option ReceiveInfo)) :=
  '(p, replies, spins) <- retrieveData_loop replies None spins p ;;
  if abort_loop_ p
  then Ok {| planner_after := set_abort_loop p false;
             replies_left := replies; spins_left := spins;
             report := reported_abort |}
  else Ok {| planner_after := p;
             replies_left := replies; spins_left := spins;
             report := reported_success |}.

(** The do-while loop of [moveToAndWait]. *)
Fixpoint moveTo_loop (target_view : View) (replies : list (option bool))
    (successfully_moved : option bool) (spins : list (list string))
    (p : ViewPlanner)
    : result (ViewPlanner * list (option bool) * list (list string)) :=
  match replies with
  | [] => Unfinished
  | reply :: replies' =>
      let p := call_service p (Call_move_to target_view) in
      let '(service_succeeded, successfully_moved) :=
        moveTo successfully_moved reply in
      if movement_failed service_succeeded successfully_moved
      then
        let '(due, spins') := next_spin spins in
        let p := spinOnce p due in
        if abort_loop_ p
        then Ok (p, replies', spins')
        else moveTo_loop target_view replies' successfully_moved spins' p
      else Ok (p, replies', spins)
  end.

Definition moveToAndWait (target_view : View) (replies : list (option bool))
    (spins : list (list string)) (p : ViewPlanner)
    : result (Waited (option bool)) :=
  '(p, replies, spins) <- moveTo_loop target_view replies None spins p ;;
  if abort_loop_ p
  then Ok {| planner_after := set_abort_loop p false;
             replies_left := replies; spins_left := spins;
             report := reported_abort |}
  else Ok {| planner_after := p;
             replies_left := replies; spins_left := spins;
             report := reported_success |}.

(** ** One round of the planning loop *)

(** What the outside world supplies during one round. *)
Record RoundInputs := {
  (* the cost service's reply for the candidate at a position *)
  cost_reply : nat -> option MovementCost;
  (* what the local [cost_description] holds before the call *)
  cost_description_start : nat -> MovementCost;
  (* the information service's reply for the candidate at a position *)
  information_reply : nat -> option (list Q);
  move_replies : list (option bool);
  retrieve_replies : list (option ReceiveInfo);
  spins : list (list string)
}.

Definition determineAvailableViewSpace (p : ViewPlanner) : list nat :=
  ViewSpace.getGoodViewSpace (view_space_ p).

(** One pass of the loop that gets the movement costs.  The result of
    [movementCost] is not looked at. *)
Definition cost_step (w : RoundInputs) (views_to_consider : list nat)
    (state : ViewPlanner * list Q) (i : nat) : ViewPlanner * list Q :=
  let '(p, costs) := state in
  let cost_description := cost_description_start w i in
  let target :=
    ViewSpace.getView (view_space_ p) (nth i views_to_consider 0%nat) in
  let p := call_service p (Call_movement_cost (current_view_ p) target) in
  let '(_, cost_description) :=
    movementCost cost_description (cost_reply w i) in
  if negb (Exception_eqb (exception cost_description) NONE)
  then (set_view_space p
          (ViewSpace.setBad (view_space_ p) (nth i views_to_consider 0%nat)),
        vector_set costs i (-1))
  else (p, vector_set costs i (cost cost_description)).

Definition movement_costs (w : RoundInputs) (views_to_consider : list nat)
    (p : ViewPlanner) : ViewPlanner * list Q :=
  let n := length views_to_consider in
  fold_left (cost_step w views_to_consider) (seq 0 n) (p, repeat 0 n).

(** One pass of the loop that gets the expected information. *)
Definition information_step (w : RoundInputs) (views_to_consider : list nat)
    (costs : list Q) (state : ViewPlanner * list (list Q)) (i : nat)
    : ViewPlanner * list (list Q) :=
  let '(p, information) := state in
  if is_invalid_cost (nth i costs 0)
  then (p, information)
  else
    let target_view :=
      ViewSpace.getView (view_space_ p) (nth i views_to_consider 0%nat) in
    let p := call_service p (Call_view_information (pose target_view)) in
    let '(_, output) :=
      getViewInformation (nth i information []) (information_reply w i) in
    (p, vector_set information i output).

Definition expected_informations (w : RoundInputs)
    (views_to_consider : list nat) (costs : list Q) (p : ViewPlanner)
    : ViewPlanner * list (list Q) :=
  let n := length views_to_consider in
  fold_left (information_step w views_to_consider costs) (seq 0 n)
    (p, repeat [] n).

(** One pass of the loop that calculates the returns. *)
Definition return_step (p : ViewPlanner) (costs : list Q)
    (information : list (list Q)) (view_returns : list Q) (i : nat) : list Q :=
  if is_invalid_cost (nth i costs 0)
  then view_returns
  else vector_set view_returns i
         (fst (calculateReturn p (nth i costs 0) (nth i information []))).

Definition calculate_returns (p : ViewPlanner) (n : nat) (costs : list Q)
    (information : list (list Q)) : list Q :=
  fold_left (return_step p costs information) (seq 0 n) (repeat 0 n).

(** The locals of the scan for the next best view; [nbv_index] is [None]
    as long as it has not been assigned. *)
Record NbvScan := {
  nbv_index : option nat;
  highest_return : Q;
  second_highest : Q
}.

Definition nbv_scan_start : NbvScan :=
  {| nbv_index := None; highest_return := 0; second_highest := 0 |}.

Definition nbv_scan_step (costs view_returns : list Q) (s : NbvScan) (i : nat)
    : NbvScan :=
  if is_invalid_cost (nth i costs 0)
  then s
  else if Qgtb (nth i view_returns 0) (highest_return s)
  then {| nbv_index := Some i;
          highest_return := nth i view_returns 0;
          second_highest := highest_return s |}
  else s.

Definition nbv_scan (n : nat) (costs view_returns : list Q) : NbvScan :=
  fold_left (nbv_scan_step costs view_returns) (seq 0 n) nbv_scan_start.

Section Round.

(** [st_is::StdError] (utils/math.h) and [std::sqrt] are used by the loop
    but defined elsewhere: the mean and the variance that [StdError]
    computes of a vector, and the square root, are parameters here. *)
Variable StdError_mean : list Q -> Q.
Variable StdError_variance : list Q -> Q.
Variable sqrt : Q -> Q.

(** The block under "data storage...". *)
Definition return_information (scan : NbvScan) (view_returns : list Q)
    : ReturnValueInformation :=
  {| return_value := highest_return scan;
     winning_margin := highest_return scan - second_highest scan;
     return_value_mean := StdError_mean view_returns;
     return_value_stddev := sqrt (StdError_variance view_returns) |}.

(** The body of the do-while loop of [run].  The boolean of the result
    says whether the body left the loop through [break]. *)
Definition planning_round (w : RoundInputs) (p : ViewPlanner)
    : result (ViewPlanner * bool) :=
  '(p, spins) <- pauseIfRequested (spins w) p ;;
  let views_to_consider := determineAvailableViewSpace p in
  let n := length views_to_consider in
  let '(p, costs) := movement_costs w views_to_consider p in
  '(p, spins) <- pauseIfRequested spins p ;;
  let '(p, information) :=
    expected_informations w views_to_consider costs p in
  '(p, spins) <- pauseIfRequested spins p ;;
  let view_returns := calculate_returns p n costs information in
  let scan := nbv_scan n costs view_returns in
  let return_info := return_information scan view_returns in
  match nbv_index scan with
  | None => Undefined
  | Some nbv_index =>
      let p := saveNBVData p nbv_index return_info (nth nbv_index costs 0)
                 (nth nbv_index information []) None None in
      if terminationCriteriaFulfilled (highest_return scan)
           (nth nbv_index costs 0) (nth nbv_index information [])
      then Ok (p, true)
      else
        let nbv := ViewSpace.getView (view_space_ p) nbv_index in
        moved <- moveToAndWait nbv (move_replies w) spins p ;;
        retrieved <- retrieveDataAndWait (retrieve_replies w)
                       (spins_left moved) (planner_after moved) ;;
        let '(due, _) := next_spin (spins_left retrieved) in
        Ok (spinOnce (planner_after retrieved) due, false)
  end.

(** The loop goes from the start of one round to the start of the next
    when the body neither breaks nor finds [stop_and_print_] set. *)
Inductive next_round (p p' : ViewPlanner) : Prop :=
| next_round_intro (w : RoundInputs) :
    planning_round w p = Ok (p', false) ->
    stop_and_print_ p' = false ->
    next_round p p'.

(** [p'] is the planner at the start of the same or of a later round. *)
Definition later_round : ViewPlanner -> ViewPlanner -> Prop :=
  clos_refl_trans_1n ViewPlanner next_round.

End Round.

(** ** [getViewSpace]

    The only place where the view space is replaced; [run] calls it before
    the loop and not in it. *)
Definition getViewSpace (p : ViewPlanner) (reply : option (list View))
    : bool * ViewPlanner :=
  match reply with
  | Some received => (true, set_view_space p (ViewSpace.fromMsg received))
  | None => (false, p)
  end.

(** ** The start of [run] and its loop *)

Definition set_current_view (p : ViewPlanner) (v : View) : ViewPlanner :=
  {| start_ := start_ p; pause_ := pause_ p;
     stop_and_print_ := stop_and_print_ p;
     reinit_ := reinit_ p; abort_loop_ := abort_loop_ p;
     cost_weight_ := cost_weight_ p;
     information_weights_ := information_weights_ p;
     planning_data_names_ := planning_data_names_ p;
     planning_data_ := planning_data_ p;
     view_space_ := view_space_ p; current_view_ := v;
     written_files := written_files p; service_calls := service_calls p |}.

(** [getCurrentView(current_view_)]: the member is only written when the
    call succeeded. *)
Definition getCurrentView (p : ViewPlanner) (reply : option View)
    : bool * ViewPlanner :=
  match reply with
  | Some received => (true, set_current_view p received)
  | None => (false, p)
  end.

(** [waitAndSpin]: sleep half a second, whatever the argument, and spin. *)
Definition waitAndSpin (spins : list (list string)) (p : ViewPlanner)
    : ViewPlanner * list (list string) :=
  let '(due, spins') := next_spin spins in (spinOnce p due, spins').

(** [while( !start_ ) waitAndSpin();]  When no message is left to come the
    wait never ends. *)
Fixpoint wait_for_start (spins : list (list string)) (p : ViewPlanner)
    : result (ViewPlanner * list (list string)) :=
  match spins with
  | [] => if start_ p then Ok (p, []) else Unfinished
  | due :: spins' =>
      if start_ p then Ok (p, spins)
      else wait_for_start spins' (spinOnce p due)
  end.

(** [while( !getViewSpace() ) waitAndSpin(2);], one reply per pass.  (The
    two calls of the start are not entered in the log of requests, which
    covers the calls of the planning loop.) *)
Fixpoint wait_for_view_space (replies : list (option (list View)))
    (spins : list (list string)) (p : ViewPlanner)
    : result (ViewPlanner * list (list string)) :=
  match replies with
  | [] => Unfinished
  | reply :: replies' =>
      let '(response, p) := getViewSpace p reply in
      if response then Ok (p, spins)
      else
        let '(p, spins) := waitAndSpin spins p in
        wait_for_view_space replies' spins p
  end.

(** [while( !getCurrentView(current_view_) ) waitAndSpin(2);] *)
Fixpoint wait_for_current_view (replies : list (option View))
    (spins : list (list string)) (p : ViewPlanner)
    : result (ViewPlanner * list (list string)) :=
  match replies with
  | [] => Unfinished
  | reply :: replies' =>
      let '(response, p) := getCurrentView p reply in
      if response then Ok (p, spins)
      else
        let '(p, spins) := waitAndSpin spins p in
        wait_for_current_view replies' spins p
  end.

(** What the outside world supplies before the loop is entered. *)
Record StartInputs := {
  start_spins : list (list string);
  view_space_replies : list (option (list View));
  current_view_replies : list (option View);
  first_retrieve_replies : list (option ReceiveInfo)
}.

Section Run.

Variable StdError_mean : list Q -> Q.
Variable StdError_variance : list Q -> Q.
Variable sqrt : Q -> Q.

(** The do-while loop of [run], one [RoundInputs] per round.  The result
    holds the rounds of the script that were not entered. *)
Fixpoint planning_loop (rounds : list RoundInputs) (p : ViewPlanner)
    : result (ViewPlanner * list RoundInputs) :=
  match rounds with
  | [] => Unfinished
  | w :: rounds' =>
      '(p, broke) <- planning_round StdError_mean StdError_variance sqrt w p ;;
      if broke then Ok (p, rounds')
      else if stop_and_print_ p then Ok (p, rounds')
      else planning_loop rounds' p
  end.

(** [run]: wait for the start signal, get the view space and the current
    view, gather the initial data, loop, and save the data to file. *)
Definition run (s : StartInputs) (rounds : list RoundInputs) (p : ViewPlanner)
    : result (ViewPlanner * list RoundInputs) :=
  '(p, spins) <- wait_for_start (start_spins s) p ;;
  '(p, spins) <- wait_for_view_space (view_space_replies s) spins p ;;
  '(p, spins) <- wait_for_current_view (current_view_replies s) spins p ;;
  retrieved <- retrieveDataAndWait (first_retrieve_replies s) spins p ;;
  '(p, rounds_left) <- planning_loop rounds (planner_after retrieved) ;;
  Ok (saveDataToFile p, rounds_left).

End Run.

(** * Part II: the vocabulary of the specification *)

(** The positions of the cost-viable candidates (cost other than -1) among
    the first [n], in order. *)
Definition viable_positions (n : nat) (costs : list Q) : list nat :=
  filter (fun i => negb (is_invalid_cost (nth i costs 0))) (seq 0 n).

Definition viable_count (n : nat) (costs : list Q) : nat :=
  length (viable_positions n costs).

(** Position [k] holds a cost-viable candidate whose return is the greatest
    among the cost-viable candidates and which comes first among those that
    reach it. *)
Definition best_viable (n : nat) (costs view_returns : list Q) (k : nat)
    : Prop :=
  (k < n)%nat
  /\ is_invalid_cost (nth k costs 0) = false
  /\ forall j, (j < n)%nat -> is_invalid_cost (nth j costs 0) = false ->
       nth j view_returns 0 <= nth k view_returns 0
       /\ (nth j view_returns 0 == nth k view_returns 0 -> (k <= j)%nat).

(** The selection property as the specification states it: whenever a round
    has a cost-viable candidate the scan selects a best one. *)
Definition selects_best_viable (n : nat) (costs view_returns : list Q) : Prop :=
  (0 < viable_count n costs)%nat ->
  exists k, nbv_index (nbv_scan n costs view_returns) = Some k
            /\ best_viable n costs view_returns k.

(** The sum of the specification, weight_i * infoVector_i summed over the
    entries of the information vector. *)
Fixpoint weighted_information (weights informations : list Q)
    {struct informations} : Q :=
  match informations, weights with
  | x :: informations', w :: weights' =>
      w * x + weighted_information weights' informations'
  | _, _ => 0
  end.

(** What the specification calls the cost-only term. *)
Definition cost_only_term (cost_weight cost : Q) : Q := - (cost_weight * cost).

(** The reading of the data-model sentence on over-long information
    vectors: the entries beyond the weight vector are dropped, the leading
    ones are still credited, and the condition is reported as a warning. *)
Definition credits_leading_entries (p : ViewPlanner) (cost : Q)
    (informations : list Q) : Prop :=
  let r := calculateReturn p cost informations in
  fst r == - (cost_weight_ p * cost)
           + weighted_information (information_weights_ p)
               (firstn (length (information_weights_ p)) informations)
  /\ In ROS_WARN (snd r).


(** The value a written file shows for a row under a column name: [None]
    when the name is no column or the row's line ends before that column. *)
Definition table_cell (file : DataFile) (row : nat) (name : string)
    : option Q :=
  match find_name (name_line file) name 0 with
  | Some column => nth_error (nth row (value_lines file) []) column
  | None => None
  end.

(** The file a flush of the recorder writes. *)
Definition flushed_table (p : ViewPlanner) : DataFile :=
  last (written_files (saveDataToFile p))
       {| name_line := []; value_lines := [] |}.

(** The flags the command state machine is about, in the order started,
    paused, stop requested, reinit requested, abort requested. *)
Definition control_flags (p : ViewPlanner)
    : bool * bool * bool * bool * bool :=
  (start_ p, pause_ p, stop_and_print_ p, reinit_ p, abort_loop_ p).

(** Everything of the planner that is neither a control flag nor the list of
    written files. *)
Definition planner_data (p : ViewPlanner) :=
  (cost_weight_ p, information_weights_ p, planning_data_names_ p,
   planning_data_ p, view_space_ p, current_view_ p, service_calls p).

Definition command_tokens : list string :=
  [ "START"; "PAUSE"; "STOP_AND_PRINT"; "REINIT"; "ABORT_LOOP";
    "PRINT_DATA" ]%string.

(** A reply that makes a retry helper try again. *)
Definition retrieval_reply_fails (reply : option ReceiveInfo) : Prop :=
  match reply with
  | Some RECEIVED => False
  | _ => True
  end.

Definition move_reply_fails (reply : option bool) : Prop :=
  match reply with
  | Some true => False
  | _ => True
  end.

(** A spin that delivers no abort request. *)
Definition quiet (due : list string) : Prop := ~ In "ABORT_LOOP"%string due.

(** The planner of the examples: cost weight 1, weight 2 for the first
    metric and no weight configured for the others, a given view space. *)
Definition example_weight (metric_name : string) : option Q :=
  if (metric_name =? "NrOfUnknownVoxels")%string then Some 2 else None.

Definition example_view (id : nat) : View :=
  {| view_id := id; pose := origin_pose |}.

Definition example_planner (views : list View) : ViewPlanner :=
  set_view_space (new_ViewPlanner (Some 1) example_weight)
    (ViewSpace.fromMsg views).

(** The return the loop stores for position [i]: the entry stays at its
    initial zero for an excluded candidate. *)
Definition stored_return (p : ViewPlanner) (costs : list Q)
    (information : list (list Q)) (i : nat) : Q :=
  if is_invalid_cost (nth i costs 0)
  then 0
  else fst (calculateReturn p (nth i costs 0) (nth i information [])).

(** The planner as the constructor leaves it when no parameter is
    configured (cost weight 1, every metric weight 0), with one view. *)
Definition default_planner : ViewPlanner :=
  set_view_space (new_ViewPlanner None (fun _ => None))
    (ViewSpace.fromMsg [example_view 0]).

(** A round in which every service answers at once and favourably: cost 1
    without exception, one information value, the move done, the data
    received, and no command on the way. *)
Definition calm_inputs : RoundInputs :=
  {| cost_reply := fun _ => Some {| cost := 1; exception := NONE |};
     cost_description_start := fun _ => {| cost := 0; exception := NONE |};
     information_reply := fun _ => Some [3];
     move_replies := [Some true];
     retrieve_replies := [Some RECEIVED];
     spins := [] |}.

(** The three properties of a retry helper.  [helper] runs on a script of
    replies and a script of spins; [fails] tells the replies that make it
    try again, [ok] is the reply it waits for and [call] the request it
    sends at each attempt. *)
Section RetryProperties.
Variable R : Type.
Variable helper :
  list R -> list (list string) -> ViewPlanner -> result (Waited R).
Variable fails : R -> Prop.
Variable ok : R.
Variable call : ServiceCall.

(** After N failing replies and one good one, with no abort request before
    or during the wait: N+1 requests, the success message, nothing more
    taken from the script. *)
Definition retries_until_success : Prop :=
  forall (failures rest : list R) (spins : list (list string))
         (p : ViewPlanner),
    Forall fails failures ->
    abort_loop_ p = false ->
    Forall quiet (firstn (length failures) spins) ->
    exists r,
      helper (failures ++ ok :: rest) spins p = Ok r
      /\ report r = reported_success
      /\ replies_left r = rest
      /\ service_calls (planner_after r)
         = service_calls p ++ repeat call (length failures + 1)
      /\ abort_loop_ (planner_after r) = false.

(** An abort request that arrives in the spin after the k-th failing
    attempt: k requests in all, the abort message, the flag cleared, and
    whatever else the services would have replied left untouched. *)
Definition stops_on_abort : Prop :=
  forall (failures rest : list R) (failure : R)
         (calm : list (list string)) (due : list string)
         (later : list (list string)) (p : ViewPlanner),
    Forall fails (failures ++ [failure]) ->
    abort_loop_ p = false ->
    length calm = length failures ->
    Forall quiet calm ->
    In "ABORT_LOOP"%string due ->
    exists r,
      helper ((failures ++ [failure]) ++ rest) (calm ++ due :: later) p = Ok r
      /\ report r = reported_abort
      /\ replies_left r = rest
      /\ spins_left r = later
      /\ service_calls (planner_after r)
         = service_calls p ++ repeat call (length failures + 1)
      /\ abort_loop_ (planner_after r) = false.

(** However the helper returns, the abort flag is off afterwards. *)
Definition leaves_abort_cleared : Prop :=
  forall (replies : list R) (spins : list (list string)) (p : ViewPlanner)
         (r : Waited R),
    helper replies spins p = Ok r -> abort_loop_ (planner_after r) = false.

End RetryProperties.

(** What [cost_description] holds after the call for the candidate at
    position [i]. *)
Definition cost_description_after (w : RoundInputs) (i : nat) : MovementCost :=
  snd (movementCost (cost_description_start w i) (cost_reply w i)).

(** The test of the loop on it. *)
Definition cost_exception (w : RoundInputs) (i : nat) : bool :=
  negb (Exception_eqb (exception (cost_description_after w i)) NONE).

(** What the specification asks of one cost evaluation: a call that fails
    or reports an exception gets the candidate marked bad and the cost -1. *)
Definition failed_cost_excludes (w : RoundInputs) (p : ViewPlanner) (i : nat)
    : Prop :=
  let views_to_consider := determineAvailableViewSpace p in
  let after := movement_costs w views_to_consider p in
  match cost_reply w i with
  | Some {| cost := _; exception := NONE |} => True
  | _ =>
      ViewSpace.isBad (view_space_ (fst after)) (nth i views_to_consider 0%nat)
      = true
      /\ nth i (snd after) 0 == -1
  end.

(** A round in which the cost service does not answer, while the local
    [cost_description] happens to hold cost 7 and no exception. *)
Definition unanswered_cost_inputs : RoundInputs :=
  {| cost_reply := fun _ => None;
     cost_description_start := fun _ => {| cost := 7; exception := NONE |};
     information_reply := fun _ => Some [3];
     move_replies := [Some true];
     retrieve_replies := [Some RECEIVED];
     spins := [] |}.

(** The parts of the planner that no step of the cost loop changes. *)
Definition outside_cost_loop (p : ViewPlanner) :=
  (control_flags p, cost_weight_ p, information_weights_ p,
   planning_data_names_ p, planning_data_ p, current_view_ p,
   written_files p).

(** What holds after the first [k] passes of the cost loop that started
    from planner [p]. *)
Definition cost_loop_invariant (w : RoundInputs) (p : ViewPlanner)
    (views_to_consider : list nat) (k : nat) (state : ViewPlanner * list Q)
    : Prop :=
  let '(p', costs) := state in
  length costs = length views_to_consider
  /\ length (view_space_ p') = length (view_space_ p)
  /\ outside_cost_loop p' = outside_cost_loop p
  /\ (forall index,
        ViewSpace.getView (view_space_ p') index
        = ViewSpace.getView (view_space_ p) index)
  /\ service_calls p'
     = service_calls p
       ++ map (fun i => Call_movement_cost (current_view_ p)
                          (ViewSpace.getView (view_space_ p)
                             (nth i views_to_consider 0%nat)))
            (seq 0 k)
  /\ (forall i, (i < k)%nat ->
        nth i costs 0
        = if cost_exception w i then -1 else cost (cost_description_after w i))
  /\ (forall index,
        ViewSpace.isBad (view_space_ p') index = true
        <-> ViewSpace.isBad (view_space_ p) index = true
            \/ exists i, (i < k)%nat /\ index = nth i views_to_consider 0%nat
                         /\ cost_exception w i = true).

(** A round like [calm_inputs] in which the cost service reports the first
    candidate unreachable. *)
Definition one_exception_inputs : RoundInputs :=
  {| cost_reply := fun i =>
       match i with
       | O => Some {| cost := 0; exception := UNREACHABLE |}
       | _ => Some {| cost := 1; exception := NONE |}
       end;
     cost_description_start := fun _ => {| cost := 0; exception := NONE |};
     information_reply := fun _ => Some [3];
     move_replies := [Some true];
     retrieve_replies := [Some RECEIVED];
     spins := [] |}.

(** The planner a round leaves, for the examples (the planner itself where
    the round does not return). *)
Definition after_round (w : RoundInputs) (p : ViewPlanner) : ViewPlanner :=
  match planning_round (fun _ => 0) (fun _ => 0) (fun x => x) w p with
  | Ok (p', _) => p'
  | _ => p
  end.

(** The value a row gets written at a column by the loop over the
    additional fields: the row is filled up with zeros as far as needed. *)
Definition written_row (nbv_data : list Q) (index : nat) (value : Q) : list Q :=
  vector_set
    (if (length nbv_data <=? index)%nat
     then vector_resize nbv_data (index + 1)
     else nbv_data)
    index value.

(** A row of a written file shows a value equal to [q] under a name. *)
Definition cell_is (file : DataFile) (row : nat) (name : string) (q : Q)
    : Prop :=
  exists value, table_cell file row name = Some value /\ value == q.

(** The three names are columns of the file, in this order. *)
Definition columns_in_order (file : DataFile) (A B C : string) : Prop :=
  exists a b c,
    find_name (name_line file) A 0 = Some a
    /\ find_name (name_line file) B 0 = Some b
    /\ find_name (name_line file) C 0 = Some c
    /\ (a < b < c)%nat.

(** The back-fill property as the specification states it, for a file
    whose rows number [first] and [second] were recorded with the extra
    fields A, B and A, C. *)
Definition backfilled (file : DataFile) (first second : nat)
    (A B C : string) : Prop :=
  columns_in_order file A B C
  /\ cell_is file first C 0
  /\ cell_is file second B 0.

(** Recording two rows with extra fields and flushing. *)
Definition record_two_rows (p : ViewPlanner) (A B C : string)
    (a b a' c : Q)
    (nbv_index1 : nat) (summary1 : ReturnValueInformation) (cost1 : Q)
    (information_gain1 : list Q)
    (nbv_index2 : nat) (summary2 : ReturnValueInformation) (cost2 : Q)
    (information_gain2 : list Q) : DataFile :=
  let p1 := saveNBVData p nbv_index1 summary1 cost1 information_gain1
              (Some [A; B]) (Some [a; b]) in
  let p2 := saveNBVData p1 nbv_index2 summary2 cost2 information_gain2
              (Some [A; C]) (Some [a'; c]) in
  flushed_table p2.

Definition example_summary : ReturnValueInformation :=
  {| return_value := 5; winning_margin := 5;
     return_value_mean := 5; return_value_stddev := 0 |}.

Definition example_table : DataFile :=
  record_two_rows (example_planner [example_view 0]) "A" "B" "C" 10 20 11 30
    0 example_summary 1 [1; 2; 3; 4; 5; 6; 7; 8; 9]
    0 example_summary 1 [1; 2; 3; 4; 5; 6; 7; 8; 9].

(** The row [saveNBVData] starts from, before the additional fields. *)
Definition plain_row (p : ViewPlanner) (nbv_index : nat)
    (summary : ReturnValueInformation) (cost : Q) (information_gain : list Q)
    : list Q :=
  let nbv := ViewSpace.getView (view_space_ p) nbv_index in
  [ position_x (pose nbv); position_y (pose nbv); position_z (pose nbv);
    orientation_x (pose nbv); orientation_y (pose nbv);
    orientation_z (pose nbv); orientation_w (pose nbv);
    return_value summary; winning_margin summary;
    return_value_mean summary; return_value_stddev summary;
    cost ] ++ information_gain.

(** Everything of the planner but the log of requests. *)
Definition without_calls (p : ViewPlanner) :=
  (control_flags p, cost_weight_ p, information_weights_ p,
   planning_data_names_ p, planning_data_ p, view_space_ p,
   current_view_ p, written_files p).

(** What neither a command nor a retry helper changes. *)
Definition planner_core (p : ViewPlanner) :=
  (cost_weight_ p, information_weights_ p, planning_data_names_ p,
   planning_data_ p, view_space_ p, current_view_ p).

(** The information vector the loop holds for position [i] after the
    information phase: empty for an excluded candidate and for a candidate
    whose call failed. *)
Definition stored_information (w : RoundInputs) (costs : list Q) (i : nat)
    : list Q :=
  if is_invalid_cost (nth i costs 0)
  then []
  else match information_reply w i with
       | Some values => values
       | None => []
       end.

(** The vector [cost] of a round with [n] candidates, as the replies of the
    cost service determine it: -1 where the loop saw an exception. *)
Definition round_costs (w : RoundInputs) (n : nat) : list Q :=
  map (fun i => if cost_exception w i
                then -1
                else cost (cost_description_after w i))
      (seq 0 n).

(** The vector [information] of that round. *)
Definition round_information (w : RoundInputs) (n : nat) : list (list Q) :=
  map (stored_information w (round_costs w n)) (seq 0 n).

(** The vector [view_returns] of the round that starts from planner [p]:
    the loop that calculates the returns, run on the round's costs and
    information. *)
Definition round_returns (w : RoundInputs) (p : ViewPlanner) : list Q :=
  let n := length (determineAvailableViewSpace p) in
  calculate_returns p n (round_costs w n) (round_information w n).

(** The locals of the round's scan when it has gone through. *)
Definition round_scan (w : RoundInputs) (p : ViewPlanner) : NbvScan :=
  let n := length (determineAvailableViewSpace p) in
  nbv_scan n (round_costs w n) (round_returns w p).

(** The row a round has recorded: the last row of the planner it leaves. *)
Definition recorded_row (p' : ViewPlanner) : list Q :=
  last (planning_data_ p') [].

(** The winning-margin property as the specification states it, for the
    round that starts from planner [p] with the inputs [w]: the margin the
    round records, the ninth value of its row, is not negative, and it is 0
    when fewer than two candidates of the round are cost-viable. *)
Definition recorded_margin_nonnegative_and_zero_below_two
    (StdError_mean StdError_variance : list Q -> Q) (sqrt : Q -> Q)
    (w : RoundInputs) (p : ViewPlanner) : Prop :=
  forall p' broke,
    planning_round StdError_mean StdError_variance sqrt w p
    = Ok (p', broke) ->
    let n := length (determineAvailableViewSpace p) in
    0 <= nth 8 (recorded_row p') 0
    /\ ((viable_count n (round_costs w n) < 2)%nat ->
          nth 8 (recorded_row p') 0 == 0).

(** ** Vocabulary for the further properties *)


(** Everything of the planner but the column names. *)
Definition without_names (p : ViewPlanner) :=
  (control_flags p, cost_weight_ p, information_weights_ p,
   planning_data_ p, view_space_ p, current_view_ p,
   written_files p, service_calls p).

(** The loop of [saveNBVData] over the additional fields, from a planner
    and the row built so far. *)
Definition record_fields (names : list string) (values : list Q)
    (p : ViewPlanner) (nbv_data : list Q) : ViewPlanner * list Q :=
  fold_left (additional_field_step names values) (seq 0 (length names))
    (p, nbv_data).

(** No recorded row is longer than the line of names. *)
Definition rows_fit_names (p : ViewPlanner) : Prop :=
  Forall (fun row => (length row <= length (planning_data_names_ p))%nat)
         (planning_data_ p).

(** The flags a command can set and the loop never writes. *)
Definition run_flags (p : ViewPlanner) : bool * bool * bool * bool :=
  (start_ p, pause_ p, stop_and_print_ p, reinit_ p).

(** The messages the first [j] spins of a script deliver, in order. *)
Definition delivered (j : nat) (spins : list (list string)) : list string :=
  concat (firstn j spins).

(** A spin that brings neither a start nor a stop command. *)
Definition holds_pause (due : list string) : Prop :=
  ~ In "START"%string due /\ ~ In "STOP_AND_PRINT"%string due.

(** At most one of the flags started, paused and stop requested is set. *)
Definition one_mode_at_most (p : ViewPlanner) : Prop :=
  start_ p && pause_ p = false
  /\ start_ p && stop_and_print_ p = false
  /\ pause_ p && stop_and_print_ p = false.

(** The account of a retry helper that has returned: the replies it used up
    and left, the spins it took, what it changed and what its closing
    message says. *)
Section RetryAccount.
Variable R : Type.
Variable fails : R -> Prop.
Variable ok : R.
Variable call : ServiceCall.
Variable replies : list R.
Variable spins : list (list string).
Variable p : ViewPlanner.
Variable r : Waited R.

Definition retry_account : Prop :=
  exists (consumed : list R) (j : nat),
    replies = consumed ++ replies_left r
    /\ consumed <> []
    /\ spins_left r = skipn j spins
    /\ planner_core (planner_after r) = planner_core p
    /\ service_calls (planner_after r)
       = service_calls p ++ repeat call (length consumed)
    /\ run_flags (planner_after r)
       = run_flags (spinOnce p (delivered j spins))
    /\ abort_loop_ (planner_after r) = false
    /\ (report r = reported_success ->
          abort_loop_ p = false
          /\ exists failures,
               consumed = failures ++ [ok] /\ Forall fails failures)
    /\ (abort_loop_ p = true ->
          report r = reported_abort /\ length consumed = 1%nat).

End RetryAccount.

(** The first reply of a script that brings a value: the one at position
    [i], every earlier reply being a failure. *)
Definition first_reply {A : Type} (replies : list (option A)) (i : nat)
    (a : A) : Prop :=
  nth_error replies i = Some (Some a)
  /\ forall i', (i' < i)%nat -> nth_error replies i' = Some None.

(** The weights and the column names of a planner. *)
Definition settings (p : ViewPlanner) :=
  (cost_weight_ p, information_weights_ p, planning_data_names_ p).

(** The table as [saveDataToFile] would write it. *)
Definition table_file (p : ViewPlanner) : DataFile :=
  {| name_line := planning_data_names_ p; value_lines := planning_data_ p |}.

(** A start in which every service answers at once and the start command
    is the first message. *)
Definition calm_start (views : list View) : StartInputs :=
  {| start_spins := [["START"%string]];
     view_space_replies := [None; Some views];
     current_view_replies := [None; None; Some (example_view 7)];
     first_retrieve_replies := [Some RECEIVED] |}.

(** A round like [calm_inputs] whose last spin delivers the stop command. *)
Definition stopping_inputs : RoundInputs :=
  {| cost_reply := cost_reply calm_inputs;
     cost_description_start := cost_description_start calm_inputs;
     information_reply := information_reply calm_inputs;
     move_replies := move_replies calm_inputs;
     retrieve_replies := retrieve_replies calm_inputs;
     spins := [["STOP_AND_PRINT"%string]] |}.

(** The planner after the loop, resp. after [run], in the examples, where
    the mean and the variance are taken as 0. *)
Definition after_loop (rounds : list RoundInputs) (p : ViewPlanner)
    : ViewPlanner :=
  match planning_loop (fun _ => 0) (fun _ => 0) (fun x => x) rounds p with
  | Ok (p', _) => p'
  | _ => p
  end.

Definition after_run (s : StartInputs) (rounds : list RoundInputs)
    (p : ViewPlanner) : ViewPlanner :=
  match run (fun _ => 0) (fun _ => 0) (fun x => x) s rounds p with
  | Ok (p', _) => p'
  | _ => p
  end.

(** * Part III: proofs *)

(** ** Comparisons and vectors *)

Lemma Qgtb_true (a b : Q) : Qgtb a b = true <-> b < a.
Proof.
  unfold Qgtb. rewrite negb_true_iff. split; intro H.
  - apply Qnot_le_lt. intro L. apply Qle_bool_iff in L. congruence.
  - destruct (Qle_bool a b) eqn:E; [|reflexivity].
    apply Qle_bool_iff in E. exfalso. apply (Qlt_not_le _ _ H E).
Qed.

Lemma Qgtb_false (a b : Q) : Qgtb a b = false <-> a <= b.
Proof.
  unfold Qgtb. rewrite negb_false_iff. apply Qle_bool_iff.
Qed.

(** The invariant rule for a counting loop [for (i = 0; i < n; ++i)]. *)
Lemma for_loop_invariant {S : Type} (body : S -> nat -> S) (n : nat)
    (P : nat -> S -> Prop) (init : S) :
  P 0%nat init ->
  (forall i s, (i < n)%nat -> P i s -> P (Datatypes.S i) (body s i)) ->
  P n (fold_left body (seq 0 n) init).
Proof.
  intros H0 Hstep. induction n as [|n IH].
  - exact H0.
  - rewrite seq_S, fold_left_app. cbn [fold_left Nat.add].
    apply Hstep; [lia|]. apply IH. intros i s Hi. apply Hstep. lia.
Qed.

Lemma vector_set_length {A : Type} (v : list A) (i : nat) (x : A) :
  length (vector_set v i x) = length v.
Proof.
  revert i. induction v as [|h t IH]; intros [|j]; cbn; auto.
Qed.

Lemma vector_set_nth_error_same {A : Type} (v : list A) (i : nat) (x : A) :
  (i < length v)%nat -> nth_error (vector_set v i x) i = Some x.
Proof.
  revert i. induction v as [|h t IH]; intros [|j] H; cbn in *; try lia; auto.
  apply IH. lia.
Qed.

Lemma vector_set_nth_error_other {A : Type} (v : list A) (i j : nat) (x : A) :
  i <> j -> nth_error (vector_set v i x) j = nth_error v j.
Proof.
  revert i j. induction v as [|h t IH]; intros [|i] [|j] H; cbn; auto.
  congruence.
Qed.

Lemma vector_set_nth_same {A : Type} (v : list A) (i : nat) (x d : A) :
  (i < length v)%nat -> nth i (vector_set v i x) d = x.
Proof.
  intro H. apply nth_error_nth. apply vector_set_nth_error_same, H.
Qed.

Lemma vector_set_nth_other {A : Type} (v : list A) (i j : nat) (x d : A) :
  i <> j -> nth j (vector_set v i x) d = nth j v d.
Proof.
  revert i j. induction v as [|h t IH]; intros [|i] [|j] H; cbn; auto.
  congruence.
Qed.

(** ** [calculateReturn] *)

Lemma fold_accumulate_shift (w x : Q) (ws xs : list Q) (l : list nat) (acc : Q) :
  fold_left (accumulate (w :: ws) (x :: xs)) (map S l) acc
  = fold_left (accumulate ws xs) l acc.
Proof.
  revert acc. induction l as [|i l IH]; intro acc; simpl; [reflexivity|].
  apply IH.
Qed.

Lemma fold_accumulate_sum (xs ws : list Q) (acc : Q) :
  (length xs <= length ws)%nat ->
  fold_left (accumulate ws xs) (seq 0 (length xs)) acc
  == acc + weighted_information ws xs.
Proof.
  revert ws acc. induction xs as [|x xs IH]; intros ws acc Hlen.
  - cbn [length seq fold_left weighted_information]. ring.
  - destruct ws as [|w ws]; [simpl in Hlen; lia|].
    simpl in Hlen.
    cbn [length seq fold_left]. rewrite <- seq_shift.
    rewrite fold_accumulate_shift.
    rewrite IH by lia.
    unfold accumulate. cbn [nth weighted_information]. ring.
Qed.

(** C5: the return is the cost term plus the weighted information when the
    information vector is at most as long as the weight vector, and the cost
    term alone when the information vector is strictly longer. *)
Theorem calculateReturn_formula :
  forall (p : ViewPlanner) (cost : Q) (informations : list Q),
    ((length informations <= length (information_weights_ p))%nat ->
       fst (calculateReturn p cost informations)
       == - (cost_weight_ p * cost)
          + weighted_information (information_weights_ p) informations)
    /\
    ((length (information_weights_ p) < length informations)%nat ->
       fst (calculateReturn p cost informations)
       == cost_only_term (cost_weight_ p) cost).
Proof.
  intros p c xs. unfold calculateReturn, cost_only_term. split; intro H.
  - destruct (Nat.ltb_spec (length (information_weights_ p)) (length xs))
      as [L|L]; [lia|].
    cbn [fst]. rewrite fold_accumulate_sum by assumption. ring.
  - destruct (Nat.ltb_spec (length (information_weights_ p)) (length xs))
      as [L|L]; [|lia].
    cbn [fst]. ring.
Qed.

Lemma calculateReturn_formula_witness :
  fst (calculateReturn (example_planner []) 1 [5])
  == - (cost_weight_ (example_planner []) * 1)
     + weighted_information (information_weights_ (example_planner [])) [5]
  /\ fst (calculateReturn (example_planner []) 1 [1; 2; 3; 4; 5; 6; 7; 8; 9; 10])
     == cost_only_term (cost_weight_ (example_planner [])) 1.
Proof.
  split.
  - apply (proj1 (calculateReturn_formula (example_planner []) 1 [5])).
    simpl. lia.
  - apply (proj2 (calculateReturn_formula (example_planner []) 1
                    [1; 2; 3; 4; 5; 6; 7; 8; 9; 10])).
    simpl. lia.
Defined.

(** C9, refuted as stated: with cost weight 1, the nine metric weights
    2, 0, ..., 0, cost 1 and ten information values starting with 5, the
    leading entries would be credited to give 9; the code returns -1 and
    logs an error. *)
Lemma calculateReturn_longer_counterexample :
  ~ credits_leading_entries (example_planner []) 1
      [5; 1; 1; 1; 1; 1; 1; 1; 1; 7].
Proof.
  unfold credits_leading_entries. intros [H _]. vm_compute in H. discriminate H.
Qed.

(** C9, as the code has it: an information vector longer than the weight
    vector is credited nothing at all; the cost-only term is returned and one
    error-level message is logged. *)
Theorem calculateReturn_longer_cost_only :
  forall (p : ViewPlanner) (cost : Q) (informations : list Q),
    (length (information_weights_ p) < length informations)%nat ->
    fst (calculateReturn p cost informations)
      == cost_only_term (cost_weight_ p) cost
    /\ snd (calculateReturn p cost informations) = [ROS_ERROR].
Proof.
  intros p c xs H. unfold calculateReturn, cost_only_term.
  destruct (Nat.ltb_spec (length (information_weights_ p)) (length xs))
    as [L|L]; [|lia].
  cbn [fst snd]. split; [ring|reflexivity].
Qed.

Lemma calculateReturn_longer_cost_only_witness :
  fst (calculateReturn (example_planner []) 1 [5; 1; 1; 1; 1; 1; 1; 1; 1; 7])
    == cost_only_term (cost_weight_ (example_planner [])) 1
  /\ snd (calculateReturn (example_planner []) 1
            [5; 1; 1; 1; 1; 1; 1; 1; 1; 7]) = [ROS_ERROR].
Proof.
  apply (calculateReturn_longer_cost_only (example_planner []) 1
           [5; 1; 1; 1; 1; 1; 1; 1; 1; 7]).
  simpl. lia.
Defined.

(** ** The returns of a round and the scan for the next best view *)

Lemma calculate_returns_spec (p : ViewPlanner) (n : nat) (costs : list Q)
    (information : list (list Q)) :
  length (calculate_returns p n costs information) = n
  /\ forall i, (i < n)%nat ->
       nth i (calculate_returns p n costs information) 0
       = stored_return p costs information i.
Proof.
  unfold calculate_returns.
  pose (P := fun (k : nat) (v : list Q) =>
    length v = n
    /\ (forall i, (i < k)%nat -> nth i v 0 = stored_return p costs information i)
    /\ (forall i, (k <= i)%nat -> nth i v 0 = 0)).
  assert (H : P n (fold_left (return_step p costs information) (seq 0 n)
                     (repeat 0 n))).
  { apply for_loop_invariant; unfold P.
    - split; [apply repeat_length|]. split; [intros; lia|].
      intros i _. apply nth_repeat.
    - intros k v Hk (Hlen & Hlow & Hhigh). unfold return_step.
      destruct (is_invalid_cost (nth k costs 0)) eqn:E.
      + split; [assumption|]. split.
        * intros i Hi. destruct (Nat.eq_dec i k) as [->|Hne].
          -- rewrite Hhigh by lia. unfold stored_return. now rewrite E.
          -- apply Hlow. lia.
        * intros i Hi. apply Hhigh. lia.
      + split; [now rewrite vector_set_length|]. split.
        * intros i Hi. destruct (Nat.eq_dec i k) as [->|Hne].
          -- rewrite vector_set_nth_same by lia.
             unfold stored_return. now rewrite E.
          -- rewrite vector_set_nth_other by congruence. apply Hlow. lia.
        * intros i Hi. rewrite vector_set_nth_other by lia. apply Hhigh. lia. }
  destruct H as (Hlen & Hlow & _). split; assumption.
Qed.

(** What the scan has established after looking at the first [k]
    positions. *)
Lemma nbv_scan_invariant (n : nat) (costs view_returns : list Q) :
  let s := nbv_scan n costs view_returns in
  0 <= second_highest s
  /\ second_highest s <= highest_return s
  /\ (forall j, (j < n)%nat -> is_invalid_cost (nth j costs 0) = false ->
        nth j view_returns 0 <= highest_return s)
  /\ match nbv_index s with
     | None => s = nbv_scan_start
     | Some b =>
         (b < n)%nat
         /\ is_invalid_cost (nth b costs 0) = false
         /\ highest_return s = nth b view_returns 0
         /\ 0 < nth b view_returns 0
         /\ forall j, (j < b)%nat -> is_invalid_cost (nth j costs 0) = false ->
              nth j view_returns 0 < nth b view_returns 0
     end.
Proof.
  unfold nbv_scan.
  apply (for_loop_invariant (nbv_scan_step costs view_returns) n
    (fun k s =>
       0 <= second_highest s
       /\ second_highest s <= highest_return s
       /\ (forall j, (j < k)%nat -> is_invalid_cost (nth j costs 0) = false ->
             nth j view_returns 0 <= highest_return s)
       /\ match nbv_index s with
          | None => s = nbv_scan_start
          | Some b =>
              (b < k)%nat
              /\ is_invalid_cost (nth b costs 0) = false
              /\ highest_return s = nth b view_returns 0
              /\ 0 < nth b view_returns 0
              /\ forall j, (j < b)%nat ->
                   is_invalid_cost (nth j costs 0) = false ->
                   nth j view_returns 0 < nth b view_returns 0
          end)).
  - cbn. repeat split; try apply Qle_refl. intros; lia.
  - intros k s Hk (H0 & Hsh & Hle & Hidx). unfold nbv_scan_step.
    destruct (is_invalid_cost (nth k costs 0)) eqn:Ek.
    + repeat split; try assumption.
      * intros j Hj Hv. destruct (Nat.eq_dec j k) as [->|Hne]; [congruence|].
        apply Hle; [lia|assumption].
      * destruct (nbv_index s) as [b|]; [|assumption].
        destruct Hidx as (Hb & Hrest). split; [lia|assumption].
    + destruct (Qgtb (nth k view_returns 0) (highest_return s)) eqn:Eg.
      * apply Qgtb_true in Eg. cbn [second_highest highest_return nbv_index].
        assert (H0h : 0 <= highest_return s) by (eapply Qle_trans; eassumption).
        repeat split.
        -- assumption.
        -- apply Qlt_le_weak, Eg.
        -- intros j Hj Hv. destruct (Nat.eq_dec j k) as [->|Hne].
           ++ apply Qle_refl.
           ++ apply Qlt_le_weak. eapply Qle_lt_trans; [|exact Eg].
              apply Hle; [lia|assumption].
        -- lia.
        -- assumption.
        -- eapply Qle_lt_trans; eassumption.
        -- intros j Hj Hv. eapply Qle_lt_trans; [|exact Eg].
           apply Hle; assumption.
      * apply Qgtb_false in Eg. repeat split; try assumption.
        -- intros j Hj Hv. destruct (Nat.eq_dec j k) as [->|Hne]; [assumption|].
           apply Hle; [lia|assumption].
        -- destruct (nbv_index s) as [b|]; [|assumption].
           destruct Hidx as (Hb & Hrest). split; [lia|assumption].
Qed.

(** The scan only looks at the cost-viable positions. *)
Lemma nbv_scan_over_viable (n : nat) (costs view_returns : list Q) :
  nbv_scan n costs view_returns
  = fold_left (nbv_scan_step costs view_returns) (viable_positions n costs)
      nbv_scan_start.
Proof.
  unfold nbv_scan, viable_positions.
  generalize nbv_scan_start. generalize (seq 0 n).
  induction l as [|i l IH]; intro s; [reflexivity|].
  cbn [fold_left filter].
  destruct (is_invalid_cost (nth i costs 0)) eqn:E; cbn [negb].
  - unfold nbv_scan_step at 2. rewrite E. apply IH.
  - cbn [fold_left]. apply IH.
Qed.

Lemma viable_positions_spec (n : nat) (costs : list Q) (i : nat) :
  In i (viable_positions n costs)
  <-> (i < n)%nat /\ is_invalid_cost (nth i costs 0) = false.
Proof.
  unfold viable_positions. rewrite filter_In, in_seq, negb_true_iff.
  intuition lia.
Qed.

(** X1: where the scan selects a position, that position holds a
    cost-viable candidate whose return is the greatest among the cost-viable
    candidates, and the first of those that reach it. *)
Lemma nbv_scan_selected_is_best (n : nat) (costs view_returns : list Q) (k : nat) :
  nbv_index (nbv_scan n costs view_returns) = Some k ->
  best_viable n costs view_returns k.
Proof.
  intro Hk. pose proof (nbv_scan_invariant n costs view_returns) as H.
  cbv zeta in H. rewrite Hk in H.
  destruct H as (_ & _ & Hle & Hn & Hv & Heq & _ & Hfirst).
  split; [assumption|]. split; [assumption|].
  intros j Hj Hvj. rewrite <- Heq. split; [apply Hle; assumption|].
  intro E. destruct (Nat.lt_ge_cases j k) as [Hlt|Hge]; [|assumption].
  specialize (Hfirst j Hlt Hvj). rewrite <- Heq in Hfirst.
  rewrite E in Hfirst. exfalso. apply (Qlt_irrefl _ Hfirst).
Qed.

(** X2: the scan selects a position exactly when some cost-viable
    candidate has a return above zero. *)
Lemma nbv_scan_selects_iff_positive (n : nat) (costs view_returns : list Q) :
  (exists k, nbv_index (nbv_scan n costs view_returns) = Some k)
  <-> (exists j, (j < n)%nat /\ is_invalid_cost (nth j costs 0) = false
                 /\ 0 < nth j view_returns 0).
Proof.
  pose proof (nbv_scan_invariant n costs view_returns) as H. cbv zeta in H.
  destruct H as (_ & _ & Hle & Hidx). split.
  - intros [k Hk]. rewrite Hk in Hidx.
    destruct Hidx as (Hn & Hv & _ & Hpos & _). exists k. auto.
  - intros (j & Hj & Hv & Hpos).
    destruct (nbv_index (nbv_scan n costs view_returns)) as [b|] eqn:E.
    + exists b. reflexivity.
    + exfalso. specialize (Hle j Hj Hv). rewrite Hidx in Hle.
      cbn in Hle. apply (Qlt_not_le _ _ Hpos Hle).
Qed.

(** ** Selection, winning margin and statistics of a round *)

(** C1, evaluated where the code falls short of it.  The planner has the
    constructor's defaults (cost weight 1, every metric weight 0) and one
    candidate of cost 1: the candidate is cost-viable and its return is -1.
    The scan starts its best return at 0, never sees a return above it and
    leaves [nbv_index] unassigned, so no best candidate is selected and the
    round goes on with an unassigned index. *)
Theorem nbv_scan_ignores_nonpositive_returns :
  let p := default_planner in
  let costs := [1] in
  let information := [[3]] in
  let view_returns := calculate_returns p 1 costs information in
  viable_positions 1 costs = [0%nat]
  /\ nth 0 view_returns 0 == -1
  /\ nbv_index (nbv_scan 1 costs view_returns) = None
  /\ highest_return (nbv_scan 1 costs view_returns) == 0
  /\ ~ selects_best_viable 1 costs view_returns
  /\ forall StdError_mean StdError_variance sqrt,
       planning_round StdError_mean StdError_variance sqrt calm_inputs p
       = Undefined.
Proof.
  cbv zeta. split; [reflexivity|]. split; [reflexivity|].
  split; [reflexivity|]. split; [reflexivity|]. split.
  - intro H. destruct H as (k & Hk & _); [vm_compute; lia|].
    vm_compute in Hk. discriminate Hk.
  - intros m v s. reflexivity.
Qed.

(** ** The command handler *)

Lemma commandCallback_other (p : ViewPlanner) (token : string) :
  ~ In token command_tokens -> commandCallback p token = p.
Proof.
  intro H. unfold commandCallback.
  repeat match goal with
  | |- context [String.eqb token ?s] =>
      destruct (String.eqb_spec token s) as [->|_];
      [exfalso; apply H; cbn; tauto|]
  end.
  reflexivity.
Qed.

Lemma commandCallback_planner_data (p : ViewPlanner) (token : string) :
  planner_data (commandCallback p token) = planner_data p.
Proof.
  unfold commandCallback.
  repeat match goal with
  | |- context [String.eqb token ?s] => destruct (String.eqb token s)
  end; reflexivity.
Qed.

(** C8: the effect of each command token on the control flags, on the
    written files and on the rest of the planner. *)
Theorem commandCallback_effects :
  forall p : ViewPlanner,
    (control_flags (commandCallback p "START")
       = (true, false, false, reinit_ p, abort_loop_ p)
     /\ written_files (commandCallback p "START") = written_files p)
    /\ (control_flags (commandCallback p "PAUSE")
          = (false, true, false, reinit_ p, abort_loop_ p)
        /\ written_files (commandCallback p "PAUSE") = written_files p)
    /\ (control_flags (commandCallback p "STOP_AND_PRINT")
          = (false, false, true, reinit_ p, abort_loop_ p)
        /\ written_files (commandCallback p "STOP_AND_PRINT")
           = written_files p)
    /\ (control_flags (commandCallback p "REINIT")
          = (start_ p, pause_ p, stop_and_print_ p, true, abort_loop_ p)
        /\ written_files (commandCallback p "REINIT") = written_files p)
    /\ (control_flags (commandCallback p "ABORT_LOOP")
          = (start_ p, pause_ p, stop_and_print_ p, reinit_ p, true)
        /\ written_files (commandCallback p "ABORT_LOOP") = written_files p)
    /\ (control_flags (commandCallback p "PRINT_DATA") = control_flags p
        /\ written_files (commandCallback p "PRINT_DATA")
           = written_files p
             ++ [ {| name_line := planning_data_names_ p;
                     value_lines := planning_data_ p |} ])
    /\ (forall token, ~ In token command_tokens ->
          commandCallback p token = p)
    /\ (forall token,
          planner_data (commandCallback p token) = planner_data p).
Proof.
  intro p. repeat split; try reflexivity.
  - intros token H. apply commandCallback_other, H.
  - intro token. apply commandCallback_planner_data.
Qed.

Lemma commandCallback_effects_witness :
  commandCallback (example_planner []) "RESUME" = example_planner [].
Proof.
  apply (commandCallback_effects (example_planner [])).
  cbn. intros [H|[H|[H|[H|[H|[H|[]]]]]]]; discriminate H.
Defined.

(** ** Spinning *)

Lemma commandCallback_abort_loop (p : ViewPlanner) (token : string) :
  abort_loop_ (commandCallback p token)
  = abort_loop_ p || (token =? "ABORT_LOOP")%string.
Proof.
  unfold commandCallback.
  repeat match goal with
  | |- context [if String.eqb token ?s then _ else _] =>
      destruct (String.eqb_spec token s) as [->|?]
  end; cbn; try (symmetry; apply orb_false_r).
  symmetry. apply orb_true_r.
Qed.

Lemma spinOnce_abort_loop (due : list string) (p : ViewPlanner) :
  abort_loop_ (spinOnce p due)
  = abort_loop_ p || existsb (fun token => token =? "ABORT_LOOP")%string due.
Proof.
  unfold spinOnce. revert p.
  induction due as [|token due IH]; intro p; cbn [fold_left existsb].
  - symmetry. apply orb_false_r.
  - rewrite IH, commandCallback_abort_loop. now rewrite orb_assoc.
Qed.

Lemma spinOnce_quiet (due : list string) (p : ViewPlanner) :
  quiet due -> abort_loop_ (spinOnce p due) = abort_loop_ p.
Proof.
  intro H. rewrite spinOnce_abort_loop.
  replace (existsb _ due) with false; [apply orb_false_r|].
  symmetry. apply not_true_is_false. intro E.
  apply existsb_exists in E. destruct E as (token & Hin & Heq).
  apply String.eqb_eq in Heq. subst token. exact (H Hin).
Qed.

Lemma spinOnce_abort_request (due : list string) (p : ViewPlanner) :
  In "ABORT_LOOP"%string due -> abort_loop_ (spinOnce p due) = true.
Proof.
  intro H. rewrite spinOnce_abort_loop.
  replace (existsb _ due) with true; [apply orb_true_r|].
  symmetry. apply existsb_exists. exists "ABORT_LOOP"%string.
  split; [exact H|reflexivity].
Qed.

Lemma spinOnce_planner_data (due : list string) (p : ViewPlanner) :
  planner_data (spinOnce p due) = planner_data p.
Proof.
  unfold spinOnce. revert p.
  induction due as [|token due IH]; intro p; cbn [fold_left]; [reflexivity|].
  rewrite IH. apply commandCallback_planner_data.
Qed.

Lemma spinOnce_service_calls (due : list string) (p : ViewPlanner) :
  service_calls (spinOnce p due) = service_calls p.
Proof.
  pose proof (spinOnce_planner_data due p) as H.
  unfold planner_data in H. congruence.
Qed.

Lemma spinOnce_view_space (due : list string) (p : ViewPlanner) :
  view_space_ (spinOnce p due) = view_space_ p.
Proof.
  pose proof (spinOnce_planner_data due p) as H.
  unfold planner_data in H. congruence.
Qed.

Lemma repeat_snoc {A : Type} (a : A) (l : list A) (n : nat) :
  (l ++ repeat a n) ++ [a] = l ++ repeat a (n + 1).
Proof.
  rewrite <- app_assoc. f_equal. rewrite repeat_app. reflexivity.
Qed.

(** ** The retry helpers *)

(** The first pass of a waiting loop on a failing reply, when the spin that
    follows brings no abort request: one request more, then the loop goes
    on with the rest of both scripts. *)
Lemma retrieveData_loop_failed (failure : option ReceiveInfo)
    (replies : list (option ReceiveInfo)) (receive_info : option ReceiveInfo)
    (spins : list (list string)) (p : ViewPlanner) :
  retrieval_reply_fails failure ->
  retrieveData_loop (failure :: replies) receive_info spins p
  = let p' := spinOnce (call_service p Call_retrieve_data)
                (fst (next_spin spins)) in
    if abort_loop_ p'
    then Ok (p', replies, snd (next_spin spins))
    else retrieveData_loop replies
           (snd (retrieveData receive_info failure))
           (snd (next_spin spins)) p'.
Proof.
  intro H. cbn [retrieveData_loop].
  destruct failure as [[|status]|]; cbn in H; try contradiction;
    cbn [retrieveData retrieval_failed is_RECEIVED negb orb snd];
    destruct (next_spin spins) as [due spins']; reflexivity.
Qed.

Lemma moveTo_loop_failed (target : View) (failure : option bool)
    (replies : list (option bool)) (successfully_moved : option bool)
    (spins : list (list string)) (p : ViewPlanner) :
  move_reply_fails failure ->
  moveTo_loop target (failure :: replies) successfully_moved spins p
  = let p' := spinOnce (call_service p (Call_move_to target))
                (fst (next_spin spins)) in
    if abort_loop_ p'
    then Ok (p', replies, snd (next_spin spins))
    else moveTo_loop target replies
           (snd (moveTo successfully_moved failure))
           (snd (next_spin spins)) p'.
Proof.
  intro H. cbn [moveTo_loop].
  destruct failure as [[|]|]; cbn in H; try contradiction;
    cbn [moveTo movement_failed negb orb snd];
    destruct (next_spin spins) as [due spins']; reflexivity.
Qed.

Lemma quiet_next_spin (n : nat) (spins : list (list string)) :
  Forall quiet (firstn (S n) spins) ->
  quiet (fst (next_spin spins))
  /\ Forall quiet (firstn n (snd (next_spin spins))).
Proof.
  destruct spins as [|due spins']; cbn [next_spin fst snd firstn]; intro H.
  - split; [intros []|]. rewrite firstn_nil. constructor.
  - inversion H; subst. split; assumption.
Qed.

Lemma skipn_next_spin (n : nat) (spins : list (list string)) :
  skipn n (snd (next_spin spins)) = skipn (S n) spins.
Proof.
  destruct spins as [|due spins']; cbn [next_spin snd skipn]; [|reflexivity].
  apply skipn_nil.
Qed.

(** A run of failing replies without abort request is gone through reply by
    reply. *)
Lemma retrieveData_loop_retries (failures rest : list (option ReceiveInfo)) :
  forall (receive_info : option ReceiveInfo) (spins : list (list string))
         (p : ViewPlanner),
    Forall retrieval_reply_fails failures ->
    abort_loop_ p = false ->
    Forall quiet (firstn (length failures) spins) ->
    exists receive_info' p',
      retrieveData_loop (failures ++ rest) receive_info spins p
      = retrieveData_loop rest receive_info'
          (skipn (length failures) spins) p'
      /\ abort_loop_ p' = false
      /\ service_calls p'
         = service_calls p ++ repeat Call_retrieve_data (length failures).
Proof.
  induction failures as [|failure failures IH];
    intros receive_info spins p Hf Ha Hq.
  - exists receive_info, p. cbn. rewrite app_nil_r. auto.
  - inversion Hf as [|? ? Hfail Hrest]; subst.
    cbn [length] in Hq. apply quiet_next_spin in Hq. destruct Hq as [Hq1 Hq2].
    cbn [app]. rewrite retrieveData_loop_failed by assumption. cbv zeta.
    set (p1 := spinOnce (call_service p Call_retrieve_data)
                 (fst (next_spin spins))).
    assert (Ha1 : abort_loop_ p1 = false).
    { unfold p1. rewrite spinOnce_quiet by assumption. exact Ha. }
    rewrite Ha1.
    destruct (IH (snd (retrieveData receive_info failure))
                (snd (next_spin spins)) p1 Hrest Ha1 Hq2)
      as (receive_info' & p' & Heq & Ha' & Hcalls).
    exists receive_info', p'. rewrite Heq, skipn_next_spin.
    split; [reflexivity|]. split; [assumption|].
    rewrite Hcalls. unfold p1. rewrite spinOnce_service_calls.
    cbn [service_calls call_service length repeat].
    rewrite <- app_assoc. reflexivity.
Qed.

Lemma moveTo_loop_retries (target : View) (failures rest : list (option bool)) :
  forall (successfully_moved : option bool) (spins : list (list string))
         (p : ViewPlanner),
    Forall move_reply_fails failures ->
    abort_loop_ p = false ->
    Forall quiet (firstn (length failures) spins) ->
    exists successfully_moved' p',
      moveTo_loop target (failures ++ rest) successfully_moved spins p
      = moveTo_loop target rest successfully_moved'
          (skipn (length failures) spins) p'
      /\ abort_loop_ p' = false
      /\ service_calls p'
         = service_calls p ++ repeat (Call_move_to target) (length failures).
Proof.
  induction failures as [|failure failures IH];
    intros successfully_moved spins p Hf Ha Hq.
  - exists successfully_moved, p. cbn. rewrite app_nil_r. auto.
  - inversion Hf as [|? ? Hfail Hrest]; subst.
    cbn [length] in Hq. apply quiet_next_spin in Hq. destruct Hq as [Hq1 Hq2].
    cbn [app]. rewrite moveTo_loop_failed by assumption. cbv zeta.
    set (p1 := spinOnce (call_service p (Call_move_to target))
                 (fst (next_spin spins))).
    assert (Ha1 : abort_loop_ p1 = false).
    { unfold p1. rewrite spinOnce_quiet by assumption. exact Ha. }
    rewrite Ha1.
    destruct (IH (snd (moveTo successfully_moved failure))
                (snd (next_spin spins)) p1 Hrest Ha1 Hq2)
      as (moved' & p' & Heq & Ha' & Hcalls).
    exists moved', p'. rewrite Heq, skipn_next_spin.
    split; [reflexivity|]. split; [assumption|].
    rewrite Hcalls. unfold p1. rewrite spinOnce_service_calls.
    cbn [service_calls call_service length repeat].
    rewrite <- app_assoc. reflexivity.
Qed.

Lemma firstn_length_app {A : Type} (l l' : list A) :
  firstn (length l) (l ++ l') = l.
Proof. induction l as [|a l IH]; cbn; [reflexivity | now rewrite IH]. Qed.

Lemma skipn_length_app {A : Type} (l l' : list A) :
  skipn (length l) (l ++ l') = l'.
Proof. induction l as [|a l IH]; cbn; [reflexivity | exact IH]. Qed.

Lemma retrieveDataAndWait_retries :
  retries_until_success _ retrieveDataAndWait retrieval_reply_fails
    (Some RECEIVED) Call_retrieve_data.
Proof.
  intros failures rest spins p Hf Ha Hq. unfold retrieveDataAndWait.
  destruct (retrieveData_loop_retries failures (Some RECEIVED :: rest)
              None spins p Hf Ha Hq) as (receive_info' & p' & Heq & Ha' & Hc).
  rewrite Heq.
  cbn [retrieveData_loop retrieveData retrieval_failed is_RECEIVED negb orb
       bind].
  assert (Ha2 : abort_loop_ (call_service p' Call_retrieve_data) = false)
    by exact Ha'.
  rewrite Ha2. eexists. split; [reflexivity|].
  cbn [report replies_left planner_after service_calls call_service].
  repeat split; try assumption. rewrite Hc. apply repeat_snoc.
Qed.

Lemma retrieveDataAndWait_stops_on_abort :
  stops_on_abort _ retrieveDataAndWait retrieval_reply_fails
    Call_retrieve_data.
Proof.
  intros failures rest failure calm due later p Hf Ha Hlen Hcalm Hdue.
  apply Forall_app in Hf. destruct Hf as [Hf Hlast].
  inversion Hlast as [|? ? Hfail _]; subst.
  unfold retrieveDataAndWait. rewrite <- app_assoc. cbn [app].
  destruct (retrieveData_loop_retries failures (failure :: rest) None
              (calm ++ due :: later) p Hf Ha)
    as (receive_info' & p' & Heq & Ha' & Hc).
  { rewrite <- Hlen, firstn_length_app. exact Hcalm. }
  rewrite Heq, <- Hlen, skipn_length_app.
  rewrite retrieveData_loop_failed by assumption.
  cbn [next_spin fst snd]. cbv zeta.
  rewrite spinOnce_abort_request by assumption. cbn [bind].
  rewrite spinOnce_abort_request by assumption.
  eexists. split; [reflexivity|].
  cbn [report replies_left spins_left planner_after service_calls
       set_abort_loop abort_loop_].
  repeat split. rewrite spinOnce_service_calls.
  cbn [service_calls call_service]. rewrite Hc, Hlen. apply repeat_snoc.
Qed.

Lemma retrieveDataAndWait_clears_abort :
  leaves_abort_cleared _ retrieveDataAndWait.
Proof.
  intros replies spins p r. unfold retrieveDataAndWait.
  destruct (retrieveData_loop replies None spins p) as [[[p' rs] ss]| |];
    cbn [bind]; try discriminate.
  destruct (abort_loop_ p') eqn:E; intro H; inversion H; subst; cbn; auto.
Qed.

Lemma moveToAndWait_retries (target : View) :
  retries_until_success _ (moveToAndWait target) move_reply_fails
    (Some true) (Call_move_to target).
Proof.
  intros failures rest spins p Hf Ha Hq. unfold moveToAndWait.
  destruct (moveTo_loop_retries target failures (Some true :: rest)
              None spins p Hf Ha Hq) as (moved' & p' & Heq & Ha' & Hc).
  rewrite Heq.
  cbn [moveTo_loop moveTo movement_failed negb orb bind].
  assert (Ha2 : abort_loop_ (call_service p' (Call_move_to target)) = false)
    by exact Ha'.
  rewrite Ha2. eexists. split; [reflexivity|].
  cbn [report replies_left planner_after service_calls call_service].
  repeat split; try assumption. rewrite Hc. apply repeat_snoc.
Qed.

Lemma moveToAndWait_stops_on_abort (target : View) :
  stops_on_abort _ (moveToAndWait target) move_reply_fails
    (Call_move_to target).
Proof.
  intros failures rest failure calm due later p Hf Ha Hlen Hcalm Hdue.
  apply Forall_app in Hf. destruct Hf as [Hf Hlast].
  inversion Hlast as [|? ? Hfail _]; subst.
  unfold moveToAndWait. rewrite <- app_assoc. cbn [app].
  destruct (moveTo_loop_retries target failures (failure :: rest) None
              (calm ++ due :: later) p Hf Ha)
    as (moved' & p' & Heq & Ha' & Hc).
  { rewrite <- Hlen, firstn_length_app. exact Hcalm. }
  rewrite Heq, <- Hlen, skipn_length_app.
  rewrite moveTo_loop_failed by assumption.
  cbn [next_spin fst snd]. cbv zeta.
  rewrite spinOnce_abort_request by assumption. cbn [bind].
  rewrite spinOnce_abort_request by assumption.
  eexists. split; [reflexivity|].
  cbn [report replies_left spins_left planner_after service_calls
       set_abort_loop abort_loop_].
  repeat split. rewrite spinOnce_service_calls.
  cbn [service_calls call_service]. rewrite Hc, Hlen. apply repeat_snoc.
Qed.

Lemma moveToAndWait_clears_abort (target : View) :
  leaves_abort_cleared _ (moveToAndWait target).
Proof.
  intros replies spins p r. unfold moveToAndWait.
  destruct (moveTo_loop target replies None spins p) as [[[p' rs] ss]| |];
    cbn [bind]; try discriminate.
  destruct (abort_loop_ p') eqn:E; intro H; inversion H; subst; cbn; auto.
Qed.

(** C3: both retry helpers send exactly N+1 requests and end with the
    success message when N failing replies are followed by a good one and
    no abort request is pending or arrives; an abort request that arrives
    after a failed attempt ends them at once, without a further request;
    and on every return the abort flag is off. *)
Theorem retry_helpers_behaviour :
  (retries_until_success _ retrieveDataAndWait retrieval_reply_fails
     (Some RECEIVED) Call_retrieve_data
   /\ stops_on_abort _ retrieveDataAndWait retrieval_reply_fails
        Call_retrieve_data
   /\ leaves_abort_cleared _ retrieveDataAndWait)
  /\ forall target : View,
       retries_until_success _ (moveToAndWait target) move_reply_fails
         (Some true) (Call_move_to target)
       /\ stops_on_abort _ (moveToAndWait target) move_reply_fails
            (Call_move_to target)
       /\ leaves_abort_cleared _ (moveToAndWait target).
Proof.
  split.
  - split; [exact retrieveDataAndWait_retries|].
    split; [exact retrieveDataAndWait_stops_on_abort|].
    exact retrieveDataAndWait_clears_abort.
  - intro target. split; [exact (moveToAndWait_retries target)|].
    split; [exact (moveToAndWait_stops_on_abort target)|].
    exact (moveToAndWait_clears_abort target).
Qed.

(** Two runs of the helpers: a retrieval that fails twice and then
    succeeds, with a pause command on the way; a move that fails twice and
    is aborted in the spin after the second failure. *)
Lemma retry_helpers_behaviour_witness :
  (exists r,
     retrieveDataAndWait
       ([None; Some (NOT_RECEIVED 1)] ++ Some RECEIVED :: [None])
       [[]; ["PAUSE"%string]] (example_planner []) = Ok r
     /\ report r = reported_success
     /\ replies_left r = [None]
     /\ service_calls (planner_after r)
        = service_calls (example_planner []) ++ repeat Call_retrieve_data 3
     /\ abort_loop_ (planner_after r) = false)
  /\ (exists r,
        moveToAndWait (example_view 0)
          (([None] ++ [Some false]) ++ [Some true])
          ([[]] ++ ["ABORT_LOOP"%string] :: [["START"%string]])
          (example_planner []) = Ok r
        /\ report r = reported_abort
        /\ replies_left r = [Some true]
        /\ spins_left r = [["START"%string]]
        /\ service_calls (planner_after r)
           = service_calls (example_planner [])
             ++ repeat (Call_move_to (example_view 0)) 2
        /\ abort_loop_ (planner_after r) = false).
Proof.
  split.
  - apply (proj1 (proj1 retry_helpers_behaviour)
             [None; Some (NOT_RECEIVED 1)] [None] [[]; ["PAUSE"%string]]
             (example_planner [])).
    + repeat constructor.
    + reflexivity.
    + cbn. repeat constructor.
      * intros [].
      * intros [H|[]]. discriminate H.
  - apply (proj1 (proj2 (proj2 retry_helpers_behaviour (example_view 0)))
             [None] [Some true] (Some false) [[]] ["ABORT_LOOP"%string]
             [["START"%string]] (example_planner [])).
    + repeat constructor.
    + reflexivity.
    + reflexivity.
    + repeat constructor. intros [].
    + now left.
Defined.

(** ** The view space *)

Lemma setBad_length (vs : ViewSpace.t) (i : nat) :
  length (ViewSpace.setBad vs i) = length vs.
Proof.
  revert i. induction vs as [|e vs IH]; intros [|i]; cbn; auto.
Qed.

Lemma isBad_setBad_same (vs : ViewSpace.t) (i : nat) :
  (i < length vs)%nat -> ViewSpace.isBad (ViewSpace.setBad vs i) i = true.
Proof.
  unfold ViewSpace.isBad. revert i.
  induction vs as [|e vs IH]; intros [|i] H; cbn in *; try lia; auto.
  apply IH. lia.
Qed.

Lemma isBad_setBad_other (vs : ViewSpace.t) (i j : nat) :
  i <> j ->
  ViewSpace.isBad (ViewSpace.setBad vs i) j = ViewSpace.isBad vs j.
Proof.
  unfold ViewSpace.isBad. revert i j.
  induction vs as [|e vs IH]; intros [|i] [|j] H; cbn; auto; try congruence.
Qed.

Lemma isBad_setBad_mono (vs : ViewSpace.t) (i j : nat) :
  ViewSpace.isBad vs j = true ->
  ViewSpace.isBad (ViewSpace.setBad vs i) j = true.
Proof.
  intro H. destruct (Nat.eq_dec i j) as [->|Hne].
  - apply isBad_setBad_same. unfold ViewSpace.isBad in H.
    destruct (nth_error vs j) eqn:E; [|discriminate].
    apply nth_error_Some. congruence.
  - now rewrite isBad_setBad_other.
Qed.

Lemma isBad_setBad_inv (vs : ViewSpace.t) (i j : nat) :
  ViewSpace.isBad (ViewSpace.setBad vs i) j = true ->
  ViewSpace.isBad vs j = true \/ j = i.
Proof.
  intro H. destruct (Nat.eq_dec i j) as [->|Hne]; [now right|].
  left. now rewrite isBad_setBad_other in H.
Qed.

Lemma getView_setBad (vs : ViewSpace.t) (i j : nat) :
  ViewSpace.getView (ViewSpace.setBad vs i) j = ViewSpace.getView vs j.
Proof.
  unfold ViewSpace.getView. revert i j.
  induction vs as [|e vs IH]; intros [|i] [|j]; cbn; auto.
Qed.

Lemma getGoodViewSpace_spec (vs : ViewSpace.t) (i : nat) :
  In i (ViewSpace.getGoodViewSpace vs)
  <-> (i < length vs)%nat /\ ViewSpace.isBad vs i = false.
Proof.
  unfold ViewSpace.getGoodViewSpace.
  rewrite filter_In, in_seq, negb_true_iff. intuition lia.
Qed.

(** ** The loop over the movement costs *)

Section CostLoop.

Variable w : RoundInputs.
Variable p : ViewPlanner.
Variable views_to_consider : list nat.

Hypothesis candidates_in_range :
  forall i, In i views_to_consider -> (i < length (view_space_ p))%nat.

Lemma cost_loop_invariant_holds :
  cost_loop_invariant w p views_to_consider (length views_to_consider)
    (movement_costs w views_to_consider p).
Proof.
  unfold movement_costs. apply for_loop_invariant.
  - cbn. rewrite repeat_length, app_nil_r.
    repeat split; auto; try (intros; lia).
    intros [H|(i & Hi & _)]; [assumption|lia].
  - intros k [p' costs] Hk (Hlen & Hvs & Hout & Hview & Hcalls & Hcost & Hbad).
    unfold cost_step.
    fold (cost_description_after w k).
    change (snd (movementCost (cost_description_start w k) (cost_reply w k)))
      with (cost_description_after w k).
    destruct (movementCost (cost_description_start w k) (cost_reply w k))
      as [response description] eqn:Ecall.
    assert (Hdesc : description = cost_description_after w k)
      by (unfold cost_description_after; now rewrite Ecall).
    subst description. fold (cost_exception w k).
    assert (Hcur : current_view_ p' = current_view_ p)
      by (unfold outside_cost_loop in Hout; congruence).
    assert (Hin : (nth k views_to_consider 0 < length (view_space_ p))%nat)
      by (apply candidates_in_range, nth_In; exact Hk).
    destruct (cost_exception w k) eqn:Eexc; unfold cost_loop_invariant.
    + cbn [view_space_ set_view_space call_service service_calls].
      rewrite vector_set_length, setBad_length.
      split; [assumption|]. split; [assumption|].
      split; [exact Hout|].
      split; [intro index; rewrite getView_setBad; apply Hview|].
      split.
      { rewrite seq_S, map_app, app_assoc, Hcalls, Hcur, Hview. reflexivity. }
      split.
      { intros i Hi. destruct (Nat.eq_dec i k) as [->|Hne].
        - rewrite vector_set_nth_same by lia. now rewrite Eexc.
        - rewrite vector_set_nth_other by congruence. apply Hcost. lia. }
      intro index. split.
      * intro H. apply isBad_setBad_inv in H. destruct H as [H | ->].
        -- apply Hbad in H. destruct H as [H|(i & Hi & Hidx & He)];
             [now left|]. right. exists i. split; [lia|]. auto.
        -- right. exists k. split; [lia|]. auto.
      * intros [H|(i & Hi & Hidx & He)].
        -- apply isBad_setBad_mono, Hbad. now left.
        -- destruct (Nat.eq_dec i k) as [->|Hne].
           ++ subst index. apply isBad_setBad_same. rewrite Hvs. exact Hin.
           ++ apply isBad_setBad_mono, Hbad. right. exists i.
              split; [lia|]. auto.
    + cbn [view_space_ call_service service_calls].
      rewrite vector_set_length.
      split; [assumption|]. split; [assumption|].
      split; [exact Hout|]. split; [exact Hview|].
      split.
      { rewrite seq_S, map_app, app_assoc, Hcalls, Hcur, Hview. reflexivity. }
      split.
      { intros i Hi. destruct (Nat.eq_dec i k) as [->|Hne].
        - rewrite vector_set_nth_same by lia. now rewrite Eexc.
        - rewrite vector_set_nth_other by congruence. apply Hcost. lia. }
      intro index. rewrite Hbad. split.
      * intros [H|(i & Hi & Hidx & He)]; [now left|].
        right. exists i. split; [lia|]. auto.
      * intros [H|(i & Hi & Hidx & He)]; [now left|].
        destruct (Nat.eq_dec i k) as [->|Hne]; [congruence|].
        right. exists i. split; [lia|]. auto.
Qed.

End CostLoop.

Lemma candidates_in_range (p : ViewPlanner) (i : nat) :
  In i (determineAvailableViewSpace p) -> (i < length (view_space_ p))%nat.
Proof.
  unfold determineAvailableViewSpace. intro H.
  apply getGoodViewSpace_spec in H. tauto.
Qed.

Lemma candidates_distinct (p : ViewPlanner) :
  NoDup (determineAvailableViewSpace p).
Proof.
  unfold determineAvailableViewSpace, ViewSpace.getGoodViewSpace.
  apply NoDup_filter, seq_NoDup.
Qed.

(** X4: what the cost loop does for the candidates of a round when the
    cost service answers: one request per candidate; a reply with an exception
    gets the candidate marked bad and the cost -1; a reply without gets it
    the replied cost and leaves the candidate good. *)
Lemma movement_costs_answered (w : RoundInputs) (p : ViewPlanner) :
  let views_to_consider := determineAvailableViewSpace p in
  let after := movement_costs w views_to_consider p in
  service_calls (fst after)
  = service_calls p
    ++ map (fun index => Call_movement_cost (current_view_ p)
                           (ViewSpace.getView (view_space_ p) index))
         views_to_consider
  /\ forall i received,
       (i < length views_to_consider)%nat ->
       cost_reply w i = Some received ->
       (exception received <> NONE ->
          ViewSpace.isBad (view_space_ (fst after))
            (nth i views_to_consider 0%nat) = true
          /\ nth i (snd after) 0 = -1)
       /\ (exception received = NONE ->
             ViewSpace.isBad (view_space_ (fst after))
               (nth i views_to_consider 0%nat) = false
             /\ nth i (snd after) 0 = cost received).
Proof.
  intros views_to_consider after.
  pose proof (cost_loop_invariant_holds w p views_to_consider
                (candidates_in_range p)) as H.
  fold after in H. destruct after as [p' costs]. cbn [fst snd].
  destruct H as (Hlen & Hvs & Hout & Hview & Hcalls & Hcost & Hbad).
  split.
  - rewrite Hcalls. f_equal.
    rewrite <- (map_map (fun i => nth i views_to_consider 0%nat)
                  (fun index => Call_movement_cost (current_view_ p)
                     (ViewSpace.getView (view_space_ p) index))).
    f_equal. clear. induction views_to_consider as [|v l IH]; [reflexivity|].
    cbn [length seq map nth]. f_equal.
    rewrite <- seq_shift, map_map. exact IH.
  - intros i received Hi Hreply.
    assert (Hafter : cost_description_after w i = received)
      by (unfold cost_description_after; rewrite Hreply; reflexivity).
    assert (Hexc : cost_exception w i
                   = negb (Exception_eqb (exception received) NONE))
      by (unfold cost_exception; now rewrite Hafter).
    split; intro He.
    + assert (Et : cost_exception w i = true)
        by (rewrite Hexc; destruct (exception received); cbn; congruence).
      split.
      * apply Hbad. right. exists i. auto.
      * rewrite Hcost by assumption. now rewrite Et.
    + assert (Ef : cost_exception w i = false)
        by (rewrite Hexc, He; reflexivity).
      split.
      * apply not_true_is_false. intro Hb. apply Hbad in Hb.
        destruct Hb as [Hb|(j & Hj & Hidx & Hej)].
        -- assert (Hin : In (nth i views_to_consider 0%nat) views_to_consider)
             by (apply nth_In; exact Hi).
           apply getGoodViewSpace_spec in Hin. destruct Hin as [_ Hgood].
           congruence.
        -- assert (i = j).
           { apply (proj1 (NoDup_nth views_to_consider 0%nat)
                      (candidates_distinct p)); assumption. }
           subst j. congruence.
      * rewrite Hcost by assumption. rewrite Ef, Hafter. reflexivity.
Qed.

(** C4, evaluated where the code falls short of it.  One good view; the
    cost service call fails, and the local [cost_description], which the
    failed call leaves as it was, holds cost 7 and no exception.  The loop
    sends its one request, does not look at the failure, takes 7 for the
    candidate's cost and leaves the view good. *)
Theorem failed_cost_call_goes_unnoticed :
  let w := unanswered_cost_inputs in
  let p := example_planner [example_view 0] in
  let views_to_consider := determineAvailableViewSpace p in
  let after := movement_costs w views_to_consider p in
  views_to_consider = [0%nat]
  /\ cost_reply w 0 = None
  /\ service_calls (fst after)
     = [Call_movement_cost (current_view_ p) (example_view 0)]
  /\ snd after = [7]
  /\ ViewSpace.isBad (view_space_ (fst after)) 0 = false
  /\ In 0%nat (determineAvailableViewSpace (fst after))
  /\ ~ failed_cost_excludes w p 0.
Proof.
  cbv zeta. repeat split; try reflexivity.
  - now left.
  - unfold failed_cost_excludes. cbn [cost_reply unanswered_cost_inputs].
    intros [H _]. vm_compute in H. discriminate H.
Qed.

Lemma movement_costs_answered_witness :
  let p := example_planner [example_view 0; example_view 1] in
  let after :=
    movement_costs one_exception_inputs (determineAvailableViewSpace p) p in
  (ViewSpace.isBad (view_space_ (fst after))
     (nth 0 (determineAvailableViewSpace p) 0%nat) = true
   /\ nth 0 (snd after) 0 = -1)
  /\ (ViewSpace.isBad (view_space_ (fst after))
        (nth 1 (determineAvailableViewSpace p) 0%nat) = false
      /\ nth 1 (snd after) 0 = 1).
Proof.
  intros p after.
  pose proof (movement_costs_answered one_exception_inputs p) as H.
  cbv zeta in H. destruct H as [_ H]. split.
  - apply (proj1 (H 0%nat {| cost := 0; exception := UNREACHABLE |}
                    ltac:(vm_compute; lia) eq_refl)).
    discriminate.
  - apply (proj2 (H 1%nat {| cost := 1; exception := NONE |}
                    ltac:(vm_compute; lia) eq_refl)).
    reflexivity.
Defined.

(** ** The view space across the rounds of the loop *)

Lemma bind_Ok {A B : Type} (r : result A) (k : A -> result B) (b : B) :
  bind r k = Ok b -> exists a, r = Ok a /\ k a = Ok b.
Proof.
  destruct r as [a| |]; cbn; intro H; try discriminate. exists a. auto.
Qed.

Lemma pause_loop_view_space (spins : list (list string)) :
  forall p p' spins',
    pause_loop spins p = Ok (p', spins') -> view_space_ p' = view_space_ p.
Proof.
  induction spins as [|due spins IH]; intros p p' spins' H; cbn in H;
    [discriminate|].
  destruct (pause_ (spinOnce p due)).
  - rewrite (IH _ _ _ H). apply spinOnce_view_space.
  - inversion H; subst. apply spinOnce_view_space.
Qed.

Lemma pauseIfRequested_view_space (spins : list (list string))
    (p p' : ViewPlanner) (spins' : list (list string)) :
  pauseIfRequested spins p = Ok (p', spins') -> view_space_ p' = view_space_ p.
Proof.
  unfold pauseIfRequested. destruct (pause_ p).
  - apply pause_loop_view_space.
  - intro H. inversion H; subst. reflexivity.
Qed.

Lemma expected_informations_view_space (w : RoundInputs)
    (views_to_consider : list nat) (costs : list Q) (p : ViewPlanner) :
  view_space_ (fst (expected_informations w views_to_consider costs p))
  = view_space_ p.
Proof.
  unfold expected_informations.
  apply (for_loop_invariant (information_step w views_to_consider costs)
           (length views_to_consider)
           (fun _ state => view_space_ (fst state) = view_space_ p)).
  - reflexivity.
  - intros i [p' information] _ H. unfold information_step.
    destruct (is_invalid_cost (nth i costs 0)); [exact H|].
    destruct (getViewInformation (nth i information []) (information_reply w i)).
    exact H.
Qed.

Lemma retrieveData_loop_view_space (replies : list (option ReceiveInfo)) :
  forall receive_info spins p p' replies' spins',
    retrieveData_loop replies receive_info spins p = Ok (p', replies', spins') ->
    view_space_ p' = view_space_ p.
Proof.
  induction replies as [|reply replies IH];
    intros receive_info spins p p' replies' spins' H; cbn in H;
    [discriminate|].
  destruct (retrieveData receive_info reply) as [succeeded info].
  destruct (retrieval_failed succeeded info).
  - destruct (next_spin spins) as [due rest].
    destruct (abort_loop_ _).
    + inversion H; subst. now rewrite spinOnce_view_space.
    + apply IH in H. rewrite H. now rewrite spinOnce_view_space.
  - inversion H; subst. reflexivity.
Qed.

Lemma retrieveDataAndWait_view_space (replies : list (option ReceiveInfo))
    (spins : list (list string)) (p : ViewPlanner)
    (r : Waited (option ReceiveInfo)) :
  retrieveDataAndWait replies spins p = Ok r ->
  view_space_ (planner_after r) = view_space_ p.
Proof.
  unfold retrieveDataAndWait. intro H.
  apply bind_Ok in H. destruct H as ([[p' replies'] spins'] & Hloop & H).
  apply retrieveData_loop_view_space in Hloop.
  destruct (abort_loop_ p'); inversion H; subst; cbn; exact Hloop.
Qed.

Lemma moveTo_loop_view_space (target : View) (replies : list (option bool)) :
  forall moved spins p p' replies' spins',
    moveTo_loop target replies moved spins p = Ok (p', replies', spins') ->
    view_space_ p' = view_space_ p.
Proof.
  induction replies as [|reply replies IH];
    intros moved spins p p' replies' spins' H; cbn in H; [discriminate|].
  destruct (moveTo moved reply) as [succeeded moved'].
  destruct (movement_failed succeeded moved').
  - destruct (next_spin spins) as [due rest].
    destruct (abort_loop_ _).
    + inversion H; subst. now rewrite spinOnce_view_space.
    + apply IH in H. rewrite H. now rewrite spinOnce_view_space.
  - inversion H; subst. reflexivity.
Qed.

Lemma moveToAndWait_view_space (target : View) (replies : list (option bool))
    (spins : list (list string)) (p : ViewPlanner) (r : Waited (option bool)) :
  moveToAndWait target replies spins p = Ok r ->
  view_space_ (planner_after r) = view_space_ p.
Proof.
  unfold moveToAndWait. intro H.
  apply bind_Ok in H. destruct H as ([[p' replies'] spins'] & Hloop & H).
  apply moveTo_loop_view_space in Hloop.
  destruct (abort_loop_ p'); inversion H; subst; cbn; exact Hloop.
Qed.

Section Rounds.

Variable StdError_mean : list Q -> Q.
Variable StdError_variance : list Q -> Q.
Variable sqrt : Q -> Q.

(** The views that are bad after a round are those that were bad before
    it and those whose cost evaluation in the round showed an exception. *)
Lemma planning_round_bad_views (w : RoundInputs) (p p' : ViewPlanner)
    (broke : bool) :
  planning_round StdError_mean StdError_variance sqrt w p = Ok (p', broke) ->
  forall index,
    ViewSpace.isBad (view_space_ p') index = true
    <-> ViewSpace.isBad (view_space_ p) index = true
        \/ exists i,
             (i < length (determineAvailableViewSpace p))%nat
             /\ index = nth i (determineAvailableViewSpace p) 0%nat
             /\ cost_exception w i = true.
Proof.
  unfold planning_round. intro H.
  apply bind_Ok in H. destruct H as ([p0 spins0] & Hpause0 & H).
  apply pauseIfRequested_view_space in Hpause0.
  assert (Hcands : determineAvailableViewSpace p0
                   = determineAvailableViewSpace p)
    by (unfold determineAvailableViewSpace; now rewrite Hpause0).
  pose proof (cost_loop_invariant_holds w p0 (determineAvailableViewSpace p0)
                (candidates_in_range p0)) as Hinv.
  destruct (movement_costs w (determineAvailableViewSpace p0) p0)
    as [p1 costs].
  destruct Hinv as (_ & _ & _ & _ & _ & _ & Hbad).
  apply bind_Ok in H. destruct H as ([p2 spins2] & Hpause2 & H).
  apply pauseIfRequested_view_space in Hpause2.
  pose proof (expected_informations_view_space w
                (determineAvailableViewSpace p0) costs p2) as Hinfo.
  destruct (expected_informations w (determineAvailableViewSpace p0) costs p2)
    as [p3 information].
  cbn [fst] in Hinfo.
  apply bind_Ok in H. destruct H as ([p4 spins4] & Hpause4 & H).
  apply pauseIfRequested_view_space in Hpause4.
  assert (Hsame : view_space_ p' = view_space_ p1).
  { destruct (nbv_index _) as [k|]; [|discriminate].
    cbn [terminationCriteriaFulfilled] in H.
    apply bind_Ok in H. destruct H as (moved & Hmoved & H).
    apply moveToAndWait_view_space in Hmoved.
    apply bind_Ok in H. destruct H as (retrieved & Hretrieved & H).
    apply retrieveDataAndWait_view_space in Hretrieved.
    destruct (next_spin (spins_left retrieved)) as [due rest].
    inversion H; subst.
    rewrite spinOnce_view_space, Hretrieved, Hmoved.
    cbn [saveNBVData view_space_ set_planning_data].
    congruence. }
  intro index. rewrite Hsame, Hbad, Hpause0, Hcands. reflexivity.
Qed.

(** From round to round the marks only accumulate. *)
Lemma later_round_keeps_bad (p p' : ViewPlanner) (index : nat) :
  later_round StdError_mean StdError_variance sqrt p p' ->
  ViewSpace.isBad (view_space_ p) index = true ->
  ViewSpace.isBad (view_space_ p') index = true.
Proof.
  unfold later_round. induction 1 as [|p p1 p2 Hstep _ IH]; intro Hbad;
    [assumption|].
  apply IH. destruct Hstep as [w Hround _].
  apply (planning_round_bad_views w p p1 false Hround). now left.
Qed.

(** C7: a view that a round marks bad because its cost evaluation showed
    an exception is bad, and so not among the candidates, at the start of
    every later round of the loop. *)
Theorem bad_view_stays_excluded :
  forall (w : RoundInputs) (p p1 p2 : ViewPlanner) (i : nat),
    planning_round StdError_mean StdError_variance sqrt w p = Ok (p1, false) ->
    (i < length (determineAvailableViewSpace p))%nat ->
    cost_exception w i = true ->
    later_round StdError_mean StdError_variance sqrt p1 p2 ->
    ViewSpace.isBad (view_space_ p2)
      (nth i (determineAvailableViewSpace p) 0%nat) = true
    /\ ~ In (nth i (determineAvailableViewSpace p) 0%nat)
            (determineAvailableViewSpace p2).
Proof.
  intros w p p1 p2 i Hround Hi Hexc Hlater.
  assert (Hbad : ViewSpace.isBad (view_space_ p2)
                   (nth i (determineAvailableViewSpace p) 0%nat) = true).
  { apply (later_round_keeps_bad p1 p2); [exact Hlater|].
    apply (planning_round_bad_views w p p1 false Hround).
    right. exists i. auto. }
  split; [exact Hbad|].
  unfold determineAvailableViewSpace at 2. intro Hin.
  apply getGoodViewSpace_spec in Hin. destruct Hin as [_ Hgood]. congruence.
Qed.

End Rounds.


(** A run of two rounds over two views: the first round finds the first
    view unreachable and moves to the second, the second round starts
    without the first view. *)
Lemma bad_view_stays_excluded_witness :
  let p := example_planner [example_view 0; example_view 1] in
  let p1 := after_round one_exception_inputs p in
  let p2 := after_round calm_inputs p1 in
  determineAvailableViewSpace p = [0%nat; 1%nat]
  /\ determineAvailableViewSpace p2 = [1%nat]
  /\ ViewSpace.isBad (view_space_ p2)
       (nth 0 (determineAvailableViewSpace p) 0%nat) = true
  /\ ~ In (nth 0 (determineAvailableViewSpace p) 0%nat)
          (determineAvailableViewSpace p2).
Proof.
  intros p p1 p2.
  split; [vm_compute; reflexivity|]. split; [vm_compute; reflexivity|].
  apply (bad_view_stays_excluded (fun _ => 0) (fun _ => 0) (fun x => x)
           one_exception_inputs p p1 p2 0%nat).
  - vm_compute. reflexivity.
  - vm_compute. lia.
  - vm_compute. reflexivity.
  - apply clos_rt1n_step.
    apply next_round_intro with (w := calm_inputs);
      vm_compute; reflexivity.
Defined.

(** ** The loop over the expected information *)

Lemma viable_positions_S (n : nat) (costs : list Q) :
  viable_positions (S n) costs
  = viable_positions n costs
    ++ (if is_invalid_cost (nth n costs 0) then [] else [n]).
Proof.
  unfold viable_positions. rewrite seq_S, filter_app. cbn [filter Nat.add].
  destruct (is_invalid_cost (nth n costs 0)); reflexivity.
Qed.

(** What the information phase does: one request per cost-viable
    candidate, the reply kept where the call succeeded, the vector left empty
    elsewhere, and nothing else of the planner changed. *)
Lemma expected_informations_spec :
  forall (w : RoundInputs) (views_to_consider : list nat) (costs : list Q)
         (p : ViewPlanner),
    let after := expected_informations w views_to_consider costs p in
    without_calls (fst after) = without_calls p
    /\ service_calls (fst after)
       = service_calls p
         ++ map (fun i => Call_view_information
                            (pose (ViewSpace.getView (view_space_ p)
                                     (nth i views_to_consider 0%nat))))
              (viable_positions (length views_to_consider) costs)
    /\ length (snd after) = length views_to_consider
    /\ forall i, (i < length views_to_consider)%nat ->
         nth i (snd after) [] = stored_information w costs i.
Proof.
  intros w cands costs p after. unfold after, expected_informations.
  set (n := length cands).
  pose (P := fun (k : nat) (state : ViewPlanner * list (list Q)) =>
      without_calls (fst state) = without_calls p
      /\ service_calls (fst state)
         = service_calls p
           ++ map (fun i => Call_view_information
                              (pose (ViewSpace.getView (view_space_ p)
                                       (nth i cands 0%nat))))
                (viable_positions k costs)
      /\ length (snd state) = n
      /\ (forall i, (i < k)%nat ->
            nth i (snd state) [] = stored_information w costs i)
      /\ (forall i, (k <= i)%nat -> nth i (snd state) [] = [])).
  assert (H : P n (fold_left (information_step w cands costs) (seq 0 n)
                     (p, repeat [] n))).
  { apply for_loop_invariant; unfold P.
    - unfold viable_positions. cbn [fst snd seq filter map].
      rewrite repeat_length, app_nil_r.
      split; [reflexivity|]. split; [reflexivity|]. split; [reflexivity|].
      split; [intros; lia|]. intros i _. apply nth_repeat.
    - intros k [p' information] Hk (Hrest & Hcalls & Hlen & Hlow & Hhigh).
      cbn [fst snd] in *. unfold information_step.
      rewrite viable_positions_S.
      destruct (is_invalid_cost (nth k costs 0)) eqn:Ev; cbn [fst snd].
      + rewrite app_nil_r.
        split; [assumption|]. split; [assumption|]. split; [assumption|].
        split.
        * intros i Hi. destruct (Nat.eq_dec i k) as [->|Hne].
          -- rewrite Hhigh by lia. unfold stored_information. now rewrite Ev.
          -- apply Hlow. lia.
        * intros i Hi. apply Hhigh. lia.
      + assert (Hvs : view_space_ p' = view_space_ p)
          by (unfold without_calls in Hrest; congruence).
        destruct (information_reply w k) as [values|] eqn:Er;
          cbn [getViewInformation fst snd].
        * split; [exact Hrest|]. split.
          { cbn [service_calls call_service].
            rewrite Hcalls, Hvs, map_app, app_assoc. reflexivity. }
          split; [now rewrite vector_set_length|]. split.
          -- intros i Hi. destruct (Nat.eq_dec i k) as [->|Hne].
             ++ rewrite vector_set_nth_same by lia.
                unfold stored_information. now rewrite Ev, Er.
             ++ rewrite vector_set_nth_other by congruence. apply Hlow. lia.
          -- intros i Hi. rewrite vector_set_nth_other by lia.
             apply Hhigh. lia.
        * split; [exact Hrest|]. split.
          { cbn [service_calls call_service].
            rewrite Hcalls, Hvs, map_app, app_assoc. reflexivity. }
          split; [now rewrite vector_set_length|]. split.
          -- intros i Hi. destruct (Nat.eq_dec i k) as [->|Hne].
             ++ rewrite vector_set_nth_same by lia.
                unfold stored_information. rewrite Ev, Er.
                apply Hhigh. lia.
             ++ rewrite vector_set_nth_other by congruence. apply Hlow. lia.
          -- intros i Hi. rewrite vector_set_nth_other by lia.
             apply Hhigh. lia. }
  unfold P in H. destruct H as (H1 & H2 & H3 & H4 & _).
  repeat split; assumption.
Qed.

(** ** What a round records *)

Lemma nth_map_seq {A : Type} (f : nat -> A) (n i : nat) (d : A) :
  (i < n)%nat -> nth i (map f (seq 0 n)) d = f i.
Proof.
  intro H. rewrite (nth_indep _ d (f 0%nat))
    by (rewrite length_map, length_seq; exact H).
  rewrite (map_nth f (seq 0 n) 0%nat). rewrite seq_nth by exact H.
  reflexivity.
Qed.

Lemma spinOnce_planner_core (due : list string) (p : ViewPlanner) :
  planner_core (spinOnce p due) = planner_core p.
Proof.
  pose proof (spinOnce_planner_data due p) as H.
  unfold planner_data in H. unfold planner_core. congruence.
Qed.

Lemma pause_loop_planner_core (spins : list (list string)) :
  forall p p' spins',
    pause_loop spins p = Ok (p', spins') -> planner_core p' = planner_core p.
Proof.
  induction spins as [|due spins IH]; intros p p' spins' H; cbn in H;
    [discriminate|].
  destruct (pause_ (spinOnce p due)).
  - rewrite (IH _ _ _ H). apply spinOnce_planner_core.
  - inversion H; subst. apply spinOnce_planner_core.
Qed.

Lemma pauseIfRequested_planner_core (spins : list (list string))
    (p p' : ViewPlanner) (spins' : list (list string)) :
  pauseIfRequested spins p = Ok (p', spins') ->
  planner_core p' = planner_core p.
Proof.
  unfold pauseIfRequested. destruct (pause_ p).
  - apply pause_loop_planner_core.
  - intro H. inversion H; subst. reflexivity.
Qed.

Lemma retrieveData_loop_planner_core (replies : list (option ReceiveInfo)) :
  forall receive_info spins p p' replies' spins',
    retrieveData_loop replies receive_info spins p = Ok (p', replies', spins') ->
    planner_core p' = planner_core p.
Proof.
  induction replies as [|reply replies IH];
    intros receive_info spins p p' replies' spins' H; cbn in H;
    [discriminate|].
  destruct (retrieveData receive_info reply) as [succeeded info].
  destruct (retrieval_failed succeeded info).
  - destruct (next_spin spins) as [due rest].
    destruct (abort_loop_ _).
    + inversion H; subst. now rewrite spinOnce_planner_core.
    + apply IH in H. rewrite H. now rewrite spinOnce_planner_core.
  - inversion H; subst. reflexivity.
Qed.

Lemma retrieveDataAndWait_planner_core (replies : list (option ReceiveInfo))
    (spins : list (list string)) (p : ViewPlanner)
    (r : Waited (option ReceiveInfo)) :
  retrieveDataAndWait replies spins p = Ok r ->
  planner_core (planner_after r) = planner_core p.
Proof.
  unfold retrieveDataAndWait. intro H.
  apply bind_Ok in H. destruct H as ([[p' replies'] spins'] & Hloop & H).
  apply retrieveData_loop_planner_core in Hloop.
  destruct (abort_loop_ p'); inversion H; subst; cbn; exact Hloop.
Qed.

Lemma moveTo_loop_planner_core (target : View) (replies : list (option bool)) :
  forall moved spins p p' replies' spins',
    moveTo_loop target replies moved spins p = Ok (p', replies', spins') ->
    planner_core p' = planner_core p.
Proof.
  induction replies as [|reply replies IH];
    intros moved spins p p' replies' spins' H; cbn in H; [discriminate|].
  destruct (moveTo moved reply) as [succeeded moved'].
  destruct (movement_failed succeeded moved').
  - destruct (next_spin spins) as [due rest].
    destruct (abort_loop_ _).
    + inversion H; subst. now rewrite spinOnce_planner_core.
    + apply IH in H. rewrite H. now rewrite spinOnce_planner_core.
  - inversion H; subst. reflexivity.
Qed.

Lemma moveToAndWait_planner_core (target : View) (replies : list (option bool))
    (spins : list (list string)) (p : ViewPlanner) (r : Waited (option bool)) :
  moveToAndWait target replies spins p = Ok r ->
  planner_core (planner_after r) = planner_core p.
Proof.
  unfold moveToAndWait. intro H.
  apply bind_Ok in H. destruct H as ([[p' replies'] spins'] & Hloop & H).
  apply moveTo_loop_planner_core in Hloop.
  destruct (abort_loop_ p'); inversion H; subst; cbn; exact Hloop.
Qed.

Lemma saveNBVData_without_fields (p : ViewPlanner) (nbv_index : nat)
    (summary : ReturnValueInformation) (cost : Q) (information_gain : list Q) :
  saveNBVData p nbv_index summary cost information_gain None None
  = set_planning_data p
      (planning_data_ p
       ++ [plain_row p nbv_index summary cost information_gain]).
Proof. reflexivity. Qed.

(** The cost vector the loop builds is the one the replies determine. *)
Lemma movement_costs_round_costs (w : RoundInputs) (p : ViewPlanner) :
  snd (movement_costs w (determineAvailableViewSpace p) p)
  = round_costs w (length (determineAvailableViewSpace p)).
Proof.
  pose proof (cost_loop_invariant_holds w p (determineAvailableViewSpace p)
                (candidates_in_range p)) as H.
  destruct (movement_costs w (determineAvailableViewSpace p) p)
    as [p' costs].
  destruct H as (Hlen & _ & _ & _ & _ & Hcost & _). cbn [snd].
  apply (nth_ext _ _ 0 0).
  - unfold round_costs. now rewrite length_map, length_seq.
  - intros i Hi. rewrite Hlen in Hi. unfold round_costs.
    rewrite nth_map_seq by exact Hi. apply Hcost, Hi.
Qed.

Lemma expected_informations_round_information (w : RoundInputs)
    (views_to_consider : list nat) (p : ViewPlanner) :
  snd (expected_informations w views_to_consider
         (round_costs w (length views_to_consider)) p)
  = round_information w (length views_to_consider).
Proof.
  destruct (expected_informations_spec w views_to_consider
              (round_costs w (length views_to_consider)) p)
    as (_ & _ & Hlen & Hnth).
  apply (nth_ext _ _ [] []).
  - unfold round_information. now rewrite length_map, length_seq.
  - intros i Hi. rewrite Hlen in Hi. unfold round_information.
    rewrite nth_map_seq by exact Hi. apply Hnth, Hi.
Qed.

(** The returns only depend on the planner through its weights. *)
Lemma calculate_returns_weights (a b : ViewPlanner) (n : nat) (costs : list Q)
    (information : list (list Q)) :
  cost_weight_ a = cost_weight_ b ->
  information_weights_ a = information_weights_ b ->
  calculate_returns a n costs information
  = calculate_returns b n costs information.
Proof.
  intros Hc Hw. unfold calculate_returns.
  generalize (repeat 0 n). generalize (seq 0 n).
  induction l as [|i l IH]; intro acc; [reflexivity|].
  cbn [fold_left]. rewrite IH. f_equal.
  unfold return_step, calculateReturn. now rewrite Hc, Hw.
Qed.

Lemma plain_row_same_views (a b : ViewPlanner) (nbv_index : nat)
    (summary : ReturnValueInformation) (cost : Q) (information_gain : list Q) :
  ViewSpace.getView (view_space_ a) nbv_index
  = ViewSpace.getView (view_space_ b) nbv_index ->
  plain_row a nbv_index summary cost information_gain
  = plain_row b nbv_index summary cost information_gain.
Proof. intro H. unfold plain_row. now rewrite H. Qed.

Lemma nbv_scan_S (n : nat) (costs view_returns : list Q) :
  nbv_scan (S n) costs view_returns
  = nbv_scan_step costs view_returns (nbv_scan n costs view_returns) n.
Proof.
  unfold nbv_scan. rewrite seq_S, fold_left_app. reflexivity.
Qed.

(** Once the scan has selected a candidate, its best return is strictly
    above its runner-up. *)
Lemma nbv_scan_margin_positive (n : nat) (costs view_returns : list Q) (k : nat) :
  nbv_index (nbv_scan n costs view_returns) = Some k ->
  second_highest (nbv_scan n costs view_returns)
  < highest_return (nbv_scan n costs view_returns).
Proof.
  induction n as [|n IH]; [discriminate|].
  rewrite nbv_scan_S. unfold nbv_scan_step.
  destruct (is_invalid_cost (nth n costs 0)); [exact IH|].
  destruct (Qgtb (nth n view_returns 0)
              (highest_return (nbv_scan n costs view_returns))) eqn:E;
    [|exact IH].
  intros _. cbn [second_highest highest_return]. apply Qgtb_true, E.
Qed.

Section Records.

Variable StdError_mean : list Q -> Q.
Variable StdError_variance : list Q -> Q.
Variable sqrt : Q -> Q.

(** A round that returns has selected a position [k] in its scan, has
    recorded exactly one row, the plain row of position [k] with the summary
    of the round's returns, and has not left the loop through [break]. *)
Lemma planning_round_records (w : RoundInputs) (p p' : ViewPlanner)
    (broke : bool) :
  planning_round StdError_mean StdError_variance sqrt w p = Ok (p', broke) ->
  let n := length (determineAvailableViewSpace p) in
  exists k,
    nbv_index (round_scan w p) = Some k
    /\ broke = false
    /\ planning_data_ p'
       = planning_data_ p
         ++ [plain_row p k
               (return_information StdError_mean StdError_variance sqrt
                  (round_scan w p) (round_returns w p))
               (nth k (round_costs w n) 0)
               (nth k (round_information w n) [])].
Proof.
  intros H n. unfold planning_round in H.
  apply bind_Ok in H. destruct H as ([p0 spins0] & Hpause0 & H).
  apply pauseIfRequested_planner_core in Hpause0.
  assert (Hvs0 : view_space_ p0 = view_space_ p)
    by (unfold planner_core in Hpause0; congruence).
  assert (Hcands : determineAvailableViewSpace p0
                   = determineAvailableViewSpace p)
    by (unfold determineAvailableViewSpace; now rewrite Hvs0).
  pose proof (cost_loop_invariant_holds w p0 (determineAvailableViewSpace p0)
                (candidates_in_range p0)) as Hinv.
  pose proof (movement_costs_round_costs w p0) as Hcosts.
  destruct (movement_costs w (determineAvailableViewSpace p0) p0)
    as [p1 costs].
  cbn [snd] in Hcosts. subst costs.
  destruct Hinv as (_ & _ & Hout & Hview & _ & _ & _).
  rewrite Hcands in *. fold n in H |- *.
  apply bind_Ok in H. destruct H as ([p2 spins2] & Hpause2 & H).
  apply pauseIfRequested_planner_core in Hpause2.
  pose proof (expected_informations_spec w (determineAvailableViewSpace p)
                (round_costs w n) p2) as (Hinfo & _ & _ & _).
  pose proof (expected_informations_round_information w
                (determineAvailableViewSpace p) p2) as Hinformation.
  fold n in Hinformation.
  destruct (expected_informations w (determineAvailableViewSpace p)
              (round_costs w n) p2) as [p3 information].
  cbn [fst snd] in Hinfo, Hinformation. subst information.
  apply bind_Ok in H. destruct H as ([p4 spins4] & Hpause4 & H).
  apply pauseIfRequested_planner_core in Hpause4.
  unfold planner_core in Hpause0, Hpause2, Hpause4.
  unfold without_calls in Hinfo. unfold outside_cost_loop in Hout.
  assert (Hreturns : calculate_returns p4 n (round_costs w n)
                       (round_information w n) = round_returns w p).
  { unfold round_returns. fold n.
    apply calculate_returns_weights; congruence. }
  rewrite Hreturns in H.
  change (nbv_scan n (round_costs w n) (round_returns w p))
    with (round_scan w p) in H.
  destruct (nbv_index (round_scan w p)) as [k|]; [|discriminate].
  exists k. split; [reflexivity|].
  cbn [terminationCriteriaFulfilled] in H.
  apply bind_Ok in H. destruct H as (moved & Hmoved & H).
  apply moveToAndWait_planner_core in Hmoved.
  apply bind_Ok in H. destruct H as (retrieved & Hretrieved & H).
  apply retrieveDataAndWait_planner_core in Hretrieved.
  destruct (next_spin (spins_left retrieved)) as [due rest].
  inversion H; subst p' broke. split; [reflexivity|].
  pose proof (spinOnce_planner_core due (planner_after retrieved)) as Hspin.
  unfold planner_core in Hspin, Hretrieved, Hmoved.
  rewrite saveNBVData_without_fields in Hmoved.
  cbn [cost_weight_ information_weights_ planning_data_names_ planning_data_
       view_space_ current_view_ set_planning_data] in Hmoved.
  assert (Hrows : planning_data_ p4 = planning_data_ p) by congruence.
  assert (Hrow : forall s c g, plain_row p4 k s c g = plain_row p k s c g).
  { intros s c g. apply plain_row_same_views.
    replace (view_space_ p4) with (view_space_ p1) by congruence.
    rewrite Hview. now rewrite Hvs0. }
  rewrite Hrow, Hrows in Hmoved. congruence.
Qed.

(** The row a round has recorded, value by value from the eighth on. *)
Lemma planning_round_recorded_summary (w : RoundInputs) (p p' : ViewPlanner)
    (broke : bool) :
  planning_round StdError_mean StdError_variance sqrt w p = Ok (p', broke) ->
  (exists k, nbv_index (round_scan w p) = Some k)
  /\ nth 7 (recorded_row p') 0 = highest_return (round_scan w p)
  /\ nth 8 (recorded_row p') 0
     = highest_return (round_scan w p) - second_highest (round_scan w p)
  /\ nth 9 (recorded_row p') 0 = StdError_mean (round_returns w p)
  /\ nth 10 (recorded_row p') 0
     = sqrt (StdError_variance (round_returns w p)).
Proof.
  intro H. apply planning_round_records in H. cbv zeta in H.
  destruct H as (k & Hk & _ & Hrows).
  split; [exists k; exact Hk|].
  unfold recorded_row. rewrite Hrows, last_last.
  repeat split; reflexivity.
Qed.

(** C2, as the code has it: in every round that records a row, the margin
    it records is the best return of the scan minus its runner-up; it is
    not negative, indeed above zero; and when the round has exactly one
    cost-viable candidate it is that candidate's return, the runner-up being
    the initial 0. *)
Theorem winning_margin_of_round :
  forall (w : RoundInputs) (p p' : ViewPlanner) (broke : bool),
    planning_round StdError_mean StdError_variance sqrt w p
    = Ok (p', broke) ->
    let n := length (determineAvailableViewSpace p) in
    let margin := nth 8 (recorded_row p') 0 in
    0 <= margin
    /\ 0 < margin
    /\ margin
       = highest_return (round_scan w p) - second_highest (round_scan w p)
    /\ (forall k, viable_positions n (round_costs w n) = [k] ->
          margin == nth k (round_returns w p) 0).
Proof.
  intros w p p' broke H n margin.
  apply planning_round_recorded_summary in H.
  destruct H as ((k & Hk) & _ & Hmargin & _).
  unfold margin. rewrite Hmargin.
  assert (Hpos : 0 < highest_return (round_scan w p)
                     - second_highest (round_scan w p)).
  { unfold Qminus. rewrite <- Qlt_minus_iff.
    apply (nbv_scan_margin_positive _ _ _ k). exact Hk. }
  split; [apply Qlt_le_weak, Hpos|]. split; [exact Hpos|].
  split; [reflexivity|].
  intros j Hj. unfold round_scan in Hk |- *. fold n in Hk |- *.
  rewrite nbv_scan_over_viable in Hk |- *. rewrite Hj in Hk |- *.
  cbn [fold_left] in Hk |- *. unfold nbv_scan_step in Hk |- *.
  destruct (is_invalid_cost (nth j (round_costs w n) 0));
    [discriminate Hk|].
  cbn [nbv_scan_start highest_return] in Hk |- *.
  destruct (Qgtb (nth j (round_returns w p) 0) 0); [|discriminate Hk].
  cbn [highest_return second_highest]. apply Qplus_0_r.
Qed.


End Records.

(** C2, refuted as stated: cost weight 1, first metric weight 2, one view;
    the cost service replies cost 1 without exception and the information
    service replies [3].  The round returns; its only candidate is
    cost-viable with return 5, and the margin the round records is
    5 - 0 = 5, not 0. *)
Lemma winning_margin_counterexample :
  ~ recorded_margin_nonnegative_and_zero_below_two
      (fun _ => 0) (fun _ => 0) (fun x => x)
      calm_inputs (example_planner [example_view 0]).
Proof.
  intro H.
  destruct (H (after_round calm_inputs (example_planner [example_view 0]))
              false) as [_ Hzero]; [vm_compute; reflexivity|].
  assert (L : (viable_count
                 (length (determineAvailableViewSpace
                            (example_planner [example_view 0])))
                 (round_costs calm_inputs
                    (length (determineAvailableViewSpace
                               (example_planner [example_view 0])))) < 2)%nat)
    by (vm_compute; lia).
  specialize (Hzero L). vm_compute in Hzero. discriminate Hzero.
Qed.

Lemma winning_margin_of_round_witness :
  let p := example_planner [example_view 0] in
  let p' := after_round calm_inputs p in
  viable_positions (length (determineAvailableViewSpace p))
    (round_costs calm_inputs (length (determineAvailableViewSpace p)))
  = [0%nat]
  /\ nth 8 (recorded_row p') 0 == nth 0 (round_returns calm_inputs p) 0.
Proof.
  intros p p'. split; [vm_compute; reflexivity|].
  assert (H : planning_round (fun _ => 0) (fun _ => 0) (fun x => x)
                calm_inputs p = Ok (p', false))
    by (vm_compute; reflexivity).
  pose proof (winning_margin_of_round (fun _ => 0) (fun _ => 0) (fun x => x)
                calm_inputs p p' false H) as T.
  cbv zeta in T. destruct T as (_ & _ & _ & T).
  apply (T 0%nat). vm_compute. reflexivity.
Defined.



(** ** The data recorder *)

Lemma find_name_fresh (names : list string) (name : string) (i : nat) :
  ~ In name names -> find_name names name i = None.
Proof.
  revert i. induction names as [|n names IH]; intros i H; cbn; [reflexivity|].
  destruct (String.eqb_spec n name) as [->|Hne].
  - exfalso. apply H. now left.
  - apply IH. intro Hin. apply H. now right.
Qed.

Lemma find_name_snoc (names : list string) (last_name name : string) (i : nat) :
  find_name (names ++ [last_name]) name i
  = match find_name names name i with
    | Some k => Some k
    | None => if (last_name =? name)%string
              then Some (i + length names)%nat
              else None
    end.
Proof.
  revert i. induction names as [|n names IH]; intro i; cbn.
  - rewrite Nat.add_0_r. reflexivity.
  - destruct (n =? name)%string; [reflexivity|].
    rewrite IH, Nat.add_succ_comm. reflexivity.
Qed.

Lemma vector_resize_length (v : list Q) (n : nat) :
  length (vector_resize v n) = n.
Proof.
  unfold vector_resize. rewrite length_app, length_firstn, repeat_length. lia.
Qed.

Lemma vector_resize_nth_error_old (v : list Q) (n j : nat) :
  (j < length v)%nat -> (length v <= n)%nat ->
  nth_error (vector_resize v n) j = nth_error v j.
Proof.
  intros Hj Hn. unfold vector_resize.
  rewrite firstn_all2 by exact Hn. apply nth_error_app1, Hj.
Qed.

Lemma vector_resize_nth_error_new (v : list Q) (n j : nat) :
  (length v <= j)%nat -> (j < n)%nat ->
  nth_error (vector_resize v n) j = Some 0.
Proof.
  intros Hj Hn. unfold vector_resize.
  rewrite firstn_all2 by lia. rewrite nth_error_app2 by exact Hj.
  apply nth_error_repeat. lia.
Qed.

Lemma written_row_length (row : list Q) (index : nat) (value : Q) :
  length (written_row row index value) = Nat.max (length row) (index + 1).
Proof.
  unfold written_row. rewrite vector_set_length.
  destruct (Nat.leb_spec (length row) index).
  - rewrite vector_resize_length. lia.
  - lia.
Qed.

Lemma written_row_at (row : list Q) (index : nat) (value : Q) :
  nth_error (written_row row index value) index = Some value.
Proof.
  unfold written_row. apply vector_set_nth_error_same.
  destruct (Nat.leb_spec (length row) index).
  - rewrite vector_resize_length. lia.
  - lia.
Qed.

Lemma written_row_old (row : list Q) (index j : nat) (value : Q) :
  j <> index -> (j < length row)%nat ->
  nth_error (written_row row index value) j = nth_error row j.
Proof.
  intros Hne Hj. unfold written_row.
  rewrite vector_set_nth_error_other by congruence.
  destruct (Nat.leb_spec (length row) index); [|reflexivity].
  apply vector_resize_nth_error_old; lia.
Qed.

Lemma written_row_gap (row : list Q) (index j : nat) (value : Q) :
  (length row <= j)%nat -> (j < index)%nat ->
  nth_error (written_row row index value) j = Some 0.
Proof.
  intros Hj Hlt. unfold written_row.
  rewrite vector_set_nth_error_other by lia.
  destruct (Nat.leb_spec (length row) index); [|lia].
  apply vector_resize_nth_error_new; lia.
Qed.

Lemma written_row_beyond (row : list Q) (index j : nat) (value : Q) :
  (length row <= j)%nat -> (index < j)%nat ->
  nth_error (written_row row index value) j = None.
Proof.
  intros Hj Hlt. apply nth_error_None. rewrite written_row_length. lia.
Qed.

(** Recording one row with two extra fields, the first at a known column
    or new, the second new. *)
Lemma getIndexForAdditionalField_new (p : ViewPlanner) (name : string) :
  find_name (planning_data_names_ p) name 0 = None ->
  getIndexForAdditionalField p name
  = (length (planning_data_names_ p),
     set_planning_data_names p (planning_data_names_ p ++ [name])).
Proof.
  intro H. unfold getIndexForAdditionalField. rewrite H.
  cbn [planning_data_names_ set_planning_data_names].
  rewrite length_app. cbn [length]. f_equal. lia.
Qed.

Lemma getIndexForAdditionalField_known (p : ViewPlanner) (name : string)
    (column : nat) :
  find_name (planning_data_names_ p) name 0 = Some column ->
  getIndexForAdditionalField p name = (column, p).
Proof.
  intro H. unfold getIndexForAdditionalField. now rewrite H.
Qed.

Lemma saveNBVData_two_fields (p p1 p2 : ViewPlanner) (nbv_index : nat)
    (summary : ReturnValueInformation) (cost : Q) (information_gain : list Q)
    (x y : string) (vx vy : Q) (ix iy : nat) :
  getIndexForAdditionalField p x = (ix, p1) ->
  getIndexForAdditionalField p1 y = (iy, p2) ->
  saveNBVData p nbv_index summary cost information_gain
    (Some [x; y]) (Some [vx; vy])
  = set_planning_data p2
      (planning_data_ p2
       ++ [written_row
             (written_row
                (plain_row p nbv_index summary cost information_gain) ix vx)
             iy vy]).
Proof.
  intros Hx Hy. unfold saveNBVData.
  cbn [length Nat.eqb seq fold_left]. unfold additional_field_step.
  cbn [nth]. rewrite Hx, Hy. reflexivity.
Qed.

Lemma plain_row_length (p : ViewPlanner) (nbv_index : nat)
    (summary : ReturnValueInformation) (cost : Q) (information_gain : list Q) :
  length (plain_row p nbv_index summary cost information_gain)
  = (12 + length information_gain)%nat.
Proof. reflexivity. Qed.

Lemma nth_after {A : Type} (l : list A) (x : A) (l' : list A) (d : A) :
  nth (length l) (l ++ x :: l') d = x.
Proof.
  rewrite app_nth2 by lia. now rewrite Nat.sub_diag.
Qed.

(** C6, as the code has it: after rows with the extra fields A, B and
    A, C the file has the columns A, B, C after the old ones; the second
    row shows 0 under B; the first row shows its values under A and B and
    ends there, with no value under C. *)
Theorem recorder_columns_after_two_rows :
  forall (p : ViewPlanner) (A B C : string) (a b a' c : Q)
         (nbv_index1 : nat) (summary1 : ReturnValueInformation) (cost1 : Q)
         (information_gain1 : list Q)
         (nbv_index2 : nat) (summary2 : ReturnValueInformation) (cost2 : Q)
         (information_gain2 : list Q),
    ~ In A (planning_data_names_ p) ->
    ~ In B (planning_data_names_ p) ->
    ~ In C (planning_data_names_ p) ->
    A <> B -> A <> C -> B <> C ->
    (12 + length information_gain1 <= length (planning_data_names_ p))%nat ->
    (12 + length information_gain2 <= length (planning_data_names_ p))%nat ->
    let file :=
      record_two_rows p A B C a b a' c
        nbv_index1 summary1 cost1 information_gain1
        nbv_index2 summary2 cost2 information_gain2 in
    let first := length (planning_data_ p) in
    let second := S first in
    name_line file = planning_data_names_ p ++ [A; B; C]
    /\ length (value_lines file) = S second
    /\ table_cell file first A = Some a
    /\ table_cell file first B = Some b
    /\ table_cell file first C = None
    /\ table_cell file second A = Some a'
    /\ table_cell file second B = Some 0
    /\ table_cell file second C = Some c.
Proof.
  intros p A B C a b a' c k1 s1 c1 g1 k2 s2 c2 g2
         HA HB HC HAB HAC HBC Hg1 Hg2 file first second.
  set (names := planning_data_names_ p) in *.
  set (m := length names) in *.
  assert (EAB : (A =? B)%string = false) by now apply String.eqb_neq.
  assert (EAC : (A =? C)%string = false) by now apply String.eqb_neq.
  assert (EBC : (B =? C)%string = false) by now apply String.eqb_neq.
  assert (EBA : (B =? A)%string = false)
    by (apply String.eqb_neq; congruence).
  assert (ECA : (C =? A)%string = false)
    by (apply String.eqb_neq; congruence).
  assert (ECB : (C =? B)%string = false)
    by (apply String.eqb_neq; congruence).
  pose proof (find_name_fresh names A 0 HA) as FA.
  pose proof (find_name_fresh names B 0 HB) as FB.
  pose proof (find_name_fresh names C 0 HC) as FC.
  (* the first row *)
  set (pA := set_planning_data_names p (names ++ [A])).
  set (pAB := set_planning_data_names pA ((names ++ [A]) ++ [B])).
  set (row1 := written_row
                 (written_row (plain_row p k1 s1 c1 g1) m a) (m + 1) b).
  assert (H1 : saveNBVData p k1 s1 c1 g1 (Some [A; B]) (Some [a; b])
               = set_planning_data pAB (planning_data_ p ++ [row1])).
  { rewrite (saveNBVData_two_fields p pA pAB k1 s1 c1 g1 A B a b m (m + 1)).
    - reflexivity.
    - apply getIndexForAdditionalField_new. exact FA.
    - unfold pAB. replace (m + 1)%nat with (length (planning_data_names_ pA))
        by (cbn; rewrite length_app; reflexivity).
      apply getIndexForAdditionalField_new. cbn [planning_data_names_ pA
        set_planning_data_names].
      rewrite find_name_snoc. fold names. now rewrite FB, EAB. }
  (* the second row *)
  set (p1 := set_planning_data pAB (planning_data_ p ++ [row1])) in *.
  set (pC := set_planning_data_names p1 (((names ++ [A]) ++ [B]) ++ [C])).
  set (row2 := written_row
                 (written_row (plain_row p1 k2 s2 c2 g2) m a') (m + 2) c).
  assert (H2 : saveNBVData p1 k2 s2 c2 g2 (Some [A; C]) (Some [a'; c])
               = set_planning_data pC
                   ((planning_data_ p ++ [row1]) ++ [row2])).
  { rewrite (saveNBVData_two_fields p1 p1 pC k2 s2 c2 g2 A C a' c m (m + 2)).
    - reflexivity.
    - apply getIndexForAdditionalField_known.
      cbn [planning_data_names_ p1 pAB set_planning_data
           set_planning_data_names].
      rewrite !find_name_snoc. fold names. rewrite FA, String.eqb_refl.
      reflexivity.
    - unfold pC. replace (m + 2)%nat with (length (planning_data_names_ p1))
        by (cbn; rewrite !length_app; cbn [length]; fold names; fold m; lia).
      apply getIndexForAdditionalField_new.
      cbn [planning_data_names_ p1 pAB set_planning_data
           set_planning_data_names].
      rewrite !find_name_snoc. fold names. now rewrite FC, EAC, EBC. }
  assert (Hfile : file = {| name_line := ((names ++ [A]) ++ [B]) ++ [C];
                            value_lines :=
                              (planning_data_ p ++ [row1]) ++ [row2] |}).
  { unfold file, record_two_rows. rewrite H1. fold p1. rewrite H2.
    unfold flushed_table, saveDataToFile.
    cbn [written_files set_written_files]. rewrite last_last. reflexivity. }
  assert (Lplain1 : (length (plain_row p k1 s1 c1 g1) <= m)%nat)
    by (rewrite plain_row_length; exact Hg1).
  assert (Lplain2 : (length (plain_row p1 k2 s2 c2 g2) <= m)%nat)
    by (rewrite plain_row_length; exact Hg2).
  assert (Crow1 : nth first (value_lines file) [] = row1).
  { rewrite Hfile. cbn [value_lines]. rewrite <- app_assoc. cbn [app].
    apply nth_after. }
  assert (Crow2 : nth second (value_lines file) [] = row2).
  { rewrite Hfile. cbn [value_lines].
    replace second with (length (planning_data_ p ++ [row1]))
      by (rewrite length_app; cbn [length]; unfold second, first; lia).
    apply nth_after. }
  assert (CA : find_name (name_line file) A 0 = Some m).
  { rewrite Hfile. cbn [name_line]. rewrite !find_name_snoc.
    now rewrite FA, String.eqb_refl. }
  assert (CB : find_name (name_line file) B 0 = Some (m + 1)%nat).
  { rewrite Hfile. cbn [name_line]. rewrite !find_name_snoc.
    rewrite FB, EAB, String.eqb_refl, length_app. reflexivity. }
  assert (CC : find_name (name_line file) C 0 = Some (m + 2)%nat).
  { rewrite Hfile. cbn [name_line]. rewrite !find_name_snoc.
    rewrite FC, EAC, EBC, String.eqb_refl, !length_app.
    cbn [length]. fold m. f_equal. lia. }
  assert (La1 : length (written_row (plain_row p k1 s1 c1 g1) m a)
                = (m + 1)%nat)
    by (rewrite written_row_length; lia).
  assert (La2 : length (written_row (plain_row p1 k2 s2 c2 g2) m a')
                = (m + 1)%nat)
    by (rewrite written_row_length; lia).
  unfold table_cell. rewrite CA, CB, CC, Crow1, Crow2.
  split.
  { rewrite Hfile. cbn [name_line]. rewrite <- !app_assoc. reflexivity. }
  split.
  { rewrite Hfile. cbn [value_lines]. rewrite !length_app. cbn [length].
    unfold second, first. lia. }
  unfold row1, row2. repeat split.
  - rewrite written_row_old by lia. apply written_row_at.
  - apply written_row_at.
  - apply written_row_beyond; lia.
  - rewrite written_row_old by lia. apply written_row_at.
  - apply written_row_gap; lia.
  - apply written_row_at.
Qed.

(** C6, refuted as stated: on the constructor's planner, rows with the
    extra fields A, B (values 10, 20) and A, C (values 11, 30) give a file
    whose first row has 23 values under 24 names: it shows nothing, and so
    not 0, under C. *)
Lemma recorder_backfill_counterexample :
  ~ backfilled example_table 0 1 "A" "B" "C".
Proof.
  intros (_ & (value & H & _) & _). vm_compute in H. discriminate H.
Qed.

Lemma recorder_columns_after_two_rows_witness :
  name_line example_table = base_planning_data_names ++ ["A"; "B"; "C"]%string
  /\ length (value_lines example_table) = 2%nat
  /\ table_cell example_table 0 "A" = Some 10
  /\ table_cell example_table 0 "B" = Some 20
  /\ table_cell example_table 0 "C" = None
  /\ table_cell example_table 1 "A" = Some 11
  /\ table_cell example_table 1 "B" = Some 0
  /\ table_cell example_table 1 "C" = Some 30.
Proof.
  apply (recorder_columns_after_two_rows (example_planner [example_view 0])
           "A" "B" "C" 10 20 11 30
           0 example_summary 1 [1; 2; 3; 4; 5; 6; 7; 8; 9]
           0 example_summary 1 [1; 2; 3; 4; 5; 6; 7; 8; 9]).
  - vm_compute. intuition discriminate.
  - vm_compute. intuition discriminate.
  - vm_compute. intuition discriminate.
  - discriminate.
  - discriminate.
  - discriminate.
  - vm_compute. lia.
  - vm_compute. lia.
Defined.

(** * Part IV: further properties of the code *)

(** ** More on the scan for the next best view *)

Lemma nbv_scan_selected_is_best_witness :
  nbv_index (nbv_scan 4 [1; -1; 1; 1] [5; 9; 7; 7]) = Some 2%nat
  /\ best_viable 4 [1; -1; 1; 1] [5; 9; 7; 7] 2.
Proof.
  split; [reflexivity|].
  apply (nbv_scan_selected_is_best 4 [1; -1; 1; 1] [5; 9; 7; 7] 2).
  reflexivity.
Defined.

Lemma nbv_scan_selects_iff_positive_witness :
  exists k, nbv_index (nbv_scan 2 [1; 1] [-3; 4]) = Some k.
Proof.
  apply (proj2 (nbv_scan_selects_iff_positive 2 [1; 1] [-3; 4])).
  exists 1%nat. split; [lia|]. split; reflexivity.
Defined.

(** X3: the runner-up the scan keeps is the best return it had seen before it
    reached the selected candidate, or the initial 0: a cost-viable candidate
    that comes after the selected one never counts, however close its
    return. *)
Theorem nbv_scan_runner_up :
  forall (n : nat) (costs view_returns : list Q) (k : nat),
    nbv_index (nbv_scan n costs view_returns) = Some k ->
    let runner_up := second_highest (nbv_scan n costs view_returns) in
    0 <= runner_up
    /\ (forall j, (j < k)%nat -> is_invalid_cost (nth j costs 0) = false ->
          nth j view_returns 0 <= runner_up)
    /\ (runner_up = 0
        \/ exists j, (j < k)%nat
                     /\ is_invalid_cost (nth j costs 0) = false
                     /\ runner_up = nth j view_returns 0).
Proof.
  intros n costs view_returns. induction n as [|n IH]; intros k Hk.
  - discriminate Hk.
  - rewrite nbv_scan_S in Hk |- *. unfold nbv_scan_step in Hk |- *.
    destruct (is_invalid_cost (nth n costs 0)) eqn:Ev; [now apply IH|].
    destruct (Qgtb (nth n view_returns 0)
                (highest_return (nbv_scan n costs view_returns))) eqn:Eg;
      [|now apply IH].
    cbn [nbv_index second_highest] in Hk |- *. inversion Hk; subst k.
    pose proof (nbv_scan_invariant n costs view_returns) as H.
    cbv zeta in H. destruct H as (H0 & Hsh & Hle & Hidx).
    split; [eapply Qle_trans; eassumption|]. split; [exact Hle|].
    destruct (nbv_index (nbv_scan n costs view_returns)) as [b|].
    + destruct Hidx as (Hb & Hvb & Heq & _). right. exists b. auto.
    + left. rewrite Hidx. reflexivity.
Qed.

Lemma nbv_scan_runner_up_witness :
  let runner_up := second_highest (nbv_scan 3 [1; 1; 1] [2; 5; 4]) in
  0 <= runner_up
  /\ (forall j, (j < 1)%nat ->
        is_invalid_cost (nth j [1; 1; 1] 0) = false ->
        nth j [2; 5; 4] 0 <= runner_up)
  /\ (runner_up = 0
      \/ exists j, (j < 1)%nat
                   /\ is_invalid_cost (nth j [1; 1; 1] 0) = false
                   /\ runner_up = nth j [2; 5; 4] 0).
Proof.
  apply (nbv_scan_runner_up 3 [1; 1; 1] [2; 5; 4] 1). reflexivity.
Defined.

(** ** The loop over the expected information, further *)

(** X5: the information phase sends one request per cost-viable candidate,
    in order, and none for an excluded one; it keeps the reply of a call
    that succeeded and leaves the vector empty where the call failed; it
    changes nothing else of the planner. *)
Theorem expected_informations_effect :
  forall (w : RoundInputs) (views_to_consider : list nat) (costs : list Q)
         (p : ViewPlanner),
    let after := expected_informations w views_to_consider costs p in
    without_calls (fst after) = without_calls p
    /\ service_calls (fst after)
       = service_calls p
         ++ map (fun i => Call_view_information
                            (pose (ViewSpace.getView (view_space_ p)
                                     (nth i views_to_consider 0%nat))))
              (viable_positions (length views_to_consider) costs)
    /\ length (snd after) = length views_to_consider
    /\ forall i, (i < length views_to_consider)%nat ->
         nth i (snd after) [] = stored_information w costs i.
Proof.
  exact expected_informations_spec.
Qed.

(** X6: a cost-viable candidate whose information call failed gets the
    cost-only return: its information vector stays empty and
    [calculateReturn] adds nothing to the cost term. *)
Theorem failed_information_gives_cost_only_return :
  forall (w : RoundInputs) (views_to_consider : list nat) (costs : list Q)
         (p p' : ViewPlanner) (i : nat),
    (i < length views_to_consider)%nat ->
    is_invalid_cost (nth i costs 0) = false ->
    information_reply w i = None ->
    let information :=
      snd (expected_informations w views_to_consider costs p) in
    nth i information [] = []
    /\ nth i (calculate_returns p' (length views_to_consider) costs
                information) 0
       == cost_only_term (cost_weight_ p') (nth i costs 0).
Proof.
  intros w cands costs p p' i Hi Hv Hr information.
  destruct (expected_informations_spec w cands costs p)
    as (_ & _ & _ & Hinfo).
  fold information in Hinfo.
  assert (E : nth i information [] = []).
  { rewrite (Hinfo i Hi). unfold stored_information. now rewrite Hv, Hr. }
  split; [exact E|].
  destruct (calculate_returns_spec p' (length cands) costs information)
    as [_ Hret].
  rewrite (Hret i Hi). unfold stored_return. rewrite Hv, E.
  unfold calculateReturn, cost_only_term. cbn [length Nat.ltb Nat.leb seq
    fold_left fst]. ring.
Qed.

Lemma failed_information_gives_cost_only_return_witness :
  let w := {| cost_reply := fun _ => Some {| cost := 4; exception := NONE |};
              cost_description_start :=
                fun _ => {| cost := 0; exception := NONE |};
              information_reply := fun _ => None;
              move_replies := []; retrieve_replies := []; spins := [] |} in
  let p := example_planner [example_view 0] in
  let information := snd (expected_informations w [0%nat] [4] p) in
  nth 0 information [] = []
  /\ nth 0 (calculate_returns p (length [0%nat]) [4] information) 0
     == cost_only_term (cost_weight_ p) (nth 0 [4] 0).
Proof.
  intros w p.
  apply (failed_information_gives_cost_only_return w [0%nat] [4] p p 0%nat).
  - cbn. lia.
  - reflexivity.
  - reflexivity.
Defined.

(** ** More on the data recorder *)

Lemma find_name_Some (names : list string) (name : string) :
  forall i column,
    find_name names name i = Some column ->
    (i <= column)%nat /\ nth_error names (column - i) = Some name.
Proof.
  induction names as [|n names IH]; intros i column H; cbn in H;
    [discriminate|].
  destruct (String.eqb_spec n name) as [->|Hne].
  - inversion H; subst. rewrite Nat.sub_diag. split; [lia|reflexivity].
  - apply IH in H. destruct H as [Hle Hnth]. split; [lia|].
    replace (column - i)%nat with (S (column - S i)) by lia. exact Hnth.
Qed.

Lemma find_name_None (names : list string) (name : string) (i : nat) :
  find_name names name i = None -> ~ In name names.
Proof.
  revert i. induction names as [|n names IH]; intros i H; cbn in H.
  - intros [].
  - destruct (String.eqb_spec n name) as [->|Hne]; [discriminate|].
    intros [E|Hin]; [contradiction|]. exact (IH _ H Hin).
Qed.

Lemma find_name_column (names : list string) (name : string) (column : nat) :
  find_name names name 0 = Some column ->
  (column < length names)%nat /\ nth_error names column = Some name.
Proof.
  intro H. apply find_name_Some in H. destruct H as [_ H].
  rewrite Nat.sub_0_r in H. split; [|exact H].
  apply nth_error_Some. congruence.
Qed.

Lemma find_name_injective (names : list string) (a b : string) (column : nat) :
  find_name names a 0 = Some column -> find_name names b 0 = Some column ->
  a = b.
Proof.
  intros Ha Hb. apply find_name_column in Ha, Hb.
  destruct Ha as [_ Ha]. destruct Hb as [_ Hb]. congruence.
Qed.

Lemma find_name_snoc_known (names : list string) (last_name name : string)
    (column : nat) :
  find_name names name 0 = Some column ->
  find_name (names ++ [last_name]) name 0 = Some column.
Proof.
  intro H. rewrite find_name_snoc, H. reflexivity.
Qed.

(** [getIndexForAdditionalField] returns the column of the name in the
    names it leaves behind; a name that was there keeps its place and the
    planner is not changed; a new name is appended at the end; nothing but
    the names is touched; asking again gives the same answer. *)
Lemma getIndexForAdditionalField_spec :
  forall (p : ViewPlanner) (name : string),
    let index := fst (getIndexForAdditionalField p name) in
    let p' := snd (getIndexForAdditionalField p name) in
    find_name (planning_data_names_ p') name 0 = Some index
    /\ nth_error (planning_data_names_ p') index = Some name
    /\ (In name (planning_data_names_ p) /\ p' = p
        \/ ~ In name (planning_data_names_ p)
           /\ planning_data_names_ p' = planning_data_names_ p ++ [name]
           /\ index = length (planning_data_names_ p))
    /\ without_names p' = without_names p
    /\ getIndexForAdditionalField p' name = (index, p').
Proof.
  intros p name index p'. unfold index, p', getIndexForAdditionalField.
  destruct (find_name (planning_data_names_ p) name 0) as [column|] eqn:E;
    cbn [fst snd].
  - pose proof (find_name_column _ _ _ E) as [Hlt Hnth].
    split; [exact E|]. split; [exact Hnth|]. split.
    { left. split; [|reflexivity]. eapply nth_error_In, Hnth. }
    split; [reflexivity|]. now rewrite E.
  - cbn [planning_data_names_ set_planning_data_names].
    assert (Hidx : (length (planning_data_names_ p ++ [name]) - 1)%nat
                   = length (planning_data_names_ p))
      by (rewrite length_app; cbn [length]; lia).
    rewrite Hidx.
    assert (Hfind : find_name (planning_data_names_ p ++ [name]) name 0
                    = Some (length (planning_data_names_ p)))
      by (rewrite find_name_snoc, E, String.eqb_refl; reflexivity).
    split; [exact Hfind|]. split.
    { rewrite nth_error_app2 by lia. now rewrite Nat.sub_diag. }
    split.
    { right. split; [eapply find_name_None, E|]. split; reflexivity. }
    split; [reflexivity|]. now rewrite Hfind.
Qed.

Lemma getIndexForAdditionalField_keeps_columns (p : ViewPlanner)
    (name other : string) (column : nat) :
  find_name (planning_data_names_ p) other 0 = Some column ->
  find_name (planning_data_names_ (snd (getIndexForAdditionalField p name)))
    other 0 = Some column.
Proof.
  intro H.
  destruct (getIndexForAdditionalField_spec p name)
    as (_ & _ & [[_ E]|(_ & E & _)] & _).
  - now rewrite E.
  - rewrite E. apply find_name_snoc_known, H.
Qed.

Lemma getIndexForAdditionalField_NoDup (p : ViewPlanner) (name : string) :
  NoDup (planning_data_names_ p) ->
  NoDup (planning_data_names_ (snd (getIndexForAdditionalField p name))).
Proof.
  intro H.
  destruct (getIndexForAdditionalField_spec p name)
    as (_ & _ & [[_ E]|(Hnew & E & _)] & _).
  - now rewrite E.
  - rewrite E. apply NoDup_app; [exact H | repeat constructor; intros [] |].
    intros x Hx [<-|[]]. exact (Hnew Hx).
Qed.

(** X7: [getIndexForAdditionalField] returns the column of the name in the
    names it leaves behind; a name that was there keeps its place and the
    planner is not changed; a new name is appended at the end; nothing but
    the names is touched; asking again gives the same answer. *)
Theorem getIndexForAdditionalField_returns_column :
  forall (p : ViewPlanner) (name : string),
    let index := fst (getIndexForAdditionalField p name) in
    let p' := snd (getIndexForAdditionalField p name) in
    find_name (planning_data_names_ p') name 0 = Some index
    /\ nth_error (planning_data_names_ p') index = Some name
    /\ (In name (planning_data_names_ p) /\ p' = p
        \/ ~ In name (planning_data_names_ p)
           /\ planning_data_names_ p' = planning_data_names_ p ++ [name]
           /\ index = length (planning_data_names_ p))
    /\ without_names p' = without_names p
    /\ getIndexForAdditionalField p' name = (index, p').
Proof.
  exact getIndexForAdditionalField_spec.
Qed.

Lemma written_row_firstn (row : list Q) (index m : nat) (value : Q) :
  (m <= index)%nat -> (m <= length row)%nat ->
  firstn m (written_row row index value) = firstn m row.
Proof.
  intros Hi Hm. apply nth_error_ext. intro j.
  rewrite !nth_error_firstn.
  destruct (Nat.ltb_spec j m) as [Hj|Hj]; [|reflexivity].
  apply written_row_old; lia.
Qed.

(** What the loop over the additional fields has done, for any names and
    values and any row it starts from. *)
Lemma record_fields_invariant (names : list string) (values : list Q)
    (p : ViewPlanner) (row : list Q) :
  let after := record_fields names values p row in
  (exists added,
     planning_data_names_ (fst after) = planning_data_names_ p ++ added
     /\ forall x, In x added -> In x names /\ ~ In x (planning_data_names_ p))
  /\ without_names (fst after) = without_names p
  /\ (length row <= length (snd after))%nat
  /\ ((length row <= length (planning_data_names_ p))%nat ->
        (length (snd after) <= length (planning_data_names_ (fst after)))%nat)
  /\ (NoDup (planning_data_names_ p) ->
        NoDup (planning_data_names_ (fst after)))
  /\ (NoDup names ->
        forall i, (i < length names)%nat ->
          exists column,
            find_name (planning_data_names_ (fst after))
              (nth i names ""%string) 0 = Some column
            /\ nth_error (snd after) column = Some (nth i values 0))
  /\ ((forall x, In x names -> ~ In x (planning_data_names_ p)) ->
        (length row <= length (planning_data_names_ p))%nat ->
        firstn (length row) (snd after) = row).
Proof.
  unfold record_fields.
  pose (P := fun (k : nat) (state : ViewPlanner * list Q) =>
    (exists added,
       planning_data_names_ (fst state) = planning_data_names_ p ++ added
       /\ forall x, In x added -> In x names /\ ~ In x (planning_data_names_ p))
    /\ without_names (fst state) = without_names p
    /\ (length row <= length (snd state))%nat
    /\ ((length row <= length (planning_data_names_ p))%nat ->
          (length (snd state) <= length (planning_data_names_ (fst state)))%nat)
    /\ (NoDup (planning_data_names_ p) ->
          NoDup (planning_data_names_ (fst state)))
    /\ (NoDup names ->
          forall i, (i < k)%nat ->
            exists column,
              find_name (planning_data_names_ (fst state))
                (nth i names ""%string) 0 = Some column
              /\ nth_error (snd state) column = Some (nth i values 0))
    /\ ((forall x, In x names -> ~ In x (planning_data_names_ p)) ->
          (length row <= length (planning_data_names_ p))%nat ->
          firstn (length row) (snd state) = row)).
  assert (H : P (length names)
                (fold_left (additional_field_step names values)
                   (seq 0 (length names)) (p, row))).
  { apply for_loop_invariant; unfold P; cbn [fst snd].
    - split; [exists []; rewrite app_nil_r; split; [reflexivity|intros x []]|].
      split; [reflexivity|]. split; [lia|]. split; [auto|]. split; [auto|].
      split; [intros _ i Hi; lia|]. intros _ _. apply firstn_all.
    - intros k [pk rowk] Hk (Hnames & Hrest & Hlen & Hfit & Hnd & Hread & Hold).
      cbn [fst snd] in *. unfold additional_field_step.
      set (x := nth k names ""%string).
      pose proof (getIndexForAdditionalField_spec pk x)
        as (Hfind & Hnth & Hcases & Hrest' & _).
      pose proof (getIndexForAdditionalField_keeps_columns pk x) as Hkeep.
      pose proof (getIndexForAdditionalField_NoDup pk x) as Hnd'.
      destruct (getIndexForAdditionalField pk x) as [c pk'].
      cbn [fst snd] in *.
      change (vector_set
                (if (length rowk <=? c)%nat
                 then vector_resize rowk (c + 1) else rowk) c
                (nth k values 0))
        with (written_row rowk c (nth k values 0)).
      cbn [fst snd].
      assert (Hc : (c < length (planning_data_names_ pk'))%nat)
        by (apply nth_error_Some; congruence).
      destruct Hnames as (added & Hadded & Hfrom).
      assert (Hnames' : exists added',
                planning_data_names_ pk' = planning_data_names_ p ++ added'
                /\ forall y, In y added' ->
                     In y names /\ ~ In y (planning_data_names_ p)).
      { destruct Hcases as [[_ ->]|(Hnew & E & _)].
        - exists added. auto.
        - exists (added ++ [x]). split.
          + rewrite E, Hadded, app_assoc. reflexivity.
          + intros y Hy. apply in_app_or in Hy. destruct Hy as [Hy|[<-|[]]].
            * apply Hfrom, Hy.
            * split; [apply nth_In; exact Hk|].
              intro Hin. apply Hnew. rewrite Hadded. apply in_or_app.
              now left. }
      split; [exact Hnames'|].
      split; [congruence|].
      split; [rewrite written_row_length; lia|].
      split.
      { intro Hf. specialize (Hfit Hf). rewrite written_row_length.
        assert (length (planning_data_names_ pk)
                <= length (planning_data_names_ pk'))%nat.
        { destruct Hcases as [[_ ->]|(_ & E & _)]; [lia|].
          rewrite E, length_app. lia. }
        lia. }
      split; [auto|].
      split.
      { intros Hdistinct i Hi. destruct (Nat.eq_dec i k) as [->|Hne].
        - exists c. split; [exact Hfind|]. apply written_row_at.
        - destruct (Hread Hdistinct i ltac:(lia)) as (ci & Hci & Hval).
          exists ci. split; [apply Hkeep, Hci|].
          assert (ci <> c).
          { intros ->. apply Hkeep in Hci.
            pose proof (find_name_injective _ _ _ _ Hci Hfind) as E.
            apply Hne.
            apply (proj1 (NoDup_nth names ""%string) Hdistinct); try lia.
            exact E. }
          rewrite written_row_old; [exact Hval|assumption|].
          apply nth_error_Some. congruence. }
      intros Hnew Hf. rewrite written_row_firstn; [auto| |exact Hlen].
      destruct Hnames' as (added' & E' & _).
      destruct (Nat.lt_ge_cases c (length (planning_data_names_ p)))
        as [Hlt|Hge]; [|lia].
      exfalso. apply (Hnew x); [apply nth_In; exact Hk|].
      rewrite E', nth_error_app1 in Hnth by exact Hlt.
      eapply nth_error_In, Hnth. }
  exact H.
Qed.

Lemma saveNBVData_with_fields (p : ViewPlanner) (nbv_index : nat)
    (summary : ReturnValueInformation) (cost : Q) (information_gain : list Q)
    (names : list string) (values : list Q) :
  length names = length values ->
  saveNBVData p nbv_index summary cost information_gain
    (Some names) (Some values)
  = let after := record_fields names values p
                   (plain_row p nbv_index summary cost information_gain) in
    set_planning_data (fst after) (planning_data_ (fst after) ++ [snd after]).
Proof.
  intro H. unfold saveNBVData, record_fields, plain_row.
  rewrite H, Nat.eqb_refl.
  destruct (fold_left _ _ _) as [p' row]. reflexivity.
Qed.

(** Additional fields are only recorded when both vectors are given
    and have the same size; otherwise they are dropped without notice and
    the row is the plain one: pose, summary, cost and information. *)
Lemma saveNBVData_unmatched_fields :
  forall (p : ViewPlanner) (nbv_index : nat)
         (summary : ReturnValueInformation) (cost : Q)
         (information_gain : list Q)
         (additional_field_names : option (list string))
         (additional_field_values : option (list Q)),
    (additional_field_names = None
     \/ additional_field_values = None
     \/ exists names values,
          additional_field_names = Some names
          /\ additional_field_values = Some values
          /\ length names <> length values) ->
    saveNBVData p nbv_index summary cost information_gain
      additional_field_names additional_field_values
    = set_planning_data p
        (planning_data_ p
         ++ [plain_row p nbv_index summary cost information_gain]).
Proof.
  intros p k s c g an av H. unfold saveNBVData, plain_row.
  destruct H as [->|[->|(names & values & -> & -> & Hne)]].
  - reflexivity.
  - destruct an; reflexivity.
  - apply Nat.eqb_neq in Hne. rewrite Hne. reflexivity.
Qed.

(** X8: additional fields are only recorded when both vectors are given
    and have the same size; otherwise they are dropped without notice and
    the row is the plain one: pose, summary, cost and information. *)
Theorem saveNBVData_drops_unmatched_fields :
  forall (p : ViewPlanner) (nbv_index : nat)
         (summary : ReturnValueInformation) (cost : Q)
         (information_gain : list Q)
         (additional_field_names : option (list string))
         (additional_field_values : option (list Q)),
    (additional_field_names = None
     \/ additional_field_values = None
     \/ exists names values,
          additional_field_names = Some names
          /\ additional_field_values = Some values
          /\ length names <> length values) ->
    saveNBVData p nbv_index summary cost information_gain
      additional_field_names additional_field_values
    = set_planning_data p
        (planning_data_ p
         ++ [plain_row p nbv_index summary cost information_gain]).
Proof.
  exact saveNBVData_unmatched_fields.
Qed.

Lemma saveNBVData_drops_unmatched_fields_witness :
  saveNBVData (example_planner [example_view 0]) 0 example_summary 1 [3]
    (Some ["A"; "B"]%string) (Some [10])
  = set_planning_data (example_planner [example_view 0])
      (planning_data_ (example_planner [example_view 0])
       ++ [plain_row (example_planner [example_view 0]) 0 example_summary
             1 [3]]).
Proof.
  apply (saveNBVData_drops_unmatched_fields
           (example_planner [example_view 0]) 0 example_summary 1 [3]
           (Some ["A"; "B"]%string) (Some [10])).
  right. right. exists ["A"; "B"]%string, [10].
  split; [reflexivity|]. split; [reflexivity|]. cbn. lia.
Defined.

(** X9: whatever additional fields are given, [saveNBVData] appends
    exactly one row and leaves the earlier rows as they are, only ever
    appends to the column names, and touches nothing else; column names
    that were distinct stay distinct; and when the plain row is not longer
    than the line of names and no earlier row was, no row is afterwards. *)
Theorem saveNBVData_keeps_table_shape :
  forall (p : ViewPlanner) (nbv_index : nat)
         (summary : ReturnValueInformation) (cost : Q)
         (information_gain : list Q)
         (additional_field_names : option (list string))
         (additional_field_values : option (list Q)),
    let p' := saveNBVData p nbv_index summary cost information_gain
                additional_field_names additional_field_values in
    (exists row, planning_data_ p' = planning_data_ p ++ [row])
    /\ (exists added,
          planning_data_names_ p' = planning_data_names_ p ++ added)
    /\ (control_flags p', cost_weight_ p', information_weights_ p',
        view_space_ p', current_view_ p', written_files p', service_calls p')
       = (control_flags p, cost_weight_ p, information_weights_ p,
          view_space_ p, current_view_ p, written_files p, service_calls p)
    /\ (NoDup (planning_data_names_ p) -> NoDup (planning_data_names_ p'))
    /\ ((12 + length information_gain <= length (planning_data_names_ p))%nat
        -> rows_fit_names p -> rows_fit_names p').
Proof.
  intros p k s c g an av p'.
  assert (Hplain : p' = set_planning_data p
                          (planning_data_ p ++ [plain_row p k s c g]) ->
          (exists row, planning_data_ p' = planning_data_ p ++ [row])
    /\ (exists added,
          planning_data_names_ p' = planning_data_names_ p ++ added)
    /\ (control_flags p', cost_weight_ p', information_weights_ p',
        view_space_ p', current_view_ p', written_files p', service_calls p')
       = (control_flags p, cost_weight_ p, information_weights_ p,
          view_space_ p, current_view_ p, written_files p, service_calls p)
    /\ (NoDup (planning_data_names_ p) -> NoDup (planning_data_names_ p'))
    /\ ((12 + length g <= length (planning_data_names_ p))%nat
        -> rows_fit_names p -> rows_fit_names p')).
  { intros ->. split; [eexists; reflexivity|].
    split; [exists []; cbn; now rewrite app_nil_r|].
    split; [reflexivity|]. split; [auto|].
    intros Hg Hfit. unfold rows_fit_names in *.
    cbn [planning_data_ planning_data_names_ set_planning_data].
    apply Forall_app. split; [exact Hfit|]. constructor; [|constructor].
    rewrite plain_row_length. exact Hg. }
  destruct an as [names|]; [|apply Hplain; reflexivity].
  destruct av as [values|]; [|apply Hplain; reflexivity].
  destruct (Nat.eq_dec (length names) (length values)) as [Hlen|Hlen].
  - unfold p'. rewrite saveNBVData_with_fields by exact Hlen. cbv zeta.
    pose proof (record_fields_invariant names values p (plain_row p k s c g))
      as (Hnames & Hrest & Hlong & Hfit & Hnd & _ & _).
    destruct (record_fields names values p (plain_row p k s c g))
      as [p1 row]. cbn [fst snd] in *.
    cbn [planning_data_ planning_data_names_ set_planning_data control_flags
         start_ pause_ stop_and_print_ reinit_ abort_loop_ cost_weight_
         information_weights_ view_space_ current_view_ written_files
         service_calls].
    unfold without_names, control_flags in Hrest.
    assert (Hdata : planning_data_ p1 = planning_data_ p) by congruence.
    split; [exists row; now rewrite Hdata|].
    split; [destruct Hnames as (added & E & _); exists added; exact E|].
    split; [unfold control_flags; cbn [start_ pause_ stop_and_print_ reinit_ abort_loop_ set_planning_data]; congruence|]. split; [exact Hnd|].
    intros Hg Hrows. unfold rows_fit_names in *.
    cbn [planning_data_ planning_data_names_ set_planning_data].
    rewrite Hdata. destruct Hnames as (added & E & _).
    apply Forall_app. split.
    + eapply Forall_impl; [|exact Hrows]. intros r Hr. cbv beta in Hr |- *.
      rewrite E, length_app. lia.
    + constructor; [|constructor]. apply Hfit.
      rewrite plain_row_length. exact Hg.
  - apply Hplain. unfold p'. apply saveNBVData_unmatched_fields.
    right. right. exists names, values. auto.
Qed.

Lemma saveNBVData_keeps_table_shape_witness :
  NoDup (planning_data_names_
           (saveNBVData (example_planner [example_view 0]) 0 example_summary
              1 [3] (Some ["A"; "cost"]%string) (Some [10; 20]))).
Proof.
  apply (saveNBVData_keeps_table_shape (example_planner [example_view 0]) 0
           example_summary 1 [3] (Some ["A"; "cost"]%string)
           (Some [10; 20])).
  vm_compute.
  repeat (constructor; [cbn; intuition discriminate|]). constructor.
Defined.

(** X10: the values of additional fields with distinct names are read back
    from the written file: in the new row, under each field's name, stands
    the field's value.  This holds as well where a field carries the name of
    a column that is there already, such as "cost": the value recorded in
    that column is then replaced. *)
Theorem saveNBVData_fields_read_back :
  forall (p : ViewPlanner) (nbv_index : nat)
         (summary : ReturnValueInformation) (cost : Q)
         (information_gain : list Q) (names : list string) (values : list Q),
    length names = length values ->
    NoDup names ->
    let file :=
      flushed_table (saveNBVData p nbv_index summary cost information_gain
                       (Some names) (Some values)) in
    forall i, (i < length names)%nat ->
      table_cell file (length (planning_data_ p)) (nth i names ""%string)
      = Some (nth i values 0).
Proof.
  intros p k s c g names values Hlen Hnd file i Hi.
  unfold file. rewrite saveNBVData_with_fields by exact Hlen. cbv zeta.
  pose proof (record_fields_invariant names values p (plain_row p k s c g))
    as (_ & Hrest & _ & _ & _ & Hread & _).
  destruct (record_fields names values p (plain_row p k s c g)) as [p1 row].
  cbn [fst snd] in *.
  assert (Hdata : planning_data_ p1 = planning_data_ p)
    by (unfold without_names in Hrest; congruence).
  destruct (Hread Hnd i Hi) as (column & Hcol & Hval).
  unfold flushed_table, saveDataToFile, table_cell.
  cbn [written_files set_written_files]. rewrite last_last.
  cbn [name_line value_lines planning_data_names_ planning_data_
       set_planning_data].
  rewrite Hcol, Hdata, nth_after. exact Hval.
Qed.

Lemma saveNBVData_fields_read_back_witness :
  table_cell
    (flushed_table
       (saveNBVData (example_planner [example_view 0]) 0 example_summary 1
          [3] (Some ["A"; "cost"]%string) (Some [10; 20])))
    (length (planning_data_ (example_planner [example_view 0])))
    (nth 1 ["A"; "cost"]%string ""%string)
  = Some (nth 1 [10; 20] 0).
Proof.
  apply (saveNBVData_fields_read_back (example_planner [example_view 0]) 0
           example_summary 1 [3] ["A"; "cost"]%string [10; 20]).
  - reflexivity.
  - repeat (constructor; [cbn; intuition discriminate|]). constructor.
  - cbn. lia.
Defined.

(** X11: additional fields whose names are all new leave the plain part of
    the row as it is, provided the plain row is not longer than the line of
    names: the new values go behind it. *)
Theorem saveNBVData_new_fields_keep_plain_row :
  forall (p : ViewPlanner) (nbv_index : nat)
         (summary : ReturnValueInformation) (cost : Q)
         (information_gain : list Q) (names : list string) (values : list Q),
    length names = length values ->
    (forall x, In x names -> ~ In x (planning_data_names_ p)) ->
    (12 + length information_gain <= length (planning_data_names_ p))%nat ->
    let row :=
      last (planning_data_
              (saveNBVData p nbv_index summary cost information_gain
                 (Some names) (Some values))) [] in
    firstn (12 + length information_gain) row
    = plain_row p nbv_index summary cost information_gain.
Proof.
  intros p k s c g names values Hlen Hnew Hfit row.
  unfold row. rewrite saveNBVData_with_fields by exact Hlen. cbv zeta.
  pose proof (record_fields_invariant names values p (plain_row p k s c g))
    as (_ & _ & _ & _ & _ & _ & Hold).
  destruct (record_fields names values p (plain_row p k s c g)) as [p1 r].
  cbn [fst snd planning_data_ set_planning_data] in *.
  rewrite last_last. rewrite plain_row_length in Hold. apply Hold; assumption.
Qed.

Lemma saveNBVData_new_fields_keep_plain_row_witness :
  firstn (12 + length [3])
    (last (planning_data_
             (saveNBVData (example_planner [example_view 0]) 0
                example_summary 1 [3] (Some ["A"; "B"]%string)
                (Some [10; 20]))) [])
  = plain_row (example_planner [example_view 0]) 0 example_summary 1 [3].
Proof.
  apply (saveNBVData_new_fields_keep_plain_row
           (example_planner [example_view 0]) 0 example_summary 1 [3]
           ["A"; "B"]%string [10; 20]).
  - reflexivity.
  - intros x Hx Hin. cbn in Hx, Hin.
    destruct Hx as [<-|[<-|[]]]; intuition discriminate.
  - vm_compute. lia.
Defined.

(** ** Spinning and pausing, further *)

Lemma spinOnce_app (p : ViewPlanner) (a b : list string) :
  spinOnce p (a ++ b) = spinOnce (spinOnce p a) b.
Proof. unfold spinOnce. apply fold_left_app. Qed.

Lemma next_spin_delivered (spins : list (list string)) :
  fst (next_spin spins) = delivered 1 spins
  /\ snd (next_spin spins) = skipn 1 spins.
Proof.
  unfold delivered. destruct spins as [|due spins']; cbn; [auto|].
  now rewrite app_nil_r.
Qed.

Lemma delivered_add (a b : nat) (spins : list (list string)) :
  delivered a spins ++ delivered b (skipn a spins) = delivered (a + b) spins.
Proof.
  unfold delivered. revert spins. induction a as [|a IH]; intro spins.
  - reflexivity.
  - destruct spins as [|due spins'].
    + cbn. now rewrite firstn_nil.
    + cbn [Nat.add firstn skipn concat]. rewrite <- app_assoc. f_equal.
      apply IH.
Qed.

Lemma pause_commandCallback (p : ViewPlanner) (token : string) :
  pause_ (commandCallback p token)
  = if (token =? "PAUSE")%string then true
    else if ((token =? "START") || (token =? "STOP_AND_PRINT"))%string
         then false
         else pause_ p.
Proof.
  unfold commandCallback.
  repeat match goal with
  | |- context [if String.eqb token ?s then _ else _] =>
      destruct (String.eqb_spec token s) as [->|?]
  end; reflexivity.
Qed.

Lemma spinOnce_holds_pause (due : list string) (p : ViewPlanner) :
  holds_pause due -> pause_ p = true -> pause_ (spinOnce p due) = true.
Proof.
  unfold spinOnce. revert p.
  induction due as [|token due IH]; intros p [Hs Ht] Hp; [exact Hp|].
  cbn [fold_left]. apply IH.
  - split; intro H; [apply Hs|apply Ht]; now right.
  - rewrite pause_commandCallback.
    destruct (String.eqb_spec token "PAUSE"); [reflexivity|].
    destruct (String.eqb_spec token "START") as [->|_];
      [exfalso; apply Hs; now left|].
    destruct (String.eqb_spec token "STOP_AND_PRINT") as [->|_];
      [exfalso; apply Ht; now left|].
    exact Hp.
Qed.

Lemma spinOnce_no_pause (due : list string) (p : ViewPlanner) :
  ~ In "PAUSE"%string due -> pause_ p = false ->
  pause_ (spinOnce p due) = false.
Proof.
  unfold spinOnce. revert p.
  induction due as [|token due IH]; intros p Hn Hp; [exact Hp|].
  cbn [fold_left]. apply IH.
  - intro H. apply Hn. now right.
  - rewrite pause_commandCallback.
    destruct (String.eqb_spec token "PAUSE") as [->|_];
      [exfalso; apply Hn; now left|].
    destruct (_ || _)%bool; [reflexivity|exact Hp].
Qed.

Lemma pause_loop_anatomy (spins : list (list string)) :
  forall p p' spins',
    pause_loop spins p = Ok (p', spins') ->
    exists j,
      (0 < j <= length spins)%nat
      /\ spins' = skipn j spins
      /\ p' = spinOnce p (delivered j spins)
      /\ pause_ p' = false
      /\ forall i, (0 < i < j)%nat ->
           pause_ (spinOnce p (delivered i spins)) = true.
Proof.
  induction spins as [|due spins IH]; intros p p' spins' H; cbn in H;
    [discriminate|].
  destruct (pause_ (spinOnce p due)) eqn:E.
  - apply IH in H. destruct H as (j & Hj & Hs & Hp & Hoff & Hon).
    exists (S j). split; [cbn [length]; lia|]. split; [exact Hs|].
    unfold delivered in *. cbn [firstn concat]. rewrite spinOnce_app.
    split; [exact Hp|]. split; [exact Hoff|].
    intros i Hi. destruct i as [|i]; [lia|]. cbn [firstn concat].
    rewrite spinOnce_app. destruct i as [|i].
    + cbn. exact E.
    + apply Hon. lia.
  - inversion H; subst. exists 1%nat. split; [cbn [length]; lia|].
    split; [reflexivity|]. unfold delivered. cbn [firstn concat].
    rewrite app_nil_r. split; [reflexivity|]. split; [exact E|].
    intros i Hi. lia.
Qed.

(** X12: [pauseIfRequested] does nothing when the planner is not paused.
    When it is, nothing happens but the handling of the commands that
    arrive: the function takes spin after spin, at least one, and returns
    after the first that leaves the pause flag off.  It never returns with
    the flag on. *)
Theorem pauseIfRequested_anatomy :
  forall (spins : list (list string)) (p p' : ViewPlanner)
         (spins' : list (list string)),
    pauseIfRequested spins p = Ok (p', spins') ->
    exists j,
      (j <= length spins)%nat
      /\ spins' = skipn j spins
      /\ p' = spinOnce p (delivered j spins)
      /\ pause_ p' = false
      /\ (j = 0%nat <-> pause_ p = false)
      /\ forall i, (0 < i < j)%nat ->
           pause_ (spinOnce p (delivered i spins)) = true.
Proof.
  intros spins p p' spins' H. unfold pauseIfRequested in H.
  destruct (pause_ p) eqn:E.
  - apply pause_loop_anatomy in H.
    destruct H as (j & Hj & Hs & Hp & Hoff & Hon).
    exists j. split; [lia|]. split; [exact Hs|]. split; [exact Hp|].
    split; [exact Hoff|]. split; [|exact Hon].
    split; [lia|discriminate].
  - inversion H; subst. exists 0%nat. split; [lia|].
    split; [reflexivity|]. split; [reflexivity|]. split; [exact E|].
    split; [tauto|]. intros i Hi. lia.
Qed.

Lemma pauseIfRequested_anatomy_witness :
  exists j,
    (j <= length [["REINIT"]; ["START"]; ["PAUSE"]]%string)%nat
    /\ [["PAUSE"%string]] = skipn j [["REINIT"]; ["START"]; ["PAUSE"]]%string
    /\ spinOnce (commandCallback (example_planner []) "PAUSE")
         ["REINIT"; "START"]%string
       = spinOnce (commandCallback (example_planner []) "PAUSE")
           (delivered j [["REINIT"]; ["START"]; ["PAUSE"]]%string)
    /\ pause_ (spinOnce (commandCallback (example_planner []) "PAUSE")
                 ["REINIT"; "START"]%string) = false
    /\ (j = 0%nat
        <-> pause_ (commandCallback (example_planner []) "PAUSE") = false)
    /\ forall i, (0 < i < j)%nat ->
         pause_ (spinOnce (commandCallback (example_planner []) "PAUSE")
                   (delivered i [["REINIT"]; ["START"]; ["PAUSE"]]%string))
         = true.
Proof.
  apply (pauseIfRequested_anatomy [["REINIT"]; ["START"]; ["PAUSE"]]%string
           (commandCallback (example_planner []) "PAUSE")).
  reflexivity.
Defined.

(** X13: a pause is held by every spin that brings neither START nor
    STOP_AND_PRINT, whatever else it brings (REINIT, ABORT_LOOP, PRINT_DATA,
    PAUSE, unknown tokens), and is ended by the first spin in which a START
    or a STOP_AND_PRINT is not followed by a PAUSE: a stop request resumes
    the loop like a start. *)
Theorem pause_ends_with_start_or_stop :
  forall (held : list (list string)) (before after : list string)
         (token : string) (rest : list (list string)) (p : ViewPlanner),
    pause_ p = true ->
    Forall holds_pause held ->
    token = "START"%string \/ token = "STOP_AND_PRINT"%string ->
    ~ In "PAUSE"%string after ->
    pauseIfRequested (held ++ (before ++ token :: after) :: rest) p
    = Ok (spinOnce p (concat held ++ before ++ token :: after), rest).
Proof.
  intros held before after token rest p Hp Hheld Htoken Hafter.
  unfold pauseIfRequested. rewrite Hp.
  revert p Hp. induction Hheld as [|due held Hdue _ IH]; intros p Hp.
  - cbn [app concat pause_loop].
    assert (E : pause_ (spinOnce p (before ++ token :: after)) = false).
    { rewrite spinOnce_app. change (token :: after) with ([token] ++ after).
      rewrite spinOnce_app. apply spinOnce_no_pause; [exact Hafter|].
      cbn. rewrite pause_commandCallback.
      destruct Htoken as [->| ->]; reflexivity. }
    rewrite E. reflexivity.
  - cbn [app concat pause_loop].
    rewrite (spinOnce_holds_pause due p Hdue Hp).
    rewrite IH by (apply spinOnce_holds_pause; assumption).
    rewrite <- app_assoc. rewrite (spinOnce_app p due). reflexivity.
Qed.

Lemma pause_ends_with_start_or_stop_witness :
  pauseIfRequested
    ([["ABORT_LOOP"%string; "PRINT_DATA"%string]; ["PAUSE"%string]]
     ++ (["REINIT"%string] ++ "STOP_AND_PRINT"%string :: ["REINIT"%string])
        :: [["START"%string]])
    (commandCallback (example_planner []) "PAUSE")
  = Ok (spinOnce (commandCallback (example_planner []) "PAUSE")
          (concat [["ABORT_LOOP"%string; "PRINT_DATA"%string];
                   ["PAUSE"%string]]
           ++ ["REINIT"%string] ++ "STOP_AND_PRINT"%string
              :: ["REINIT"%string]),
        [["START"%string]]).
Proof.
  apply (pause_ends_with_start_or_stop
           [["ABORT_LOOP"%string; "PRINT_DATA"%string]; ["PAUSE"%string]]
           ["REINIT"%string] ["REINIT"%string] "STOP_AND_PRINT"
           [["START"%string]] (commandCallback (example_planner []) "PAUSE")).
  - reflexivity.
  - repeat constructor; cbn; intuition discriminate.
  - now right.
  - cbn. intuition discriminate.
Defined.

Lemma one_mode_commandCallback (p : ViewPlanner) (token : string) :
  one_mode_at_most p -> one_mode_at_most (commandCallback p token).
Proof.
  intro H. unfold commandCallback.
  repeat (match goal with
          | |- context [if ?c then _ else _] => destruct c
          end; [try (exact H); repeat split|]).
  exact H.
Qed.

(** X23: when at most one of the flags [start_], [pause_] and
    [stop_and_print_] is set, as it is after the constructor, the same holds
    after any sequence of commands, known or unknown. *)
Theorem run_flags_exclude_each_other :
  forall (p : ViewPlanner) (due : list string),
    one_mode_at_most p -> one_mode_at_most (spinOnce p due).
Proof.
  intros p due. revert p. unfold spinOnce.
  induction due as [|token due IH]; intros p H; [exact H|].
  cbn [fold_left]. apply IH. now apply one_mode_commandCallback.
Qed.

Lemma run_flags_exclude_each_other_witness :
  one_mode_at_most
    (spinOnce (new_ViewPlanner None (fun _ => None))
       [ "PAUSE"; "REINIT"; "START"; "go"; "STOP_AND_PRINT";
         "PRINT_DATA" ]%string).
Proof.
  apply (run_flags_exclude_each_other (new_ViewPlanner None (fun _ => None))).
  vm_compute. repeat split.
Defined.

(** ** More on the retry helpers *)

Lemma run_flags_commandCallback (a b : ViewPlanner) (token : string) :
  run_flags a = run_flags b ->
  run_flags (commandCallback a token) = run_flags (commandCallback b token).
Proof.
  unfold run_flags, commandCallback. intro H.
  repeat match goal with
  | |- context [if String.eqb token ?s then _ else _] =>
      destruct (String.eqb token s)
  end; cbn; congruence.
Qed.

Lemma run_flags_spinOnce (due : list string) (a b : ViewPlanner) :
  run_flags a = run_flags b ->
  run_flags (spinOnce a due) = run_flags (spinOnce b due).
Proof.
  unfold spinOnce. revert a b.
  induction due as [|token due IH]; intros a b H; [exact H|].
  cbn [fold_left]. apply IH, run_flags_commandCallback, H.
Qed.

Lemma spinOnce_abort_stays (due : list string) (p : ViewPlanner) :
  abort_loop_ p = true -> abort_loop_ (spinOnce p due) = true.
Proof. intro H. rewrite spinOnce_abort_loop, H. reflexivity. Qed.

Lemma spinOnce_abort_was_off (due : list string) (p : ViewPlanner) :
  abort_loop_ (spinOnce p due) = false -> abort_loop_ p = false.
Proof.
  rewrite spinOnce_abort_loop. destruct (abort_loop_ p); [discriminate|auto].
Qed.

Lemma retrieval_succeeded (receive_info : option ReceiveInfo)
    (reply : option ReceiveInfo) :
  retrieval_failed (fst (retrieveData receive_info reply))
    (snd (retrieveData receive_info reply)) = false ->
  reply = Some RECEIVED.
Proof.
  destruct reply as [[|status]|]; cbn; auto; discriminate.
Qed.

Lemma retrieval_failed_reply (receive_info : option ReceiveInfo)
    (reply : option ReceiveInfo) :
  retrieval_failed (fst (retrieveData receive_info reply))
    (snd (retrieveData receive_info reply)) = true ->
  retrieval_reply_fails reply.
Proof.
  destruct reply as [[|status]|]; cbn; auto; discriminate.
Qed.

Lemma movement_succeeded (moved : option bool) (reply : option bool) :
  movement_failed (fst (moveTo moved reply)) (snd (moveTo moved reply))
  = false ->
  reply = Some true.
Proof.
  destruct reply as [[|]|]; cbn; auto; discriminate.
Qed.

Lemma movement_failed_reply (moved : option bool) (reply : option bool) :
  movement_failed (fst (moveTo moved reply)) (snd (moveTo moved reply))
  = true ->
  move_reply_fails reply.
Proof.
  destruct reply as [[|]|]; cbn; auto; discriminate.
Qed.

Lemma retrieveData_loop_account (replies : list (option ReceiveInfo)) :
  forall receive_info spins p p' replies' spins',
    retrieveData_loop replies receive_info spins p
    = Ok (p', replies', spins') ->
    exists consumed j,
      replies = consumed ++ replies'
      /\ consumed <> []
      /\ spins' = skipn j spins
      /\ planner_core p' = planner_core p
      /\ service_calls p'
         = service_calls p ++ repeat Call_retrieve_data (length consumed)
      /\ run_flags p' = run_flags (spinOnce p (delivered j spins))
      /\ (abort_loop_ p' = false ->
            abort_loop_ p = false
            /\ exists failures,
                 consumed = failures ++ [Some RECEIVED]
                 /\ Forall retrieval_reply_fails failures)
      /\ (abort_loop_ p = true ->
            abort_loop_ p' = true /\ length consumed = 1%nat).
Proof.
  induction replies as [|reply replies IH];
    intros receive_info spins p p' replies' spins' H; cbn in H;
    [discriminate|].
  pose proof (retrieval_succeeded receive_info reply) as Hgood.
  pose proof (retrieval_failed_reply receive_info reply) as Hbad.
  destruct (retrieveData receive_info reply) as [succeeded info].
  cbn [fst snd] in Hgood, Hbad.
  destruct (retrieval_failed succeeded info).
  - pose proof (next_spin_delivered spins) as [Hdue Hrest].
    destruct (next_spin spins) as [due rest]. cbn [fst snd] in Hdue, Hrest.
    set (p1 := call_service p Call_retrieve_data) in *.
    destruct (abort_loop_ (spinOnce p1 due)) eqn:Ea.
    + inversion H; subst p' replies' spins'.
      exists [reply], 1%nat. split; [reflexivity|]. split; [discriminate|].
      split; [exact Hrest|].
      split; [now rewrite spinOnce_planner_core|].
      split; [now rewrite spinOnce_service_calls|].
      split; [rewrite <- Hdue; now apply run_flags_spinOnce|].
      split; [congruence|]. intros _. split; [exact Ea|reflexivity].
    + apply IH in H.
      destruct H as (consumed & j & Hc & Hne & Hs & Hcore & Hcalls & Hflags
                     & Hoff & Hon).
      exists (reply :: consumed), (1 + j)%nat.
      split; [cbn; now rewrite Hc|]. split; [discriminate|].
      split; [rewrite Hs, Hrest, skipn_skipn; f_equal; lia|].
      split; [rewrite Hcore; now rewrite spinOnce_planner_core|].
      split.
      { rewrite Hcalls, spinOnce_service_calls. unfold p1.
        cbn [service_calls call_service length repeat].
        now rewrite <- app_assoc. }
      split.
      { rewrite Hflags, <- delivered_add, <- Hdue, <- Hrest.
        rewrite (spinOnce_app p). apply run_flags_spinOnce.
        now apply run_flags_spinOnce. }
      split.
      * intro Hp'. destruct (Hoff Hp') as (_ & failures & Hf & Hall).
        split; [apply (spinOnce_abort_was_off due p1), Ea|].
        exists (reply :: failures). split; [cbn; now rewrite Hf|].
        constructor; [now apply Hbad|exact Hall].
      * intro Hp. exfalso.
        assert (abort_loop_ (spinOnce p1 due) = true)
          by (apply spinOnce_abort_stays; exact Hp).
        congruence.
  - inversion H; subst p' replies' spins'.
    exists [reply], 0%nat. split; [reflexivity|]. split; [discriminate|].
    split; [reflexivity|]. split; [reflexivity|]. split; [reflexivity|].
    split; [reflexivity|]. split.
    + intro Hp. split; [exact Hp|]. exists []. split; [|constructor].
      cbn. f_equal. now apply Hgood.
    + intro Hp. split; [exact Hp|reflexivity].
Qed.

Lemma moveTo_loop_account (target : View) (replies : list (option bool)) :
  forall moved spins p p' replies' spins',
    moveTo_loop target replies moved spins p
    = Ok (p', replies', spins') ->
    exists consumed j,
      replies = consumed ++ replies'
      /\ consumed <> []
      /\ spins' = skipn j spins
      /\ planner_core p' = planner_core p
      /\ service_calls p'
         = service_calls p ++ repeat (Call_move_to target) (length consumed)
      /\ run_flags p' = run_flags (spinOnce p (delivered j spins))
      /\ (abort_loop_ p' = false ->
            abort_loop_ p = false
            /\ exists failures,
                 consumed = failures ++ [Some true]
                 /\ Forall move_reply_fails failures)
      /\ (abort_loop_ p = true ->
            abort_loop_ p' = true /\ length consumed = 1%nat).
Proof.
  induction replies as [|reply replies IH];
    intros moved spins p p' replies' spins' H; cbn in H;
    [discriminate|].
  pose proof (movement_succeeded moved reply) as Hgood.
  pose proof (movement_failed_reply moved reply) as Hbad.
  destruct (moveTo moved reply) as [succeeded info].
  cbn [fst snd] in Hgood, Hbad.
  destruct (movement_failed succeeded info).
  - pose proof (next_spin_delivered spins) as [Hdue Hrest].
    destruct (next_spin spins) as [due rest]. cbn [fst snd] in Hdue, Hrest.
    set (p1 := call_service p (Call_move_to target)) in *.
    destruct (abort_loop_ (spinOnce p1 due)) eqn:Ea.
    + inversion H; subst p' replies' spins'.
      exists [reply], 1%nat. split; [reflexivity|]. split; [discriminate|].
      split; [exact Hrest|].
      split; [now rewrite spinOnce_planner_core|].
      split; [now rewrite spinOnce_service_calls|].
      split; [rewrite <- Hdue; now apply run_flags_spinOnce|].
      split; [congruence|]. intros _. split; [exact Ea|reflexivity].
    + apply IH in H.
      destruct H as (consumed & j & Hc & Hne & Hs & Hcore & Hcalls & Hflags
                     & Hoff & Hon).
      exists (reply :: consumed), (1 + j)%nat.
      split; [cbn; now rewrite Hc|]. split; [discriminate|].
      split; [rewrite Hs, Hrest, skipn_skipn; f_equal; lia|].
      split; [rewrite Hcore; now rewrite spinOnce_planner_core|].
      split.
      { rewrite Hcalls, spinOnce_service_calls. unfold p1.
        cbn [service_calls call_service length repeat].
        now rewrite <- app_assoc. }
      split.
      { rewrite Hflags, <- delivered_add, <- Hdue, <- Hrest.
        rewrite (spinOnce_app p). apply run_flags_spinOnce.
        now apply run_flags_spinOnce. }
      split.
      * intro Hp'. destruct (Hoff Hp') as (_ & failures & Hf & Hall).
        split; [apply (spinOnce_abort_was_off due p1), Ea|].
        exists (reply :: failures). split; [cbn; now rewrite Hf|].
        constructor; [now apply Hbad|exact Hall].
      * intro Hp. exfalso.
        assert (abort_loop_ (spinOnce p1 due) = true)
          by (apply spinOnce_abort_stays; exact Hp).
        congruence.
  - inversion H; subst p' replies' spins'.
    exists [reply], 0%nat. split; [reflexivity|]. split; [discriminate|].
    split; [reflexivity|]. split; [reflexivity|]. split; [reflexivity|].
    split; [reflexivity|]. split.
    + intro Hp. split; [exact Hp|]. exists []. split; [|constructor].
      cbn. f_equal. now apply Hgood.
    + intro Hp. split; [exact Hp|reflexivity].
Qed.

Lemma retrieveDataAndWait_account (replies : list (option ReceiveInfo))
    (spins : list (list string)) (p : ViewPlanner)
    (r : Waited (option ReceiveInfo)) :
  retrieveDataAndWait replies spins p = Ok r ->
  retry_account _ retrieval_reply_fails (Some RECEIVED) Call_retrieve_data
    replies spins p r.
Proof.
  unfold retrieveDataAndWait. intro H.
  apply bind_Ok in H. destruct H as ([[p' replies'] spins'] & Hloop & H).
  apply retrieveData_loop_account in Hloop.
  destruct Hloop as (consumed & j & Hc & Hne & Hs & Hcore & Hcalls & Hflags
                     & Hoff & Hon).
  exists consumed, j.
  destruct (abort_loop_ p') eqn:Ea; inversion H; subst r;
    cbn [replies_left spins_left planner_after report].
  - repeat (split; [assumption || reflexivity|]).
    split; [discriminate|]. intro Hp. split; [reflexivity|]. now apply Hon.
  - repeat (split; [assumption || reflexivity|]).
    split; [intros _; now apply Hoff|].
    intro Hp. destruct (Hon Hp) as [Ht _]. congruence.
Qed.

Lemma moveToAndWait_account (target : View) (replies : list (option bool))
    (spins : list (list string)) (p : ViewPlanner)
    (r : Waited (option bool)) :
  moveToAndWait target replies spins p = Ok r ->
  retry_account _ move_reply_fails (Some true) (Call_move_to target)
    replies spins p r.
Proof.
  unfold moveToAndWait. intro H.
  apply bind_Ok in H. destruct H as ([[p' replies'] spins'] & Hloop & H).
  apply moveTo_loop_account in Hloop.
  destruct Hloop as (consumed & j & Hc & Hne & Hs & Hcore & Hcalls & Hflags
                     & Hoff & Hon).
  exists consumed, j.
  destruct (abort_loop_ p') eqn:Ea; inversion H; subst r;
    cbn [replies_left spins_left planner_after report].
  - repeat (split; [assumption || reflexivity|]).
    split; [discriminate|]. intro Hp. split; [reflexivity|]. now apply Hon.
  - repeat (split; [assumption || reflexivity|]).
    split; [intros _; now apply Hoff|].
    intro Hp. destruct (Hon Hp) as [Ht _]. congruence.
Qed.

(** X15: whenever a retry helper returns, it has sent one request per
    reply it used up, at least one, and no other; it has changed neither the
    weights, the recorded names and rows, the view space nor the current
    view; the start, pause, stop and reinit flags are what the commands that
    arrived during the wait made of them; the abort flag is off; and the
    success message is only logged when no abort request was pending on
    entry and the last reply, after failures only, was the good one. *)
Theorem retry_helpers_account :
  (forall replies spins p r,
     retrieveDataAndWait replies spins p = Ok r ->
     retry_account _ retrieval_reply_fails (Some RECEIVED) Call_retrieve_data
       replies spins p r)
  /\ (forall target replies spins p r,
        moveToAndWait target replies spins p = Ok r ->
        retry_account _ move_reply_fails (Some true) (Call_move_to target)
          replies spins p r).
Proof.
  split.
  - exact retrieveDataAndWait_account.
  - exact moveToAndWait_account.
Qed.

(** X14: an abort request that is already pending when a retry helper is
    entered makes it give up after its first attempt, whatever the reply:
    even when that attempt succeeded, the helper logs the abort message,
    and it clears the flag. *)
Theorem pending_abort_ends_helper_at_once :
  forall (p : ViewPlanner),
    abort_loop_ p = true ->
    (forall reply rest spins,
       exists r,
         retrieveDataAndWait (reply :: rest) spins p = Ok r
         /\ report r = reported_abort
         /\ replies_left r = rest
         /\ service_calls (planner_after r)
            = service_calls p ++ [Call_retrieve_data]
         /\ abort_loop_ (planner_after r) = false)
    /\ (forall target reply rest spins,
          exists r,
            moveToAndWait target (reply :: rest) spins p = Ok r
            /\ report r = reported_abort
            /\ replies_left r = rest
            /\ service_calls (planner_after r)
               = service_calls p ++ [Call_move_to target]
            /\ abort_loop_ (planner_after r) = false).
Proof.
  intros p Hp. split.
  - intros reply rest spins. unfold retrieveDataAndWait.
    cbn [retrieveData_loop].
    destruct (retrieveData None reply) as [succeeded info].
    destruct (retrieval_failed succeeded info).
    + destruct (next_spin spins) as [due spins'].
      rewrite (spinOnce_abort_stays due) by exact Hp. cbn [bind].
      rewrite (spinOnce_abort_stays due) by exact Hp.
      eexists. split; [reflexivity|].
      cbn [report replies_left planner_after service_calls set_abort_loop
           abort_loop_].
      rewrite spinOnce_service_calls. repeat split; reflexivity.
    + cbn [bind].
      assert (E : abort_loop_ (call_service p Call_retrieve_data) = true)
        by exact Hp.
      rewrite E. eexists. split; [reflexivity|]. repeat split; reflexivity.
  - intros target reply rest spins. unfold moveToAndWait.
    cbn [moveTo_loop].
    destruct (moveTo None reply) as [succeeded moved].
    destruct (movement_failed succeeded moved).
    + destruct (next_spin spins) as [due spins'].
      rewrite (spinOnce_abort_stays due) by exact Hp. cbn [bind].
      rewrite (spinOnce_abort_stays due) by exact Hp.
      eexists. split; [reflexivity|].
      cbn [report replies_left planner_after service_calls set_abort_loop
           abort_loop_].
      rewrite spinOnce_service_calls. repeat split; reflexivity.
    + cbn [bind].
      assert (E : abort_loop_ (call_service p (Call_move_to target)) = true)
        by exact Hp.
      rewrite E. eexists. split; [reflexivity|]. repeat split; reflexivity.
Qed.

Lemma pending_abort_ends_helper_at_once_witness :
  exists r,
    retrieveDataAndWait (Some RECEIVED :: [None]) [["START"%string]]
      (commandCallback (example_planner []) "ABORT_LOOP") = Ok r
    /\ report r = reported_abort
    /\ replies_left r = [None]
    /\ service_calls (planner_after r)
       = service_calls (commandCallback (example_planner []) "ABORT_LOOP")
         ++ [Call_retrieve_data]
    /\ abort_loop_ (planner_after r) = false.
Proof.
  apply (proj1 (pending_abort_ends_helper_at_once
                  (commandCallback (example_planner []) "ABORT_LOOP")
                  eq_refl)).
Defined.

Lemma retry_helpers_account_witness :
  retry_account _ move_reply_fails (Some true)
    (Call_move_to (example_view 0))
    [None; Some false; Some true; None] [["PAUSE"%string]]
    (example_planner [])
    {| planner_after :=
         call_service
           (call_service
              (call_service (commandCallback (example_planner []) "PAUSE")
                 (Call_move_to (example_view 0)))
              (Call_move_to (example_view 0)))
           (Call_move_to (example_view 0));
       replies_left := [None];
       spins_left := [];
       report := reported_success |}.
Proof.
  apply (proj2 retry_helpers_account (example_view 0)).
  reflexivity.
Defined.

(** ** More on the round *)

Lemma pause_loop_planner_data (spins : list (list string)) :
  forall p p' spins',
    pause_loop spins p = Ok (p', spins') -> planner_data p' = planner_data p.
Proof.
  induction spins as [|due spins IH]; intros p p' spins' H; cbn in H;
    [discriminate|].
  destruct (pause_ (spinOnce p due)).
  - rewrite (IH _ _ _ H). apply spinOnce_planner_data.
  - inversion H; subst. apply spinOnce_planner_data.
Qed.

Lemma pauseIfRequested_planner_data (spins : list (list string))
    (p p' : ViewPlanner) (spins' : list (list string)) :
  pauseIfRequested spins p = Ok (p', spins') ->
  planner_data p' = planner_data p.
Proof.
  unfold pauseIfRequested. destruct (pause_ p).
  - apply pause_loop_planner_data.
  - intro H. inversion H; subst. reflexivity.
Qed.

Lemma map_nth_seq {A : Type} (l : list nat) (f : nat -> A) :
  map (fun i => f (nth i l 0%nat)) (seq 0 (length l)) = map f l.
Proof.
  rewrite <- (map_map (fun i => nth i l 0%nat) f). f_equal.
  induction l as [|x l IH]; [reflexivity|].
  cbn [length seq map nth]. f_equal.
  rewrite <- seq_shift, map_map. exact IH.
Qed.

Section RoundMore.

Variable StdError_mean : list Q -> Q.
Variable StdError_variance : list Q -> Q.
Variable sqrt : Q -> Q.

(** The requests of a round that returns, and what it leaves alone. *)
Lemma planning_round_trace (w : RoundInputs) (p p' : ViewPlanner)
    (broke : bool) :
  planning_round StdError_mean StdError_variance sqrt w p = Ok (p', broke) ->
  let views_to_consider := determineAvailableViewSpace p in
  let n := length views_to_consider in
  exists k moves retrievals,
    nbv_index (round_scan w p) = Some k
    /\ (1 <= moves <= length (move_replies w))%nat
    /\ (1 <= retrievals <= length (retrieve_replies w))%nat
    /\ service_calls p'
       = service_calls p
         ++ map (fun index =>
                   Call_movement_cost (current_view_ p)
                     (ViewSpace.getView (view_space_ p) index))
              views_to_consider
         ++ map (fun i =>
                   Call_view_information
                     (pose (ViewSpace.getView (view_space_ p)
                              (nth i views_to_consider 0%nat))))
              (viable_positions n (round_costs w n))
         ++ repeat (Call_move_to (ViewSpace.getView (view_space_ p) k)) moves
         ++ repeat Call_retrieve_data retrievals
    /\ (cost_weight_ p', information_weights_ p', planning_data_names_ p',
        current_view_ p')
       = (cost_weight_ p, information_weights_ p, planning_data_names_ p,
          current_view_ p).
Proof.
  intros H views_to_consider n. unfold planning_round in H.
  apply bind_Ok in H. destruct H as ([p0 spins0] & Hpause0 & H).
  apply pauseIfRequested_planner_data in Hpause0.
  unfold planner_data in Hpause0.
  assert (Hvs0 : view_space_ p0 = view_space_ p) by congruence.
  assert (Hcands : determineAvailableViewSpace p0 = views_to_consider)
    by (unfold views_to_consider, determineAvailableViewSpace;
        now rewrite Hvs0).
  pose proof (cost_loop_invariant_holds w p0 (determineAvailableViewSpace p0)
                (candidates_in_range p0)) as Hinv.
  pose proof (movement_costs_round_costs w p0) as Hcosts.
  destruct (movement_costs w (determineAvailableViewSpace p0) p0)
    as [p1 costs].
  cbn [snd] in Hcosts. subst costs.
  destruct Hinv as (_ & _ & Hout & Hview & Hcalls1 & _ & _).
  rewrite Hcands in *. fold n in H, Hcalls1 |- *.
  unfold outside_cost_loop in Hout.
  apply bind_Ok in H. destruct H as ([p2 spins2] & Hpause2 & H).
  apply pauseIfRequested_planner_data in Hpause2.
  unfold planner_data in Hpause2.
  pose proof (expected_informations_spec w views_to_consider
                (round_costs w n) p2) as (Hinfo & Hcalls3 & _ & _).
  pose proof (expected_informations_round_information w
                views_to_consider p2) as Hinformation.
  fold n in Hinformation, Hcalls3.
  destruct (expected_informations w views_to_consider (round_costs w n) p2)
    as [p3 information].
  cbn [fst snd] in Hinfo, Hcalls3, Hinformation. subst information.
  unfold without_calls in Hinfo.
  apply bind_Ok in H. destruct H as ([p4 spins4] & Hpause4 & H).
  apply pauseIfRequested_planner_data in Hpause4.
  unfold planner_data in Hpause4.
  assert (Hreturns : calculate_returns p4 n (round_costs w n)
                       (round_information w n) = round_returns w p).
  { unfold round_returns. fold views_to_consider. fold n.
    apply calculate_returns_weights; congruence. }
  rewrite Hreturns in H.
  change (nbv_scan n (round_costs w n) (round_returns w p))
    with (round_scan w p) in H.
  destruct (nbv_index (round_scan w p)) as [k|]; [|discriminate].
  cbn [terminationCriteriaFulfilled] in H.
  apply bind_Ok in H. destruct H as (moved & Hmoved & H).
  apply moveToAndWait_account in Hmoved.
  destruct Hmoved as (used_m & jm & Hrm & Hnem & _ & Hcorem & Hcallsm & _).
  apply bind_Ok in H. destruct H as (retrieved & Hretrieved & H).
  apply retrieveDataAndWait_account in Hretrieved.
  destruct Hretrieved as (used_r & jr & Hrr & Hner & _ & Hcorer & Hcallsr & _).
  destruct (next_spin (spins_left retrieved)) as [due rest].
  inversion H; subst p' broke.
  pose proof (spinOnce_planner_data due (planner_after retrieved)) as Hspin.
  unfold planner_data in Hspin. unfold planner_core in Hcorem, Hcorer.
  rewrite saveNBVData_without_fields in Hcorem, Hcallsm.
  cbn [cost_weight_ information_weights_ planning_data_names_ planning_data_
       view_space_ current_view_ service_calls set_planning_data]
    in Hcorem, Hcallsm.
  assert (Hsame : forall index,
            ViewSpace.getView (view_space_ p4) index
            = ViewSpace.getView (view_space_ p) index).
  { intro index. replace (view_space_ p4) with (view_space_ p1) by congruence.
    rewrite Hview. now rewrite Hvs0. }
  exists k, (length used_m), (length used_r).
  split; [reflexivity|].
  split.
  { assert (L := f_equal (@length _) Hrm). rewrite length_app in L.
    destruct used_m; [contradiction|]. cbn [length] in *. lia. }
  split.
  { assert (L := f_equal (@length _) Hrr). rewrite length_app in L.
    destruct used_r; [contradiction|]. cbn [length] in *. lia. }
  split; [|congruence].
  replace (service_calls (spinOnce (planner_after retrieved) due))
    with (service_calls (planner_after retrieved)) by congruence.
  rewrite Hcallsr, Hcallsm.
  replace (service_calls p4) with (service_calls p3) by congruence.
  rewrite Hcalls3.
  replace (service_calls p2) with (service_calls p1) by congruence.
  rewrite Hcalls1.
  replace (service_calls p0) with (service_calls p) by congruence.
  replace (current_view_ p0) with (current_view_ p) by congruence.
  unfold n at 1.
  rewrite (map_nth_seq views_to_consider
             (fun index => Call_movement_cost (current_view_ p)
                             (ViewSpace.getView (view_space_ p0) index))).
  rewrite Hsame, Hvs0. rewrite <- !app_assoc. do 2 f_equal.
  f_equal. apply map_ext. intro i.
  replace (view_space_ p2) with (view_space_ p1) by congruence.
  now rewrite Hview, Hvs0.
Qed.

(** X16: the requests of a round that returns, in order: one cost request
    per candidate, one information request per cost-viable candidate, then
    at least one move request and at least one data request.  Every move
    request names the view stored at position [k] of the whole view space,
    [k] being the position the scan selected in the list of candidates. *)
Theorem planning_round_requests :
  forall (w : RoundInputs) (p p' : ViewPlanner) (broke : bool),
    planning_round StdError_mean StdError_variance sqrt w p
    = Ok (p', broke) ->
    let views_to_consider := determineAvailableViewSpace p in
    let n := length views_to_consider in
    exists k moves retrievals,
      nbv_index (round_scan w p) = Some k
      /\ (1 <= moves <= length (move_replies w))%nat
      /\ (1 <= retrievals <= length (retrieve_replies w))%nat
      /\ service_calls p'
         = service_calls p
           ++ map (fun index =>
                     Call_movement_cost (current_view_ p)
                       (ViewSpace.getView (view_space_ p) index))
                views_to_consider
           ++ map (fun i =>
                     Call_view_information
                       (pose (ViewSpace.getView (view_space_ p)
                                (nth i views_to_consider 0%nat))))
                (viable_positions n (round_costs w n))
           ++ repeat (Call_move_to (ViewSpace.getView (view_space_ p) k))
                moves
           ++ repeat Call_retrieve_data retrievals.
Proof.
  intros w p p' broke H views_to_consider n.
  destruct (planning_round_trace w p p' broke H)
    as (k & moves & retrievals & Hk & Hm & Hr & Hcalls & _).
  exists k, moves, retrievals. auto.
Qed.

(** X17: a round that returns has appended exactly one row to the recorded
    rows and has not left the loop through [break]; it has changed neither
    the weights nor the column names, and it has not updated the current
    view: after the move [current_view_] is still the view the movement
    costs of the round were computed from. *)
Theorem planning_round_keeps_settings :
  forall (w : RoundInputs) (p p' : ViewPlanner) (broke : bool),
    planning_round StdError_mean StdError_variance sqrt w p
    = Ok (p', broke) ->
    broke = false
    /\ (exists row, planning_data_ p' = planning_data_ p ++ [row])
    /\ cost_weight_ p' = cost_weight_ p
    /\ information_weights_ p' = information_weights_ p
    /\ planning_data_names_ p' = planning_data_names_ p
    /\ current_view_ p' = current_view_ p.
Proof.
  intros w p p' broke H.
  destruct (planning_round_trace w p p' broke H)
    as (_ & _ & _ & _ & _ & _ & _ & Hsame).
  apply planning_round_records in H. cbv zeta in H.
  destruct H as (k & _ & Hbroke & Hrows).
  split; [exact Hbroke|]. split; [eexists; exact Hrows|].
  repeat split; congruence.
Qed.

(** X18: a round returns only if some cost-viable candidate has a return
    above zero; a round without candidates, or whose candidates are all
    excluded or have returns of zero or less, does not return. *)
Theorem planning_round_needs_positive_return :
  forall (w : RoundInputs) (p p' : ViewPlanner) (broke : bool),
    planning_round StdError_mean StdError_variance sqrt w p
    = Ok (p', broke) ->
    let n := length (determineAvailableViewSpace p) in
    exists k,
      (k < n)%nat
      /\ is_invalid_cost (nth k (round_costs w n) 0) = false
      /\ 0 < nth k (round_returns w p) 0.
Proof.
  intros w p p' broke H n.
  apply planning_round_records in H. cbv zeta in H.
  destruct H as (k & Hk & _).
  pose proof (nbv_scan_invariant n (round_costs w n) (round_returns w p))
    as Hinv.
  cbv zeta in Hinv. unfold round_scan in Hk. fold n in Hk.
  rewrite Hk in Hinv. destruct Hinv as (_ & _ & _ & Hlt & Hv & _ & Hpos & _).
  exists k. auto.
Qed.

(** X19: the row a round records mixes two views.  Its first seven values
    are the pose of the view stored at position [k] of the whole view space,
    [k] being the position the scan selected in the list of candidates; its
    return, cost and information values are those of the candidate number
    [k], which is the view at position [views_to_consider[k]]. *)
Theorem planning_round_recorded_row :
  forall (w : RoundInputs) (p p' : ViewPlanner) (broke : bool),
    planning_round StdError_mean StdError_variance sqrt w p
    = Ok (p', broke) ->
    let n := length (determineAvailableViewSpace p) in
    exists k,
      nbv_index (round_scan w p) = Some k
      /\ (k < n)%nat
      /\ firstn 7 (recorded_row p')
         = (let nbv := pose (ViewSpace.getView (view_space_ p) k) in
            [ position_x nbv; position_y nbv; position_z nbv;
              orientation_x nbv; orientation_y nbv; orientation_z nbv;
              orientation_w nbv ])
      /\ nth 7 (recorded_row p') 0 = nth k (round_returns w p) 0
      /\ nth 11 (recorded_row p') 0 = nth k (round_costs w n) 0
      /\ skipn 12 (recorded_row p') = nth k (round_information w n) [].
Proof.
  intros w p p' broke H n.
  apply planning_round_records in H. cbv zeta in H.
  destruct H as (k & Hk & _ & Hrows).
  pose proof (nbv_scan_invariant n (round_costs w n) (round_returns w p))
    as Hinv.
  cbv zeta in Hinv. pose proof Hk as Hk'. unfold round_scan in Hk'.
  fold n in Hk'. rewrite Hk' in Hinv.
  destruct Hinv as (_ & _ & _ & Hlt & _ & Hbest & _).
  exists k. split; [exact Hk|]. split; [exact Hlt|].
  unfold recorded_row. rewrite Hrows, last_last. fold n.
  split; [reflexivity|]. split; [|split; reflexivity].
  unfold plain_row. cbn [nth app return_information return_value].
  unfold round_scan. fold n. exact Hbest.
Qed.

End RoundMore.

Lemma planning_round_requests_witness :
  let p := after_round one_exception_inputs
             (example_planner [example_view 0; example_view 1]) in
  let p' := after_round calm_inputs p in
  determineAvailableViewSpace p = [1%nat]
  /\ exists k moves retrievals,
       nbv_index (round_scan calm_inputs p) = Some k
       /\ (1 <= moves <= length (move_replies calm_inputs))%nat
       /\ (1 <= retrievals <= length (retrieve_replies calm_inputs))%nat
       /\ service_calls p'
          = service_calls p
            ++ map (fun index =>
                      Call_movement_cost (current_view_ p)
                        (ViewSpace.getView (view_space_ p) index))
                 (determineAvailableViewSpace p)
            ++ map (fun i =>
                      Call_view_information
                        (pose (ViewSpace.getView (view_space_ p)
                                 (nth i (determineAvailableViewSpace p)
                                    0%nat))))
                 (viable_positions
                    (length (determineAvailableViewSpace p))
                    (round_costs calm_inputs
                       (length (determineAvailableViewSpace p))))
            ++ repeat (Call_move_to (ViewSpace.getView (view_space_ p) k))
                 moves
            ++ repeat Call_retrieve_data retrievals.
Proof.
  intros p p'. split; [vm_compute; reflexivity|].
  apply (planning_round_requests (fun _ => 0) (fun _ => 0) (fun x => x)
           calm_inputs p p' false).
  vm_compute. reflexivity.
Defined.

Lemma planning_round_keeps_settings_witness :
  let p := example_planner [example_view 0] in
  let p' := after_round calm_inputs p in
  false = false
  /\ (exists row, planning_data_ p' = planning_data_ p ++ [row])
  /\ cost_weight_ p' = cost_weight_ p
  /\ information_weights_ p' = information_weights_ p
  /\ planning_data_names_ p' = planning_data_names_ p
  /\ current_view_ p' = current_view_ p.
Proof.
  intros p p'.
  apply (planning_round_keeps_settings (fun _ => 0) (fun _ => 0)
           (fun x => x) calm_inputs p p' false).
  vm_compute. reflexivity.
Defined.

Lemma planning_round_needs_positive_return_witness :
  let p := example_planner [example_view 0] in
  exists k,
    (k < length (determineAvailableViewSpace p))%nat
    /\ is_invalid_cost
         (nth k (round_costs calm_inputs
                   (length (determineAvailableViewSpace p))) 0) = false
    /\ 0 < nth k (round_returns calm_inputs p) 0.
Proof.
  intro p.
  apply (planning_round_needs_positive_return (fun _ => 0) (fun _ => 0)
           (fun x => x) calm_inputs p (after_round calm_inputs p) false).
  vm_compute. reflexivity.
Defined.

Lemma planning_round_recorded_row_witness :
  let p := after_round one_exception_inputs
             (example_planner [example_view 0; example_view 1]) in
  let p' := after_round calm_inputs p in
  let n := length (determineAvailableViewSpace p) in
  exists k,
    nbv_index (round_scan calm_inputs p) = Some k
    /\ (k < n)%nat
    /\ firstn 7 (recorded_row p')
       = (let nbv := pose (ViewSpace.getView (view_space_ p) k) in
          [ position_x nbv; position_y nbv; position_z nbv;
            orientation_x nbv; orientation_y nbv; orientation_z nbv;
            orientation_w nbv ])
    /\ nth 7 (recorded_row p') 0 = nth k (round_returns calm_inputs p) 0
    /\ nth 11 (recorded_row p') 0 = nth k (round_costs calm_inputs n) 0
    /\ skipn 12 (recorded_row p') = nth k (round_information calm_inputs n) [].
Proof.
  intros p p' n.
  apply (planning_round_recorded_row (fun _ => 0) (fun _ => 0) (fun x => x)
           calm_inputs p p' false).
  vm_compute. reflexivity.
Defined.


(** ** The loop of [run] and its start *)

Lemma getView_fromMsg (views : list View) (index : nat) :
  ViewSpace.getView (ViewSpace.fromMsg views) index
  = nth index views default_view.
Proof.
  unfold ViewSpace.getView, ViewSpace.fromMsg.
  revert index. induction views as [|v views IH]; intros [|index];
    cbn; auto.
Qed.

Lemma first_reply_here {A : Type} (a : A) (replies : list (option A)) :
  first_reply (Some a :: replies) 0 a.
Proof. split; [reflexivity|]. intros i' Hi'. lia. Qed.

Lemma first_reply_later {A : Type} (a : A) (replies : list (option A))
    (i : nat) :
  first_reply replies i a -> first_reply (None :: replies) (S i) a.
Proof.
  intros [Hat Hbefore]. split; [exact Hat|].
  intros [|i'] Hi'; [reflexivity|]. cbn. apply Hbefore. lia.
Qed.

Lemma wait_for_start_account (spins : list (list string)) :
  forall p p' spins',
    wait_for_start spins p = Ok (p', spins') ->
    start_ p' = true /\ planner_core p' = planner_core p.
Proof.
  induction spins as [|due spins IH]; intros p p' spins' H; cbn in H.
  - destruct (start_ p) eqn:Hstart; [|discriminate].
    inversion H; subst. auto.
  - destruct (start_ p) eqn:Hstart.
    + inversion H; subst. auto.
    + apply IH in H. destruct H as [Hs Hcore]. split; [exact Hs|].
      rewrite Hcore. apply spinOnce_planner_core.
Qed.

Lemma waitAndSpin_planner_core (spins : list (list string))
    (p : ViewPlanner) :
  planner_core (fst (waitAndSpin spins p)) = planner_core p.
Proof.
  unfold waitAndSpin. destruct (next_spin spins) as [due rest].
  apply spinOnce_planner_core.
Qed.

Lemma wait_for_view_space_account (replies : list (option (list View))) :
  forall spins p p' spins',
    wait_for_view_space replies spins p = Ok (p', spins') ->
    exists i views,
      first_reply replies i views
      /\ view_space_ p' = ViewSpace.fromMsg views
      /\ settings p' = settings p
      /\ planning_data_ p' = planning_data_ p
      /\ current_view_ p' = current_view_ p.
Proof.
  induction replies as [|reply replies IH]; intros spins p p' spins' H;
    cbn in H; [discriminate|].
  destruct reply as [views|]; cbn in H.
  - inversion H; subst. exists 0%nat, views.
    split; [apply first_reply_here|]. repeat split.
  - pose proof (waitAndSpin_planner_core spins p) as Hcore.
    destruct (waitAndSpin spins p) as [p1 spins1]. cbn [fst] in Hcore.
    apply IH in H. destruct H as (i & views & Hfirst & Hvs & Hset & Hdata & Hcur).
    exists (S i), views. split; [now apply first_reply_later|].
    unfold settings, planner_core in *.
    split; [exact Hvs|]. repeat split; congruence.
Qed.

Lemma wait_for_current_view_account (replies : list (option View)) :
  forall spins p p' spins',
    wait_for_current_view replies spins p = Ok (p', spins') ->
    exists j view,
      first_reply replies j view
      /\ current_view_ p' = view
      /\ settings p' = settings p
      /\ planning_data_ p' = planning_data_ p
      /\ view_space_ p' = view_space_ p.
Proof.
  induction replies as [|reply replies IH]; intros spins p p' spins' H;
    cbn in H; [discriminate|].
  destruct reply as [view|]; cbn in H.
  - inversion H; subst. exists 0%nat, view.
    split; [apply first_reply_here|]. repeat split.
  - pose proof (waitAndSpin_planner_core spins p) as Hcore.
    destruct (waitAndSpin spins p) as [p1 spins1]. cbn [fst] in Hcore.
    apply IH in H. destruct H as (j & view & Hfirst & Hcur & Hset & Hdata & Hvs).
    exists (S j), view. split; [now apply first_reply_later|].
    unfold settings, planner_core in *.
    split; [exact Hcur|]. repeat split; congruence.
Qed.

Section RunProperties.

Variable StdError_mean : list Q -> Q.
Variable StdError_variance : list Q -> Q.
Variable sqrt : Q -> Q.

(** A round changes the tags of the view space only. *)
Lemma planning_round_same_views (w : RoundInputs) (p p' : ViewPlanner)
    (broke : bool) :
  planning_round StdError_mean StdError_variance sqrt w p = Ok (p', broke) ->
  length (view_space_ p') = length (view_space_ p)
  /\ forall index,
       ViewSpace.getView (view_space_ p') index
       = ViewSpace.getView (view_space_ p) index.
Proof.
  unfold planning_round. intro H.
  apply bind_Ok in H. destruct H as ([p0 spins0] & Hpause0 & H).
  apply pauseIfRequested_view_space in Hpause0.
  pose proof (cost_loop_invariant_holds w p0 (determineAvailableViewSpace p0)
                (candidates_in_range p0)) as Hinv.
  destruct (movement_costs w (determineAvailableViewSpace p0) p0)
    as [p1 costs].
  destruct Hinv as (_ & Hlen & _ & Hview & _).
  apply bind_Ok in H. destruct H as ([p2 spins2] & Hpause2 & H).
  apply pauseIfRequested_view_space in Hpause2.
  pose proof (expected_informations_view_space w
                (determineAvailableViewSpace p0) costs p2) as Hinfo.
  destruct (expected_informations w (determineAvailableViewSpace p0) costs p2)
    as [p3 information].
  cbn [fst] in Hinfo.
  apply bind_Ok in H. destruct H as ([p4 spins4] & Hpause4 & H).
  apply pauseIfRequested_view_space in Hpause4.
  assert (Hsame : view_space_ p' = view_space_ p1).
  { destruct (nbv_index _) as [k|]; [|discriminate].
    cbn [terminationCriteriaFulfilled] in H.
    apply bind_Ok in H. destruct H as (moved & Hmoved & H).
    apply moveToAndWait_view_space in Hmoved.
    apply bind_Ok in H. destruct H as (retrieved & Hretrieved & H).
    apply retrieveDataAndWait_view_space in Hretrieved.
    destruct (next_spin (spins_left retrieved)) as [due rest].
    inversion H; subst.
    rewrite spinOnce_view_space, Hretrieved, Hmoved.
    cbn [saveNBVData view_space_ set_planning_data].
    congruence. }
  rewrite Hsame, <- Hpause0. split; [exact Hlen|exact Hview].
Qed.

(** What the loop has done when it is left. *)
Lemma planning_loop_account (rounds : list RoundInputs) :
  forall p p' rounds_left,
    planning_loop StdError_mean StdError_variance sqrt rounds p
    = Ok (p', rounds_left) ->
    stop_and_print_ p' = true
    /\ (exists rounds_done rows,
          rounds = rounds_done ++ rounds_left
          /\ (1 <= length rounds_done)%nat
          /\ length rows = length rounds_done
          /\ planning_data_ p' = planning_data_ p ++ rows)
    /\ settings p' = settings p
    /\ current_view_ p' = current_view_ p
    /\ length (view_space_ p') = length (view_space_ p)
    /\ (forall index,
          ViewSpace.getView (view_space_ p') index
          = ViewSpace.getView (view_space_ p) index).
Proof.
  induction rounds as [|w rounds IH]; intros p p' rounds_left H; cbn in H;
    [discriminate|].
  apply bind_Ok in H. destruct H as ([p1 broke] & Hround & H).
  destruct (planning_round_trace _ _ _ w p p1 broke Hround)
    as (_ & _ & _ & _ & _ & _ & _ & Hsame).
  destruct (planning_round_same_views w p p1 broke Hround) as [Hlen Hview].
  apply planning_round_records in Hround. cbv zeta in Hround.
  destruct Hround as (k & _ & Hbroke & Hrows). subst broke.
  assert (Hset : settings p1 = settings p)
    by (unfold settings; congruence).
  assert (Hcur : current_view_ p1 = current_view_ p) by congruence.
  destruct (stop_and_print_ p1) eqn:Hstop.
  - inversion H; subst. split; [exact Hstop|].
    split; [|auto].
    eexists [w], [_]. repeat split; [cbn; lia|exact Hrows].
  - apply IH in H.
    destruct H as (Hs & (rounds_done & rows & Hsplit & Hone & Hcount & Hdata)
                   & Hset' & Hcur' & Hlen' & Hview').
    split; [exact Hs|]. split.
    + eexists (w :: rounds_done), (_ :: rows).
      split; [cbn; now rewrite Hsplit|].
      split; [cbn; lia|]. split; [cbn; now rewrite Hcount|].
      rewrite Hdata, Hrows, <- app_assoc. reflexivity.
    + split; [congruence|]. split; [congruence|].
      split; [congruence|]. intro index. now rewrite Hview'.
Qed.

(** X20: the loop of [run] is left only with [stop_and_print_] set, never
    through the termination criterion; its body has then run at least once,
    also when the stop was requested before the loop was entered, and has
    appended one row per round to the recorded rows.  The weights, the column
    names and [current_view_] are as they were when the loop was entered:
    every round computes its movement costs from the same view. *)
Theorem planning_loop_ends_on_stop :
  forall (rounds : list RoundInputs) (p p' : ViewPlanner)
         (rounds_left : list RoundInputs),
    planning_loop StdError_mean StdError_variance sqrt rounds p
    = Ok (p', rounds_left) ->
    stop_and_print_ p' = true
    /\ (exists rounds_done rows,
          rounds = rounds_done ++ rounds_left
          /\ (1 <= length rounds_done)%nat
          /\ length rows = length rounds_done
          /\ planning_data_ p' = planning_data_ p ++ rows)
    /\ settings p' = settings p
    /\ current_view_ p' = current_view_ p.
Proof.
  intros rounds p p' rounds_left H.
  apply planning_loop_account in H.
  destruct H as (Hs & Hrows & Hset & Hcur & _). auto.
Qed.

(** The start of [run] and its loop, put together. *)
Lemma run_account (s : StartInputs) (rounds : list RoundInputs)
    (p p' : ViewPlanner) (rounds_left : list RoundInputs) :
  run StdError_mean StdError_variance sqrt s rounds p
  = Ok (p', rounds_left) ->
  exists i views j view rounds_done rows files,
    first_reply (view_space_replies s) i views
    /\ first_reply (current_view_replies s) j view
    /\ current_view_ p' = view
    /\ length (view_space_ p') = length views
    /\ (forall index,
          ViewSpace.getView (view_space_ p') index
          = nth index views default_view)
    /\ stop_and_print_ p' = true
    /\ rounds = rounds_done ++ rounds_left
    /\ (1 <= length rounds_done)%nat
    /\ length rows = length rounds_done
    /\ planning_data_ p' = planning_data_ p ++ rows
    /\ settings p' = settings p
    /\ written_files p' = files ++ [table_file p'].
Proof.
  unfold run. intro H.
  apply bind_Ok in H. destruct H as ([p1 spins1] & Hstart & H).
  apply wait_for_start_account in Hstart. destruct Hstart as [_ Hcore1].
  apply bind_Ok in H. destruct H as ([p2 spins2] & Hspace & H).
  apply wait_for_view_space_account in Hspace.
  destruct Hspace as (i & views & Hfirst_vs & Hvs2 & Hset2 & Hdata2 & Hcur2).
  apply bind_Ok in H. destruct H as ([p3 spins3] & Hcurrent & H).
  apply wait_for_current_view_account in Hcurrent.
  destruct Hcurrent as (j & view & Hfirst_cv & Hcur3 & Hset3 & Hdata3 & Hvs3).
  apply bind_Ok in H. destruct H as (retrieved & Hretrieved & H).
  apply retrieveDataAndWait_planner_core in Hretrieved.
  apply bind_Ok in H. destruct H as ([p5 rounds_left'] & Hloop & H).
  apply planning_loop_account in Hloop.
  destruct Hloop as (Hstop & (rounds_done & rows & Hsplit & Hone & Hcount & Hdata)
                     & Hset5 & Hcur5 & Hlen5 & Hview5).
  inversion H; subst p' rounds_left'. clear H.
  exists i, views, j, view, rounds_done, rows, (written_files p5).
  unfold settings, planner_core in *.
  cbn [saveDataToFile set_written_files current_view_ view_space_
       stop_and_print_ planning_data_ cost_weight_ information_weights_
       planning_data_names_ written_files table_file].
  split; [exact Hfirst_vs|]. split; [exact Hfirst_cv|].
  split; [congruence|].
  assert (Hvs4 : view_space_ (planner_after retrieved)
                 = ViewSpace.fromMsg views) by congruence.
  split.
  { rewrite Hlen5, Hvs4. unfold ViewSpace.fromMsg. apply length_map. }
  split.
  { intro index. rewrite Hview5, Hvs4. apply getView_fromMsg. }
  split; [exact Hstop|]. split; [exact Hsplit|]. split; [exact Hone|].
  split; [exact Hcount|].
  split; [rewrite Hdata; f_equal; congruence|].
  split; [congruence|reflexivity].
Qed.

(** X21: when [run] returns, the view space holds the views of the first
    reply of the view space service that arrived, and [current_view_] is
    the first current view that arrived: no round has replaced either, and
    the moves of the rounds have not changed [current_view_]. *)
Theorem run_keeps_first_replies :
  forall (s : StartInputs) (rounds : list RoundInputs) (p p' : ViewPlanner)
         (rounds_left : list RoundInputs),
    run StdError_mean StdError_variance sqrt s rounds p
    = Ok (p', rounds_left) ->
    exists i views j view,
      first_reply (view_space_replies s) i views
      /\ first_reply (current_view_replies s) j view
      /\ current_view_ p' = view
      /\ length (view_space_ p') = length views
      /\ (forall index,
            ViewSpace.getView (view_space_ p') index
            = nth index views default_view).
Proof.
  intros s rounds p p' rounds_left H.
  apply run_account in H.
  destruct H as (i & views & j & view & _ & _ & _
                 & Hvs & Hcv & Hcur & Hlen & Hview & _).
  exists i, views, j, view. auto.
Qed.

(** X22: when [run] returns, a stop has been requested, at least one round
    has been completed, and the file written last holds the column names
    the planner started with and all recorded rows: those that were there
    before and one per completed round. *)
Theorem run_saves_all_rows :
  forall (s : StartInputs) (rounds : list RoundInputs) (p p' : ViewPlanner)
         (rounds_left : list RoundInputs),
    run StdError_mean StdError_variance sqrt s rounds p
    = Ok (p', rounds_left) ->
    stop_and_print_ p' = true
    /\ exists rounds_done rows files,
         rounds = rounds_done ++ rounds_left
         /\ (1 <= length rounds_done)%nat
         /\ length rows = length rounds_done
         /\ written_files p'
            = files ++ [ {| name_line := planning_data_names_ p;
                            value_lines := planning_data_ p ++ rows |} ].
Proof.
  intros s rounds p p' rounds_left H.
  apply run_account in H.
  destruct H as (_ & _ & _ & _ & rounds_done & rows & files
                 & _ & _ & _ & _ & _ & Hstop & Hsplit & Hone & Hcount
                 & Hdata & Hset & Hfiles).
  split; [exact Hstop|].
  exists rounds_done, rows, files.
  split; [exact Hsplit|]. split; [exact Hone|]. split; [exact Hcount|].
  rewrite Hfiles. unfold table_file, settings in *. rewrite Hdata.
  do 3 f_equal. congruence.
Qed.

End RunProperties.

Lemma planning_loop_ends_on_stop_witness :
  let rounds := [calm_inputs; stopping_inputs; calm_inputs] in
  let p := example_planner [example_view 0; example_view 1] in
  let p' := after_loop rounds p in
  stop_and_print_ p' = true
  /\ (exists rounds_done rows,
        rounds = rounds_done ++ [calm_inputs]
        /\ (1 <= length rounds_done)%nat
        /\ length rows = length rounds_done
        /\ planning_data_ p' = planning_data_ p ++ rows)
  /\ settings p' = settings p
  /\ current_view_ p' = current_view_ p.
Proof.
  intros rounds p p'.
  apply (planning_loop_ends_on_stop (fun _ => 0) (fun _ => 0) (fun x => x)
           rounds p p' [calm_inputs]).
  vm_compute. reflexivity.
Defined.

Lemma run_keeps_first_replies_witness :
  let s := calm_start [example_view 0; example_view 1] in
  let rounds := [calm_inputs; stopping_inputs; calm_inputs] in
  let p := new_ViewPlanner (Some 1) example_weight in
  let p' := after_run s rounds p in
  exists i views j view,
    first_reply (view_space_replies s) i views
    /\ first_reply (current_view_replies s) j view
    /\ current_view_ p' = view
    /\ length (view_space_ p') = length views
    /\ (forall index,
          ViewSpace.getView (view_space_ p') index
          = nth index views default_view).
Proof.
  intros s rounds p p'.
  apply (run_keeps_first_replies (fun _ => 0) (fun _ => 0) (fun x => x)
           s rounds p p' [calm_inputs]).
  vm_compute. reflexivity.
Defined.

Lemma run_saves_all_rows_witness :
  let s := calm_start [example_view 0; example_view 1] in
  let rounds := [calm_inputs; stopping_inputs; calm_inputs] in
  let p := new_ViewPlanner (Some 1) example_weight in
  let p' := after_run s rounds p in
  stop_and_print_ p' = true
  /\ exists rounds_done rows files,
       rounds = rounds_done ++ [calm_inputs]
       /\ (1 <= length rounds_done)%nat
       /\ length rows = length rounds_done
       /\ written_files p'
          = files ++ [ {| name_line := planning_data_names_ p;
                          value_lines := planning_data_ p ++ rows |} ].
Proof.
  intros s rounds p p'.
  apply (run_saves_all_rows (fun _ => 0) (fun _ => 0) (fun x => x)
           s rounds p p' [calm_inputs]).
  vm_compute. reflexivity.
Defined.
